(** * go-case: the cross-service event relay

    A shallow embedding of the messaging code of the two services of the
    repository:

    - the Node API (express + mongoose + kafkajs + amqplib): the helper
      [publishItemEvent], the item handlers, [/api/notify] and the start-up
      code;
    - the Go service (gin + kafka-go + streadway/amqp): the three consumer
      loops, [sendEvent] and [main].

    The wire format of every channel is JSON text.  The encoder is the
    JavaScript [JSON.stringify], the decoder is Go's [encoding/json]; both are
    embedded on byte strings so that the codec properties are statements
    about text, not about trees. *)

From Stdlib Require Import Bool Ascii String List NArith ZArith Lia DecimalString.
Import ListNotations.
Local Open Scope string_scope.

(* ================================================================== *)
(** * JSON values and text *)
(* ================================================================== *)

Module Json.

(** A value as both languages see it.  Strings are the UTF-8 bytes of the
    text.  A finite number is held as the literal that JavaScript's
    Number-to-string conversion prints for it (Go reads that literal back
    with strconv.ParseFloat; the conversion itself is floating point and is
    not part of the model); a number that is not finite is held as the
    text JavaScript prints for it (Infinity, -Infinity, NaN), which is no
    JSON literal.  An object is the list of its members in
    enumeration order.  [JUndefined] is JavaScript's undefined: it exists on
    the JavaScript side only. *)
#[local] Set Warnings "-register-all".
Inductive json : Type :=
| JUndefined
| JNull
| JBool (b : bool)
| JNum (lit : string)
| JStr (s : string)
| JArr (elems : list json)
| JObj (members : list (string * json)).

Definition dquote : ascii := "034"%char.
Definition backslash : ascii := "092"%char.

Definition code (c : ascii) : N := N_of_ascii c.

Definition is_digit (c : ascii) : bool :=
  (48 <=? code c)%N && (code c <=? 57)%N.

Definition is_digit19 (c : ascii) : bool :=
  (49 <=? code c)%N && (code c <=? 57)%N.

(** ** Property access on JavaScript objects *)

Fixpoint obj_get (k : string) (o : list (string * json)) : option json :=
  match o with
  | [] => None
  | (k', v) :: o' => if String.eqb k k' then Some v else obj_get k o'
  end.

(** [o[k] = v]: an existing property keeps its place, a new one goes last. *)
Fixpoint obj_set (k : string) (v : json) (o : list (string * json))
  : list (string * json) :=
  match o with
  | [] => [(k, v)]
  | (k', v') :: o' =>
      if String.eqb k k' then (k, v) :: o' else (k', v') :: obj_set k v o'
  end.

(** The value of the last member named [k] in a list of members. *)
Fixpoint obj_last (k : string) (o : list (string * json)) : option json :=
  match o with
  | [] => None
  | (k', v) :: o' =>
      match obj_last k o' with
      | Some x => Some x
      | None => if String.eqb k k' then Some v else None
      end
  end.

Definition obj_has (k : string) (o : list (string * json)) : bool :=
  match obj_get k o with Some _ => true | None => false end.

(** Object spread and object literals: the properties are defined left to
    right. *)
Definition obj_assign (target src : list (string * json))
  : list (string * json) :=
  fold_left (fun o kv => obj_set (fst kv) (snd kv) o) src target.

Definition obj_literal (props : list (string * json)) : list (string * json) :=
  obj_assign [] props.

(** [v.k], for a [v] that is neither null nor undefined. *)
Definition get_prop (v : json) (k : string) : json :=
  match v with
  | JObj o => match obj_get k o with Some x => x | None => JUndefined end
  | _ => JUndefined
  end.

(** ** Number literals: the scanner of Go's encoding/json

    The states of scanner.go (stateNeg, state0, state1, stateDot, stateDot0,
    stateE, stateESign, stateE0): the scanner never backtracks, so a prefix
    like [1.] or [1e] followed by a character that cannot continue it is an
    error. *)

Fixpoint scan_digits (s : string) : string * string :=
  match s with
  | String c r =>
      if is_digit c then
        let (ds, r') := scan_digits r in (String c ds, r')
      else (EmptyString, s)
  | EmptyString => (EmptyString, EmptyString)
  end.

Definition scan_exp (s : string) : option (string * string) :=
  match s with
  | String c r =>
      if Ascii.eqb c "e" || Ascii.eqb c "E" then
        let (sg, r1) :=
          match r with
          | String c1 r1 =>
              if Ascii.eqb c1 "+" || Ascii.eqb c1 "-"
              then (String c1 EmptyString, r1) else (EmptyString, r)
          | EmptyString => (EmptyString, r)
          end in
        let (ds, r2) := scan_digits r1 in
        match ds with
        | EmptyString => None
        | _ => Some (String c (sg ++ ds), r2)
        end
      else Some (EmptyString, s)
  | EmptyString => Some (EmptyString, s)
  end.

Definition scan_frac (s : string) : option (string * string) :=
  match s with
  | String c r =>
      if Ascii.eqb c "." then
        let (ds, r1) := scan_digits r in
        match ds with
        | EmptyString => None
        | _ => Some (String c ds, r1)
        end
      else Some (EmptyString, s)
  | EmptyString => Some (EmptyString, s)
  end.

Definition scan_int (s : string) : option (string * string) :=
  match s with
  | String c r =>
      if Ascii.eqb c "0" then Some (String c EmptyString, r)
      else if is_digit19 c then
        let (ds, r1) := scan_digits r in Some (String c ds, r1)
      else None
  | EmptyString => None
  end.

Definition scan_number (s : string) : option (string * string) :=
  let (sg, s0) :=
    match s with
    | String c r =>
        if Ascii.eqb c "-" then (String c EmptyString, r) else (EmptyString, s)
    | EmptyString => (EmptyString, s)
    end in
  match scan_int s0 with
  | None => None
  | Some (i, s1) =>
      match scan_frac s1 with
      | None => None
      | Some (f, s2) =>
          match scan_exp s2 with
          | None => None
          | Some (e, s3) => Some (sg ++ i ++ f ++ e, s3)
          end
      end
  end.

(** A whole string that is one JSON number. *)
Definition number_literal (lit : string) : bool :=
  match scan_number lit with
  | Some (l, EmptyString) => String.eqb l lit
  | _ => false
  end.

(** ** JSON.stringify (ECMAScript SerializeJSONProperty, no indentation) *)

Definition hex_digit (n : N) : ascii :=
  if (n <? 10)%N then ascii_of_N (48 + n) else ascii_of_N (87 + n).

(** QuoteJSONString, one code unit at a time: the two-character escapes,
    \u00xx for the other control characters, everything else as it is. *)
Definition quote_char (c : ascii) : string :=
  if Ascii.eqb c dquote then String backslash (String dquote EmptyString)
  else if Ascii.eqb c backslash then String backslash (String backslash EmptyString)
  else if (code c =? 8)%N then "\b"
  else if (code c =? 12)%N then "\f"
  else if (code c =? 10)%N then "\n"
  else if (code c =? 13)%N then "\r"
  else if (code c =? 9)%N then "\t"
  else if (code c <? 32)%N then
    "\u00" ++ String (hex_digit (code c / 16)) (String (hex_digit (code c mod 16)) EmptyString)
  else String c EmptyString.

Fixpoint quote_body (s : string) : string :=
  match s with
  | EmptyString => EmptyString
  | String c r => quote_char c ++ quote_body r
  end.

Definition QuoteJSONString (s : string) : string :=
  String dquote (quote_body s ++ String dquote EmptyString).

Fixpoint join (sep : string) (l : list string) : string :=
  match l with
  | [] => EmptyString
  | [x] => x
  | x :: l' => x ++ sep ++ join sep l'
  end.

(** [None] is undefined: the value has no JSON text.  Inside an array such a
    value is written null, inside an object the member is left out.  A number
    that is not finite (it has no literal) is written null. *)
Fixpoint SerializeJSONProperty (v : json) : option string :=
  match v with
  | JUndefined => None
  | JNull => Some "null"
  | JBool true => Some "true"
  | JBool false => Some "false"
  | JNum lit => Some (if number_literal lit then lit else "null")
  | JStr s => Some (QuoteJSONString s)
  | JArr elems =>
      let item x :=
        match SerializeJSONProperty x with Some t => t | None => "null" end in
      Some ("[" ++ join "," (map item elems) ++ "]")
  | JObj members =>
      let fix props (ms : list (string * json)) : list string :=
        match ms with
        | [] => []
        | (k, x) :: ms' =>
            match SerializeJSONProperty x with
            | Some t => (QuoteJSONString k ++ ":" ++ t) :: props ms'
            | None => props ms'
            end
        end in
      Some ("{" ++ join "," (props members) ++ "}")
  end.

Definition JSON_stringify (v : json) : option string := SerializeJSONProperty v.


(** ** Decoding: Go's encoding/json

    String literals: the scanner (stateInString, stateInStringEsc and the
    four stateInStringEscU states) checks the literal, [unquote] decodes it.
    Both are done here in one pass over the text after the opening quote;
    the result is the decoded string and the text after the closing quote. *)

Definition in_range (lo hi : N) (c : ascii) : bool :=
  (lo <=? code c)%N && (code c <=? hi)%N.

Definition hex_val (c : ascii) : option N :=
  if in_range 48 57 c then Some (code c - 48)%N
  else if in_range 97 102 c then Some (code c - 87)%N
  else if in_range 65 70 c then Some (code c - 55)%N
  else None.

Definition getu4 (h1 h2 h3 h4 : ascii) : option N :=
  match hex_val h1, hex_val h2, hex_val h3, hex_val h4 with
  | Some a, Some b, Some c, Some d => Some (((a * 16 + b) * 16 + c) * 16 + d)%N
  | _, _, _, _ => None
  end.

Definition byte (n : N) : ascii := ascii_of_N n.

Definition str1 (a : ascii) : string := String a EmptyString.
Definition str2 (a b : ascii) : string := String a (str1 b).
Definition str3 (a b c : ascii) : string := String a (str2 b c).
Definition str4 (a b c d : ascii) : string := String a (str3 b c d).

(** U+FFFD, the replacement character. *)
Definition RuneError : string := str3 (byte 239) (byte 191) (byte 189).

Definition is_surrogate (r : N) : bool := (55296 <=? r)%N && (r <=? 57343)%N.

(** utf8.EncodeRune *)
Definition EncodeRune (r : N) : string :=
  if (r <? 128)%N then str1 (byte r)
  else if (r <? 2048)%N then
    str2 (byte (192 + r / 64)) (byte (128 + r mod 64))
  else if is_surrogate r || (1114111 <? r)%N then RuneError
  else if (r <? 65536)%N then
    str3 (byte (224 + r / 4096)) (byte (128 + (r / 64) mod 64))
         (byte (128 + r mod 64))
  else
    str4 (byte (240 + r / 262144)) (byte (128 + (r / 4096) mod 64))
         (byte (128 + (r / 64) mod 64)) (byte (128 + r mod 64)).

(** utf16.DecodeRune: the code point of a surrogate pair. *)
Definition utf16_DecodeRune (r1 r2 : N) : option N :=
  if (55296 <=? r1)%N && (r1 <? 56320)%N && (56320 <=? r2)%N && (r2 <? 57344)%N
  then Some ((r1 - 55296) * 1024 + (r2 - 56320) + 65536)%N
  else None.

Definition cont (c : ascii) : bool := in_range 128 191 c.

Definition second3 (c c1 : ascii) : bool :=
  if (code c =? 224)%N then in_range 160 191 c1
  else if (code c =? 237)%N then in_range 128 159 c1
  else cont c1.

Definition second4 (c c1 : ascii) : bool :=
  if (code c =? 240)%N then in_range 144 191 c1
  else if (code c =? 244)%N then in_range 128 143 c1
  else cont c1.

(** utf8.DecodeRune on a byte [c] of 128 or more followed by [r]: the number
    of continuation bytes of the well-formed sequence that starts at [c], or
    0 when there is none (DecodeRune then returns RuneError with width 1). *)
Definition utf8_tail (c : ascii) (r : string) : nat :=
  match r with
  | String c1 r1 =>
      if in_range 194 223 c then (if cont c1 then 1 else 0)
      else
        match r1 with
        | String c2 r2 =>
            if in_range 224 239 c then
              (if second3 c c1 && cont c2 then 2 else 0)
            else
              match r2 with
              | String c3 _ =>
                  if in_range 240 244 c && second4 c c1 && cont c2 && cont c3
                  then 3 else 0
              | EmptyString => 0
              end
        | EmptyString => 0
        end
  | EmptyString => 0
  end.

Definition simple_escape (e : ascii) : option ascii :=
  if Ascii.eqb e dquote then Some dquote
  else if Ascii.eqb e backslash then Some backslash
  else if Ascii.eqb e "/" then Some "/"%char
  else if Ascii.eqb e "b" then Some (byte 8)
  else if Ascii.eqb e "f" then Some (byte 12)
  else if Ascii.eqb e "n" then Some (byte 10)
  else if Ascii.eqb e "r" then Some (byte 13)
  else if Ascii.eqb e "t" then Some (byte 9)
  else None.

Definition prepend (p : string) (x : option (string * string))
  : option (string * string) :=
  match x with
  | Some (s, rest) => Some (p ++ s, rest)
  | None => None
  end.

Fixpoint unquote (s : string) : option (string * string) :=
  match s with
  | EmptyString => None
  | String c r =>
      if Ascii.eqb c dquote then Some (EmptyString, r)
      else if Ascii.eqb c backslash then
        match r with
        | EmptyString => None
        | String e r1 =>
            if Ascii.eqb e "u" then
              match r1 with
              | String h1 (String h2 (String h3 (String h4 r5))) =>
                  match getu4 h1 h2 h3 h4 with
                  | None => None
                  | Some rr =>
                      if is_surrogate rr then
                        match r5 with
                        | String b (String u (String g1 (String g2
                            (String g3 (String g4 r11))))) =>
                            match
                              (if Ascii.eqb b backslash && Ascii.eqb u "u"
                               then getu4 g1 g2 g3 g4 else None)
                            with
                            | Some rr1 =>
                                match utf16_DecodeRune rr rr1 with
                                | Some dec => prepend (EncodeRune dec) (unquote r11)
                                | None => prepend RuneError (unquote r5)
                                end
                            | None => prepend RuneError (unquote r5)
                            end
                        | _ => prepend RuneError (unquote r5)
                        end
                      else prepend (EncodeRune rr) (unquote r5)
                  end
              | _ => None
              end
            else
              match simple_escape e with
              | Some ch => prepend (str1 ch) (unquote r1)
              | None => None
              end
        end
      else if (code c <? 32)%N then None
      else if (code c <? 128)%N then prepend (str1 c) (unquote r)
      else
        match utf8_tail c r with
        | 1 =>
            match r with
            | String c1 r1 => prepend (str2 c c1) (unquote r1)
            | _ => None
            end
        | 2 =>
            match r with
            | String c1 (String c2 r2) => prepend (str3 c c1 c2) (unquote r2)
            | _ => None
            end
        | 3 =>
            match r with
            | String c1 (String c2 (String c3 r3)) =>
                prepend (str4 c c1 c2 c3) (unquote r3)
            | _ => None
            end
        | _ => prepend RuneError (unquote r)
        end
  end.

(** ** Values *)

Definition isSpace (c : ascii) : bool :=
  Ascii.eqb c " " || (code c =? 9)%N || (code c =? 13)%N || (code c =? 10)%N.

Fixpoint skip_space (s : string) : string :=
  match s with
  | String c r => if isSpace c then skip_space r else s
  | EmptyString => s
  end.

Fixpoint strip_prefix (p s : string) : option string :=
  match p, s with
  | EmptyString, _ => Some s
  | String a p', String b s' => if Ascii.eqb a b then strip_prefix p' s' else None
  | String _ _, EmptyString => None
  end.

Definition scan_literal (word : string) (v : json) (s : string)
  : option (json * string) :=
  match strip_prefix word s with
  | Some r => Some (v, r)
  | None => None
  end.

(** scanner.go: pushParseState fails once more than this many arrays and
    objects are open. *)
Definition maxNestingDepth : N := 10000.

(** One value from the front of [s], and the text after it.  [nest] is the
    number of arrays and objects open around it.  [gas] bounds the chain of
    calls; every second call at the latest consumes a character, so twice the
    length of the text is enough (see [decode_gas]). *)
Fixpoint parse_value (gas : nat) (nest : N) (s : string) {struct gas}
  : option (json * string) :=
  match gas with
  | O => None
  | S g =>
      match skip_space s with
      | EmptyString => None
      | String c r =>
          if Ascii.eqb c "{" then
            if (nest <? maxNestingDepth)%N then
              match skip_space r with
              | String c1 r1 =>
                  if Ascii.eqb c1 "}" then Some (JObj [], r1)
                  else
                    match parse_members g (nest + 1) (skip_space r) with
                    | Some (ms, r2) => Some (JObj ms, r2)
                    | None => None
                    end
              | EmptyString => None
              end
            else None
          else if Ascii.eqb c "[" then
            if (nest <? maxNestingDepth)%N then
              match skip_space r with
              | String c1 r1 =>
                  if Ascii.eqb c1 "]" then Some (JArr [], r1)
                  else
                    match parse_elements g (nest + 1) r with
                    | Some (es, r2) => Some (JArr es, r2)
                    | None => None
                    end
              | EmptyString => None
              end
            else None
          else if Ascii.eqb c dquote then
            match unquote r with
            | Some (str, r1) => Some (JStr str, r1)
            | None => None
            end
          else if Ascii.eqb c "-" || is_digit c then
            match scan_number (String c r) with
            | Some (lit, r1) => Some (JNum lit, r1)
            | None => None
            end
          else if Ascii.eqb c "t" then scan_literal "true" (JBool true) (String c r)
          else if Ascii.eqb c "f" then scan_literal "false" (JBool false) (String c r)
          else if Ascii.eqb c "n" then scan_literal "null" JNull (String c r)
          else None
      end
  end

with parse_elements (gas : nat) (nest : N) (s : string) {struct gas}
  : option (list json * string) :=
  match gas with
  | O => None
  | S g =>
      match parse_value g nest s with
      | None => None
      | Some (v, r) =>
          match skip_space r with
          | String c r1 =>
              if Ascii.eqb c "," then
                match parse_elements g nest r1 with
                | Some (vs, r2) => Some (v :: vs, r2)
                | None => None
                end
              else if Ascii.eqb c "]" then Some ([v], r1)
              else None
          | EmptyString => None
          end
      end
  end

with parse_members (gas : nat) (nest : N) (s : string) {struct gas}
  : option (list (string * json) * string) :=
  match gas with
  | O => None
  | S g =>
      match s with
      | String q r =>
          if Ascii.eqb q dquote then
            match unquote r with
            | None => None
            | Some (k, r1) =>
                match skip_space r1 with
                | String c r2 =>
                    if Ascii.eqb c ":" then
                      match parse_value g nest r2 with
                      | None => None
                      | Some (v, r3) =>
                          match skip_space r3 with
                          | String d r4 =>
                              if Ascii.eqb d "," then
                                match parse_members g nest (skip_space r4) with
                                | Some (ms, r5) => Some ((k, v) :: ms, r5)
                                | None => None
                                end
                              else if Ascii.eqb d "}" then Some ([(k, v)], r4)
                              else None
                          | EmptyString => None
                          end
                      end
                    else None
                | EmptyString => None
                end
            end
          else None
      | EmptyString => None
      end
  end.

Definition decode_gas (s : string) : nat := 2 * String.length s + 2.

(** json.Decoder.Decode reads the first value of the stream and leaves what
    follows it. *)
Definition first_value (s : string) : option (json * string) :=
  parse_value (decode_gas s) 0 s.

(** checkValid: the whole text is one value between optional white space. *)
Definition parse (s : string) : option json :=
  match first_value s with
  | Some (v, r) =>
      match skip_space r with
      | EmptyString => Some v
      | _ => None
      end
  | None => None
  end.

Definition Valid (s : string) : bool :=
  match parse s with Some _ => true | None => false end.

(** ** From syntax to Go values

    A number stored into an interface value goes through
    strconv.ParseFloat(s, 64), which fails when the literal rounds to an
    infinity: the magnitude is at least 2^1024 - 2^970, half a unit in the
    last place above the largest float64. *)

Definition digit_val (c : ascii) : Z := Z.of_N (code c) - 48.

Fixpoint digits_val (acc : Z) (s : string) : Z :=
  match s with
  | EmptyString => acc
  | String c r => digits_val (10 * acc + digit_val c) r
  end.

Definition drop1 (s : string) : string :=
  match s with
  | String _ r => r
  | EmptyString => EmptyString
  end.

(** The digits [m] and the power of ten [e] of a literal: its magnitude is
    m * 10^e. *)
Definition literal_decimal (lit : string) : option (Z * Z) :=
  let s0 :=
    match lit with
    | String c r => if Ascii.eqb c "-" then r else lit
    | EmptyString => lit
    end in
  match scan_int s0 with
  | None => None
  | Some (i, s1) =>
      match scan_frac s1 with
      | None => None
      | Some (f, s2) =>
          match scan_exp s2 with
          | None => None
          | Some (e, _) =>
              let fd := drop1 f in
              let ex :=
                match drop1 e with
                | String c r =>
                    if Ascii.eqb c "-" then (- digits_val 0 r)%Z
                    else if Ascii.eqb c "+" then digits_val 0 r
                    else digits_val 0 (String c r)
                | EmptyString => 0%Z
                end in
              Some (digits_val 0 (i ++ fd), (ex - Z.of_nat (String.length fd))%Z)
          end
      end
  end.

Definition float64_limit : Z := (2 ^ 1024 - 2 ^ 970)%Z.

Definition ParseFloat_ok (lit : string) : bool :=
  match literal_decimal lit with
  | Some (m, e) =>
      if (0 <=? e)%Z then (m * 10 ^ e <? float64_limit)%Z
      else (m <? float64_limit * 10 ^ (- e))%Z
  | None => false
  end.

(** decode.go, valueInterface: the value stored into an [interface{}].  A map
    has one entry per key, the last member of that name wins; every member is
    converted, also one that is overwritten later. *)
Fixpoint valueInterface (v : json) : option json :=
  match v with
  | JUndefined => None
  | JNull => Some JNull
  | JBool b => Some (JBool b)
  | JNum lit => if ParseFloat_ok lit then Some (JNum lit) else None
  | JStr s => Some (JStr s)
  | JArr elems =>
      let fix arrayInterface (es : list json) : option (list json) :=
        match es with
        | [] => Some []
        | x :: es' =>
            match valueInterface x, arrayInterface es' with
            | Some y, Some ys => Some (y :: ys)
            | _, _ => None
            end
        end in
      match arrayInterface elems with
      | Some ys => Some (JArr ys)
      | None => None
      end
  | JObj members =>
      let fix objectInterface (ms acc : list (string * json))
        : option (list (string * json)) :=
        match ms with
        | [] => Some acc
        | (k, x) :: ms' =>
            match valueInterface x with
            | Some y => objectInterface ms' (obj_set k y acc)
            | None => None
            end
        end in
      match objectInterface members [] with
      | Some m => Some (JObj m)
      | None => None
      end
  end.

(** Struct fields are found by name, ignoring case (fold.go, foldName):
    ASCII letters are folded to upper case, and so are the two other runes
    whose fold orbit reaches ASCII, U+017F (long s) and U+212A (Kelvin).
    Every other rune stays outside ASCII, so it cannot occur in a key that
    matches one of the tags below and is kept as it is. *)
Definition upper (c : ascii) : ascii :=
  if in_range 97 122 c then byte (code c - 32) else c.

Fixpoint foldName (s : string) : string :=
  match s with
  | EmptyString => EmptyString
  | String c r =>
      if (code c <? 128)%N then String (upper c) (foldName r)
      else
        match r with
        | String c1 r1 =>
            if (code c =? 197)%N && (code c1 =? 191)%N
            then String "S" (foldName r1)
            else
              match r1 with
              | String c2 r2 =>
                  if (code c =? 226)%N && (code c1 =? 132)%N && (code c2 =? 170)%N
                  then String "K" (foldName r2)
                  else String c (foldName r)
              | EmptyString => String c (foldName r)
              end
        | EmptyString => String c (foldName r)
        end
  end.

Definition names (tag key : string) : bool :=
  String.eqb (foldName key) (foldName tag).

(** literalStore into a string field: a string is stored, null leaves the
    field alone, anything else is an UnmarshalTypeError. *)
Definition store_string (v : json) (old : string) : option string :=
  match v with
  | JStr s => Some s
  | JNull => Some old
  | _ => None
  end.

(** ** Values that cross the wire unchanged *)

(** Well-formed UTF-8, as utf8.DecodeRune accepts it. *)
Fixpoint utf8 (s : string) : bool :=
  match s with
  | EmptyString => true
  | String c r =>
      if (code c <? 128)%N then utf8 r
      else
        match utf8_tail c r with
        | 1 => match r with String _ r1 => utf8 r1 | _ => false end
        | 2 => match r with String _ (String _ r2) => utf8 r2 | _ => false end
        | 3 =>
            match r with
            | String _ (String _ (String _ r3)) => utf8 r3
            | _ => false
            end
        | _ => false
        end
  end.

Fixpoint distinct (ks : list string) : bool :=
  match ks with
  | [] => true
  | k :: ks' => negb (existsb (String.eqb k) ks') && distinct ks'
  end.

(** [wire nest v]: the value [v], written where [nest] arrays and objects
    are open around it, is read back as it is.  It holds no undefined; its
    numbers are finite float64 literals; its strings and keys are well-formed
    UTF-8; the keys of an object are distinct; and the scanner's limit on
    nesting is respected. *)
Fixpoint wire (nest : N) (v : json) : bool :=
  match v with
  | JUndefined => false
  | JNull => true
  | JBool _ => true
  | JNum lit => number_literal lit && ParseFloat_ok lit
  | JStr s => utf8 s
  | JArr elems =>
      (nest <? maxNestingDepth)%N && forallb (wire (nest + 1)) elems
  | JObj members =>
      (nest <? maxNestingDepth)%N
      && distinct (map fst members)
      && forallb (fun kv => utf8 (fst kv) && wire (nest + 1) (snd kv)) members
  end.

(** The text of a value inside an array. *)
Definition text_of (v : json) : string :=
  match SerializeJSONProperty v with
  | Some t => t
  | None => "null"
  end.

(** The text of a member of an object. *)
Definition member_text (kv : string * json) : string :=
  QuoteJSONString (fst kv) ++ ":" ++ text_of (snd kv).

(** The number of values in a value: a bound on the calls needed to read
    it. *)
Fixpoint size (v : json) : nat :=
  match v with
  | JArr elems => S (fold_right (fun x n => S (size x + n)) 0 elems)
  | JObj members => S (fold_right (fun kv n => S (size (snd kv) + n)) 0 members)
  | _ => 1
  end.

(** Text that can follow a value: nothing, or a character that continues no
    number. *)
Definition ends_value (rest : string) : bool :=
  match rest with
  | EmptyString => true
  | String c _ =>
      negb (is_digit c || Ascii.eqb c "." || Ascii.eqb c "e" || Ascii.eqb c "E")
  end.

End Json.

Import Json.

(* ================================================================== *)
(** * The Node API *)
(* ================================================================== *)

Module Node.

(** How a JavaScript computation ends: with a value, or with a thrown error
    (held as its message). *)
Inductive completion (A : Type) : Type :=
| Normal (a : A)
| Throw (message : string).
Arguments Normal {A} a.
Arguments Throw {A} message.

(** What the code works on.  [fault] is the environment: the error, if any,
    with which an external call (named after the call in the source) fails
    during the request at hand.  [clock] gives the text of toISOString() of
    the successive readings of the time; [objectIds] the ids the driver makes
    up.  [topics] and [queues] are the messages the two brokers have
    accepted, oldest first.  [rabbitChannel] is the global of that name:
    false is null.  [otherUpdate] is what Mongoose and MongoDB make of an
    update document the model of the record store does not interpret,
    given the stored document if there is one: an error, no document, or
    the document after the update. *)
Record world : Type := {
  fault : string -> option string;
  clock : nat -> string;
  ticks : nat;
  objectIds : nat -> string;
  made : nat;
  items : list (string * list (string * json));
  rabbitChannel : bool;
  topics : list (string * option string);
  queues : list (string * string);
  console : list string;
  listening : bool;
  otherUpdate : list (string * json) -> option (list (string * json)) ->
                completion (option (list (string * json)))
}.

Definition JS (A : Type) : Type := world -> completion A * world.

Definition ret {A} (a : A) : JS A := fun w => (Normal a, w).

Definition throw {A} (message : string) : JS A := fun w => (Throw message, w).

Definition bind {A B} (c : JS A) (k : A -> JS B) : JS B :=
  fun w =>
    match c w with
    | (Normal a, w') => k a w'
    | (Throw e, w') => (Throw e, w')
    end.

(** try { c } catch (error) { handler error } *)
Definition try_catch {A} (c : JS A) (handler : string -> JS A) : JS A :=
  fun w =>
    match c w with
    | (Normal a, w') => (Normal a, w')
    | (Throw e, w') => handler e w'
    end.

Notation "x <- c ;; k" := (bind c (fun x => k))
  (at level 61, c at next level, right associativity).
Notation "c ;;; k" := (bind c (fun _ => k))
  (at level 61, right associativity).

Definition modify (f : world -> world) : JS unit := fun w => (Normal tt, f w).

Definition with_ticks (n : nat) (w : world) : world :=
  {| fault := fault w; clock := clock w; ticks := n;
     objectIds := objectIds w; made := made w; items := items w;
     rabbitChannel := rabbitChannel w; topics := topics w;
     queues := queues w; console := console w; listening := listening w;
     otherUpdate := otherUpdate w |}.

Definition with_made (n : nat) (w : world) : world :=
  {| fault := fault w; clock := clock w; ticks := ticks w;
     objectIds := objectIds w; made := n; items := items w;
     rabbitChannel := rabbitChannel w; topics := topics w;
     queues := queues w; console := console w; listening := listening w;
     otherUpdate := otherUpdate w |}.

Definition with_items (l : list (string * list (string * json))) (w : world)
  : world :=
  {| fault := fault w; clock := clock w; ticks := ticks w;
     objectIds := objectIds w; made := made w; items := l;
     rabbitChannel := rabbitChannel w; topics := topics w;
     queues := queues w; console := console w; listening := listening w;
     otherUpdate := otherUpdate w |}.

Definition with_rabbitChannel (b : bool) (w : world) : world :=
  {| fault := fault w; clock := clock w; ticks := ticks w;
     objectIds := objectIds w; made := made w; items := items w;
     rabbitChannel := b; topics := topics w;
     queues := queues w; console := console w; listening := listening w;
     otherUpdate := otherUpdate w |}.

Definition with_topics (l : list (string * option string)) (w : world) : world :=
  {| fault := fault w; clock := clock w; ticks := ticks w;
     objectIds := objectIds w; made := made w; items := items w;
     rabbitChannel := rabbitChannel w; topics := l;
     queues := queues w; console := console w; listening := listening w;
     otherUpdate := otherUpdate w |}.

Definition with_queues (l : list (string * string)) (w : world) : world :=
  {| fault := fault w; clock := clock w; ticks := ticks w;
     objectIds := objectIds w; made := made w; items := items w;
     rabbitChannel := rabbitChannel w; topics := topics w;
     queues := l; console := console w; listening := listening w;
     otherUpdate := otherUpdate w |}.

Definition with_console (l : list string) (w : world) : world :=
  {| fault := fault w; clock := clock w; ticks := ticks w;
     objectIds := objectIds w; made := made w; items := items w;
     rabbitChannel := rabbitChannel w; topics := topics w;
     queues := queues w; console := l; listening := listening w;
     otherUpdate := otherUpdate w |}.

Definition with_listening (b : bool) (w : world) : world :=
  {| fault := fault w; clock := clock w; ticks := ticks w;
     objectIds := objectIds w; made := made w; items := items w;
     rabbitChannel := rabbitChannel w; topics := topics w;
     queues := queues w; console := console w; listening := b;
     otherUpdate := otherUpdate w |}.

Definition with_fault (f : string -> option string) (w : world) : world :=
  {| fault := f; clock := clock w; ticks := ticks w;
     objectIds := objectIds w; made := made w; items := items w;
     rabbitChannel := rabbitChannel w; topics := topics w;
     queues := queues w; console := console w; listening := listening w;
     otherUpdate := otherUpdate w |}.

(** An awaited call into a driver: it rejects when the environment says so. *)
Definition call (op : string) : JS unit :=
  fun w =>
    match fault w op with
    | Some e => (Throw e, w)
    | None => (Normal tt, w)
    end.

(** new Date().toISOString() *)
Definition new_Date_toISOString : JS string :=
  fun w => (Normal (clock w (ticks w)), with_ticks (S (ticks w)) w).

Definition new_ObjectId : JS string :=
  fun w => (Normal (objectIds w (made w)), with_made (S (made w)) w).

Definition console_log (line : string) : JS unit :=
  modify (fun w => with_console (console w ++ [line]) w).

Definition console_error (line : string) : JS unit := console_log line.

Definition get_rabbitChannel : JS bool := fun w => (Normal (rabbitChannel w), w).

(** producer.send({ topic, messages: [{ value }] }) *)
Definition producer_send (topic : string) (value : option string) : JS unit :=
  call "producer.send" ;;;
  modify (fun w => with_topics (topics w ++ [(topic, value)]) w).

(** rabbitChannel.sendToQueue(queue, content, { persistent: true }) *)
Definition sendToQueue (queue content : string) : JS unit :=
  call "rabbitChannel.sendToQueue" ;;;
  modify (fun w => with_queues (queues w ++ [(queue, content)]) w).

(** Buffer.from(text): undefined is not a string. *)
Definition Buffer_from (text : option string) : JS string :=
  match text with
  | Some t => ret t
  | None => throw "The first argument must be of type string or an instance of Buffer, ArrayBuffer, or Array or an Array-like Object. Received undefined"
  end.

(** [v.k]: reading a property of null or undefined is a TypeError. *)
Definition member (v : json) (k : string) : JS json :=
  match v with
  | JNull | JUndefined =>
      throw ("Cannot read properties of null or undefined (reading '" ++ k ++ "')")
  | _ => ret (get_prop v k)
  end.

(** String.prototype.replace with a string pattern: the first occurrence. *)
Fixpoint replace (pattern replacement s : string) : string :=
  match strip_prefix pattern s with
  | Some r => replacement ++ r
  | None =>
      match s with
      | String c s' => String c (replace pattern replacement s')
      | EmptyString => EmptyString
      end
  end.

(** ** publishItemEvent (lines 81-114) *)

Definition kafkaValue (event : string) (data : json) (timestamp : string)
  : option string :=
  JSON_stringify
    (JObj (obj_literal [("event", JStr event); ("data", data);
                        ("timestamp", JStr timestamp)])).

(** The object literal of lines 97-101: action, then the spread of either
    { itemId: data.id } or { item: data }, then timestamp. *)
Definition rabbitMessage (event : string) (data itemId : json)
  (timestamp : string) : list (string * json) :=
  obj_literal
    ([("action", JStr (replace "item_" EmptyString event))]
       ++ (if String.eqb event "item_deleted"
           then [("itemId", itemId)] else [("item", data)])
       ++ [("timestamp", JStr timestamp)]).

Definition publishItemEvent (event : string) (data : json) : JS unit :=
  try_catch
    (now <- new_Date_toISOString ;;
     producer_send "item-events" (kafkaValue event data now) ;;;
     channel <- get_rabbitChannel ;;
     (if channel then
        itemId <- (if String.eqb event "item_deleted"
                   then member data "id" else ret JUndefined) ;;
        now' <- new_Date_toISOString ;;
        content <- Buffer_from
                     (JSON_stringify (JObj (rabbitMessage event data itemId now'))) ;;
        sendToQueue "items_queue" content
      else ret tt) ;;;
     console_log ("Published " ++ event ++ " event successfully"))
    (fun error =>
       console_error ("Error publishing " ++ event ++ " event: " ++ error)).

(** The three events the handlers publish, with the arguments they pass. *)
Inductive DomainEvent : Type :=
| created (item : list (string * json))
| updated (item : list (string * json))
| deleted (id : string).

Definition event_name (e : DomainEvent) : string :=
  match e with
  | created _ => "item_created"
  | updated _ => "item_updated"
  | deleted _ => "item_deleted"
  end.

Definition event_data (e : DomainEvent) : json :=
  match e with
  | created item => JObj item
  | updated item => JObj item
  | deleted id => JObj (obj_literal [("id", JStr id)])
  end.

Definition publish (e : DomainEvent) : JS unit :=
  publishItemEvent (event_name e) (event_data e).

(** The wire bytes of an event emitted at [emittedAt]: the value
    [publishItemEvent] hands to producer.send. *)
Definition encode (e : DomainEvent) (emittedAt : string) : option string :=
  kafkaValue (event_name e) (event_data e) emittedAt.

(** A valid event: its payload and its time stamp cross the wire unchanged
    (see [wire]); the payload sits one level deep in the message. *)
Definition valid_event (e : DomainEvent) (emittedAt : string) : bool :=
  wire 1 (event_data e) && utf8 emittedAt.

(** The QueueAction derived from an event at time [timestamp]. *)
Definition QueueAction (e : DomainEvent) (timestamp : string)
  : list (string * json) :=
  rabbitMessage (event_name e) (event_data e)
    (get_prop (event_data e) "id") timestamp.

(** ** The record store

    What the handlers need of Mongoose.  A document is held as its JSON view
    (what toJSON gives: the ObjectId as its hex string, a Date as its ISO
    text).  The schema is the one of lines 42-49; casting a value to the type
    of a path and the test for a well-formed ObjectId belong to the library
    and are parameters.  An update is interpreted when it is made of plain
    fields, alone or with a $unset of paths of the schema; what becomes of
    any other update document is left to the environment. *)

Inductive SchemaType : Type := SString | SNumber | SDate | SObjectId.

Record SchemaPath : Type := {
  path : string;
  type : SchemaType;
  required : bool;
  default_now : bool
}.

Definition itemSchema : list SchemaPath :=
  [ {| path := "name"; type := SString; required := true; default_now := false |};
    {| path := "description"; type := SString; required := false; default_now := false |};
    {| path := "price"; type := SNumber; required := false; default_now := false |};
    {| path := "category"; type := SString; required := false; default_now := false |};
    {| path := "createdAt"; type := SDate; required := false; default_now := true |};
    {| path := "updatedAt"; type := SDate; required := false; default_now := true |} ].

(** The paths an update may set: those of the schema and the version key. *)
Definition path_type (k : string) : option SchemaType :=
  if String.eqb k "__v" then Some SNumber
  else
    match find (fun p => String.eqb (path p) k) itemSchema with
    | Some p => Some (type p)
    | None => None
    end.

(** The required validator of a path: there, not null, not the empty
    string. *)
Definition is_set (v : option json) : bool :=
  match v with
  | None | Some JUndefined | Some JNull => false
  | Some (JStr s) => negb (String.eqb s EmptyString)
  | Some _ => true
  end.

(** The own enumerable properties of a parsed request body, as a spread or
    a document constructor reads them: those of an object, the indices of an
    array. *)
Fixpoint index_props (n : nat) (es : list json) : list (string * json) :=
  match es with
  | [] => []
  | x :: es' =>
      (DecimalString.NilEmpty.string_of_uint (Nat.to_uint n), x)
        :: index_props (S n) es'
  end.

Definition own_props (v : json) : list (string * json) :=
  match v with
  | JObj o => o
  | JArr es => index_props 0 es
  | _ => []
  end.

Fixpoint remove_item (id : string) (l : list (string * list (string * json)))
  : list (string * list (string * json)) :=
  match l with
  | [] => []
  | (k, d) :: l' => if String.eqb k id then l' else (k, d) :: remove_item id l'
  end.

Fixpoint replace_item (id : string) (d : list (string * json))
  (l : list (string * list (string * json)))
  : list (string * list (string * json)) :=
  match l with
  | [] => []
  | (k, d') :: l' =>
      if String.eqb k id then (k, d) :: l' else (k, d') :: replace_item id d l'
  end.

Definition find_item (id : string) (l : list (string * list (string * json)))
  : option (list (string * json)) :=
  match find (fun kd => String.eqb (fst kd) id) l with
  | Some kd => Some (snd kd)
  | None => None
  end.

(** A key of an update document that names a field: not an update operator,
    not a dotted path, not the id of the document. *)
Fixpoint has_dot (k : string) : bool :=
  match k with
  | EmptyString => false
  | String c k' => Ascii.eqb c "." || has_dot k'
  end.

Definition plain_key (k : string) : bool :=
  match k with
  | EmptyString => true
  | String c _ =>
      negb (Ascii.eqb c "$") && negb (has_dot k) && negb (String.eqb k "_id")
  end.

(** A value that is neither an object nor an array. *)
Definition scalar (v : json) : bool :=
  match v with
  | JNull | JBool _ | JNum _ | JStr _ => true
  | _ => false
  end.

(** A member of an update document that Mongoose takes as one field to
    set: its key is plain, and it names a path of the schema or holds no
    object (what strict mode does with an object under a name the schema
    does not have is not interpreted). *)
Definition plain_field (kv : string * json) : bool :=
  plain_key (fst kv)
  && (match path_type (fst kv) with Some _ => true | None => false end
      || match snd kv with JObj _ => false | _ => true end).

Definition plain_fields (o : list (string * json)) : bool :=
  forallb plain_field o.

(** The paths a $unset can name without more ado: those of the schema that
    are not required (unsetting a required path fails the update
    validators) and that the update does not set as well (MongoDB refuses
    an update that sets and unsets one path). *)
Definition unsettable (update : list (string * json)) (k : string) : bool :=
  existsb (fun p => String.eqb (path p) k && negb (required p)) itemSchema
  && negb (obj_has k update).

(** The update documents the model interprets, with the paths they unset:
    plain fields, which Mongoose takes as a $set, alone or with one $unset
    of unsettable paths.  Every other update document (another operator, a
    dotted key, _id, an object outside the schema) is left to
    [otherUpdate]. *)
Definition unset_of (update : list (string * json)) : option (list string) :=
  match filter (fun kv => negb (plain_field kv)) update with
  | [] => Some []
  | [(op, JObj (u :: us))] =>
      if String.eqb op "$unset"
         && forallb (fun kv => unsettable update (fst kv) && scalar (snd kv))
              (u :: us)
      then Some (map fst (u :: us))
      else None
  | _ => None
  end.

(** $unset: the fields are removed from the document. *)
Definition remove_fields (ks : list string) (doc : list (string * json))
  : list (string * json) :=
  filter (fun kv => negb (existsb (String.eqb (fst kv)) ks)) doc.

Section Mongoose.

Variable castPath : SchemaType -> json -> option json.
Variable isValidObjectId : string -> bool.

(** new Item(body): the paths of the schema, cast, in schema order; a
    default where the body has nothing.  strict: what the schema does not
    name is dropped.  The _id of the document is [document_id] below. *)
Fixpoint new_Item (schema : list SchemaPath) (body : list (string * json))
  : JS (list (string * json)) :=
  match schema with
  | [] => ret []
  | p :: schema' =>
      match obj_get (path p) body with
      | Some v =>
          match castPath (type p) v with
          | Some v' =>
              fields <- new_Item schema' body ;;
              ret ((path p, v') :: fields)
          | None =>
              throw ("Item validation failed: " ++ path p ++ ": Cast failed")
          end
      | None =>
          if default_now p then
            now <- new_Date_toISOString ;;
            fields <- new_Item schema' body ;;
            ret ((path p, JStr now) :: fields)
          else new_Item schema' body
      end
  end.

Definition validate (schema : list SchemaPath) (doc : list (string * json))
  : bool :=
  forallb (fun p => negb (required p) || is_set (obj_get (path p) doc)) schema.

(** The id of a new document: the one the driver makes up, unless the body
    brings its own, which is cast to an ObjectId. *)
Definition document_id (body : list (string * json)) : JS string :=
  fresh <- new_ObjectId ;;
  match obj_get "_id" body with
  | None => ret fresh
  | Some v =>
      match castPath SObjectId v with
      | Some (JStr id) => ret id
      | _ => throw "Item validation failed: _id: Cast to ObjectId failed"
      end
  end.

(** The insert: MongoDB refuses a second document with the same id. *)
Definition insertOne (id : string) (doc : list (string * json)) : JS json :=
  fun w =>
    match find_item id (items w) with
    | Some _ => (Throw "E11000 duplicate key error", w)
    | None => (Normal (JObj doc), with_items (items w ++ [(id, doc)]) w)
    end.

(** const item = new Item(req.body); await item.save() *)
Definition Item_save (body : json) : JS json :=
  id <- document_id (own_props body) ;;
  fields <- new_Item itemSchema (own_props body) ;;
  if validate itemSchema fields then
    call "item.save" ;;;
    insertOne id ((("_id", JStr id) :: fields) ++ [("__v", JNum "0")])%list
  else throw "Item validation failed: name: Path `name` is required.".

(** Mongoose gives a document it reads from the store the defaults of the
    paths it lacks (here Date.now for createdAt and updatedAt), after the
    fields the document has.  The store keeps the document as it was. *)
Fixpoint apply_defaults (schema : list SchemaPath) (doc : list (string * json))
  : JS (list (string * json)) :=
  match schema with
  | [] => ret doc
  | p :: schema' =>
      if default_now p && negb (obj_has (path p) doc) then
        now <- new_Date_toISOString ;;
        apply_defaults schema' (doc ++ [(path p, JStr now)])%list
      else apply_defaults schema' doc
  end.

Definition init (found : option (list (string * json)))
  : JS (option (list (string * json))) :=
  match found with
  | None => ret None
  | Some doc =>
      doc' <- apply_defaults itemSchema doc ;;
      ret (Some doc')
  end.

(** The $set of an update document, cast: it sets each path of the schema
    that a plain key names.  strict: the other keys set nothing. *)
Fixpoint cast_update (update : list (string * json))
  : JS (list (string * json)) :=
  match update with
  | [] => ret []
  | (k, v) :: update' =>
      match path_type k with
      | Some ty =>
          match castPath ty v with
          | Some v' =>
              set <- cast_update update' ;;
              ret ((k, v') :: set)
          | None => throw ("Cast failed for value at path " ++ k)
          end
      | None => cast_update update'
      end
  end.

(** runValidators: the validators of the paths the update sets. *)
Definition validate_update (schema : list SchemaPath) (set : list (string * json))
  : bool :=
  forallb (fun p => negb (required p) || negb (obj_has (path p) set)
                    || is_set (obj_get (path p) set)) schema.

(** The update in the store: null when there is no such document, else the
    document after the update. *)
Definition updateOne (id : string) (set : list (string * json))
  (unset : list string) : JS (option (list (string * json))) :=
  fun w =>
    match find_item id (items w) with
    | None => (Normal None, w)
    | Some doc =>
        let doc' := remove_fields unset (obj_assign doc set) in
        (Normal (Some doc'), with_items (replace_item id doc' (items w)) w)
    end.

(** An update document the model does not interpret: the environment tells
    what Mongoose and MongoDB make of it. *)
Definition updateOther (id : string) (update : list (string * json))
  : JS (option (list (string * json))) :=
  fun w =>
    match otherUpdate w update (find_item id (items w)) with
    | Throw e => (Throw e, w)
    | Normal None => (Normal None, w)
    | Normal (Some doc') =>
        (Normal (Some doc'), with_items (replace_item id doc' (items w)) w)
    end.

(** Item.findByIdAndUpdate(id, update, { new: true, runValidators: true }):
    null when there is no such document, else the document after the
    update, as Mongoose reads it from the store. *)
Definition findByIdAndUpdate (id : string) (update : list (string * json))
  : JS (option (list (string * json))) :=
  if isValidObjectId id then
    match unset_of update with
    | Some unset =>
        set <- cast_update update ;;
        if validate_update itemSchema set then
          call "Item.findByIdAndUpdate" ;;;
          updated <- updateOne id set unset ;;
          init updated
        else throw "Validation failed: name: Path `name` is required."
    | None =>
        updated <- updateOther id update ;;
        init updated
    end
  else throw "Cast to ObjectId failed".

Definition deleteOne (id : string) : JS (option (list (string * json))) :=
  fun w =>
    match find_item id (items w) with
    | None => (Normal None, w)
    | Some doc => (Normal (Some doc), with_items (remove_item id (items w)) w)
    end.

Definition findByIdAndDelete (id : string)
  : JS (option (list (string * json))) :=
  if isValidObjectId id then
    call "Item.findByIdAndDelete" ;;;
    deleted <- deleteOne id ;;
    init deleted
  else throw "Cast to ObjectId failed".

(** ** The handlers *)

Record response : Type := { status : N; body : list (string * json) }.

Definition failure (code : N) (error : string) : response :=
  {| status := code;
     body := obj_literal [("success", JBool false); ("error", JStr error)] |}.

(** POST /api/items (lines 195-213) *)
Definition post_items (req_body : json) : JS response :=
  try_catch
    (savedItem <- Item_save req_body ;;
     publishItemEvent "item_created" savedItem ;;;
     ret {| status := 201;
            body := obj_literal [("success", JBool true); ("data", savedItem)] |})
    (fun error => ret (failure 400 error)).

(** PUT /api/items/:id (lines 216-244) *)
Definition put_items (id : string) (req_body : json) : JS response :=
  try_catch
    (now <- new_Date_toISOString ;;
     updatedItem <- findByIdAndUpdate id
                      (obj_literal (own_props req_body ++ [("updatedAt", JStr now)])) ;;
     match updatedItem with
     | None => ret (failure 404 "Item not found")
     | Some doc =>
         publishItemEvent "item_updated" (JObj doc) ;;;
         ret {| status := 200;
                body := obj_literal [("success", JBool true); ("data", JObj doc)] |}
     end)
    (fun error => ret (failure 400 error)).

(** DELETE /api/items/:id (lines 247-271) *)
Definition delete_items (id : string) : JS response :=
  try_catch
    (deletedItem <- findByIdAndDelete id ;;
     match deletedItem with
     | None => ret (failure 404 "Item not found")
     | Some _ =>
         publishItemEvent "item_deleted" (JObj (obj_literal [("id", JStr id)])) ;;;
         ret {| status := 200;
                body := obj_literal [("success", JBool true);
                                     ("message", JStr "Item deleted successfully")] |}
     end)
    (fun error => ret (failure 500 error)).

(** The record-store call of the PUT handler, with the update document
    the handler builds for it. *)
Definition put_mutation (id : string) (req_body : json)
  : JS (option (list (string * json))) :=
  now <- new_Date_toISOString ;;
  findByIdAndUpdate id
    (obj_literal (own_props req_body ++ [("updatedAt", JStr now)])).

(** The mutating item requests. *)
Inductive Request : Type :=
| POST (req_body : json)
| PUT (id : string) (req_body : json)
| DELETE (id : string).

Definition handle (req : Request) : JS response :=
  match req with
  | POST req_body => post_items req_body
  | PUT id req_body => put_items id req_body
  | DELETE id => delete_items id
  end.

Definition no_record {A : Type} (c : completion (option A)) : bool :=
  match c with
  | Normal (Some _) => false
  | _ => true
  end.

(** The record-store call of the request fails in [w]: it throws
    (validation, cast or store error) or finds no document. *)
Definition mutation_failed (req : Request) (w : world) : bool :=
  match req with
  | POST req_body =>
      match fst (Item_save req_body w) with
      | Normal _ => false
      | Throw _ => true
      end
  | PUT id req_body => no_record (fst (put_mutation id req_body w))
  | DELETE id => no_record (fst (findByIdAndDelete id w))
  end.

End Mongoose.

(** POST /api/notify (lines 299-329) *)
Definition NotificationRequest (message recipient : json) (timestamp : string)
  : list (string * json) :=
  obj_literal [("message", message); ("recipient", recipient);
               ("timestamp", JStr timestamp)].


(** ** Start-up (lines 65-78, 117-142, 349-352) *)

Definition connectRabbitMQ : JS unit :=
  try_catch
    (call "amqp.connect" ;;;
     call "connection.createChannel" ;;;
     modify (with_rabbitChannel true) ;;;
     call "assertQueue items_queue" ;;;
     call "assertQueue notifications_queue" ;;;
     console_log "Connected to RabbitMQ")
    (fun error => console_error ("RabbitMQ connection error: " ++ error)).

Definition initializeServices : JS unit :=
  try_catch
    (call "producer.connect" ;;;
     console_log "Kafka producer connected" ;;;
     call "consumer.connect" ;;;
     call "consumer.subscribe" ;;;
     call "consumer.run" ;;;
     console_log "Kafka consumer connected" ;;;
     connectRabbitMQ)
    (fun error => console_error ("Error initializing services: " ++ error)).

(** app.listen(PORT, async () => { ... }): the callback runs once the server
    is listening. *)
Definition listen (PORT : string) : JS unit :=
  modify (with_listening true) ;;;
  console_log ("Node API server running on port " ++ PORT) ;;;
  initializeServices.

(** The console line of a call of [publish] in [w]. *)
Definition publish_line (e : DomainEvent) (w : world) : string :=
  match fault w "producer.send" with
  | Some err => "Error publishing " ++ event_name e ++ " event: " ++ err
  | None =>
      if rabbitChannel w then
        match fault w "rabbitChannel.sendToQueue" with
        | Some err => "Error publishing " ++ event_name e ++ " event: " ++ err
        | None => "Published " ++ event_name e ++ " event successfully"
        end
      else "Published " ++ event_name e ++ " event successfully"
  end.

(** gracefulShutdown (lines 355-373).  The result is the code the process
    exits with. *)
Definition gracefulShutdown (signal : string) : JS N :=
  console_log (signal ++ " received, shutting down gracefully") ;;;
  try_catch
    (call "producer.disconnect" ;;;
     call "consumer.disconnect" ;;;
     call "mongoose.connection.close" ;;;
     channel <- get_rabbitChannel ;;
     (if channel then call "rabbitChannel.close" else ret tt) ;;;
     console_log "All connections closed successfully" ;;;
     ret 0%N)
    (fun error =>
       console_error ("Error during shutdown: " ++ error) ;;;
       ret 1%N).

(** The connections gracefulShutdown closes, in its order. *)
Definition closing (w : world) : list string :=
  (["producer.disconnect"; "consumer.disconnect"; "mongoose.connection.close"]
     ++ (if rabbitChannel w then ["rabbitChannel.close"] else []))%list.


(** A world to run the code in: every driver call succeeds, the queue
    channel is open. *)
Definition quiet : world :=
  {| fault := fun _ => None;
     clock := fun _ => "2024-01-01T00:00:00.000Z";
     ticks := 0;
     objectIds := fun _ => "65a000000000000000000001";
     made := 0;
     items := [];
     rabbitChannel := true;
     topics := [];
     queues := [];
     console := [];
     listening := false;
     otherUpdate := fun _ _ => Throw "the update is refused" |}.

Definition failing (op error : string) (w : world) : world :=
  with_fault (fun o => if String.eqb o op then Some error else fault w o) w.

Definition widget : list (string * json) :=
  [("_id", JStr "65a000000000000000000001"); ("name", JStr "Widget");
   ("price", JNum "9.99"); ("category", JStr "Tools")].

Definition stocked : world :=
  with_items
    [("65a000000000000000000001",
      (widget ++ [("createdAt", JStr "2023-12-31T00:00:00.000Z");
                  ("updatedAt", JStr "2023-12-31T00:00:00.000Z");
                  ("__v", JNum "0")])%list)]
    quiet.


(** The properties a spread of the request body copies. *)
Definition request_fields (req_body : json) : list (string * json) :=
  obj_literal (own_props req_body).

(** The two emissions of [publishItemEvent], and a world that differs from
    [w] in what the brokers do and in nothing else. *)
Definition broker_op (op : string) : bool :=
  String.eqb op "producer.send" || String.eqb op "rabbitChannel.sendToQueue".

Definition with_brokers (f : string -> option string) (channel : bool)
  (w : world) : world :=
  with_rabbitChannel channel
    (with_fault (fun op => if broker_op op then f op else fault w op) w).

(** A computation that neither looks at the brokers nor touches them. *)
Definition blind {A : Type} (c : JS A) : Prop :=
  forall f channel w,
    c (with_brokers f channel w)
    = (fst (c w), with_brokers f channel (snd (c w))).

(** A computation that leaves the messages of both brokers as they are. *)
Definition silent {A : Type} (c : JS A) : Prop :=
  forall w, topics (snd (c w)) = topics w /\ queues (snd (c w)) = queues w.

End Node.

(* ================================================================== *)
(** * The Go service *)
(* ================================================================== *)

Module Go.

Record KafkaMessage : Type := {
  Event : string;
  Data : json;
  Timestamp : string
}.

Record RabbitMessage : Type := {
  Action : string;
  Item : json;
  ItemID : string;
  RTimestamp : string
}.

Record NotificationMessage : Type := {
  Message : string;
  Recipient : string;
  NTimestamp : string
}.

(** ** json.Unmarshal into the three message structs

    decode.go, object: each member whose key names a field is stored into
    it, in the order of the text; the other members are skipped.  The first
    error makes the call fail.  A top-level null leaves the struct at its
    zero value; any other value that is not an object is an
    UnmarshalTypeError.  The nil interface value is [JNull]. *)

Fixpoint kafkaFields (ms : list (string * json)) (m : KafkaMessage)
  : option KafkaMessage :=
  match ms with
  | [] => Some m
  | (k, v) :: ms' =>
      if names "event" k then
        match store_string v (Event m) with
        | Some s =>
            kafkaFields ms' {| Event := s; Data := Data m; Timestamp := Timestamp m |}
        | None => None
        end
      else if names "data" k then
        match valueInterface v with
        | Some d =>
            kafkaFields ms' {| Event := Event m; Data := d; Timestamp := Timestamp m |}
        | None => None
        end
      else if names "timestamp" k then
        match store_string v (Timestamp m) with
        | Some s =>
            kafkaFields ms' {| Event := Event m; Data := Data m; Timestamp := s |}
        | None => None
        end
      else kafkaFields ms' m
  end.

Definition Unmarshal_KafkaMessage (data : string) : option KafkaMessage :=
  let zero := {| Event := EmptyString; Data := JNull; Timestamp := EmptyString |} in
  match parse data with
  | Some (JObj ms) => kafkaFields ms zero
  | Some JNull => Some zero
  | _ => None
  end.

Fixpoint rabbitFields (ms : list (string * json)) (m : RabbitMessage)
  : option RabbitMessage :=
  match ms with
  | [] => Some m
  | (k, v) :: ms' =>
      if names "action" k then
        match store_string v (Action m) with
        | Some s =>
            rabbitFields ms' {| Action := s; Item := Item m; ItemID := ItemID m;
                                RTimestamp := RTimestamp m |}
        | None => None
        end
      else if names "item" k then
        match valueInterface v with
        | Some d =>
            rabbitFields ms' {| Action := Action m; Item := d; ItemID := ItemID m;
                                RTimestamp := RTimestamp m |}
        | None => None
        end
      else if names "itemId" k then
        match store_string v (ItemID m) with
        | Some s =>
            rabbitFields ms' {| Action := Action m; Item := Item m; ItemID := s;
                                RTimestamp := RTimestamp m |}
        | None => None
        end
      else if names "timestamp" k then
        match store_string v (RTimestamp m) with
        | Some s =>
            rabbitFields ms' {| Action := Action m; Item := Item m; ItemID := ItemID m;
                                RTimestamp := s |}
        | None => None
        end
      else rabbitFields ms' m
  end.

Definition Unmarshal_RabbitMessage (data : string) : option RabbitMessage :=
  let zero := {| Action := EmptyString; Item := JNull; ItemID := EmptyString;
                 RTimestamp := EmptyString |} in
  match parse data with
  | Some (JObj ms) => rabbitFields ms zero
  | Some JNull => Some zero
  | _ => None
  end.

Fixpoint notificationFields (ms : list (string * json)) (m : NotificationMessage)
  : option NotificationMessage :=
  match ms with
  | [] => Some m
  | (k, v) :: ms' =>
      if names "message" k then
        match store_string v (Message m) with
        | Some s =>
            notificationFields ms'
              {| Message := s; Recipient := Recipient m; NTimestamp := NTimestamp m |}
        | None => None
        end
      else if names "recipient" k then
        match store_string v (Recipient m) with
        | Some s =>
            notificationFields ms'
              {| Message := Message m; Recipient := s; NTimestamp := NTimestamp m |}
        | None => None
        end
      else if names "timestamp" k then
        match store_string v (NTimestamp m) with
        | Some s =>
            notificationFields ms'
              {| Message := Message m; Recipient := Recipient m; NTimestamp := s |}
        | None => None
        end
      else notificationFields ms' m
  end.

Definition Unmarshal_NotificationMessage (data : string)
  : option NotificationMessage :=
  let zero := {| Message := EmptyString; Recipient := EmptyString;
                 NTimestamp := EmptyString |} in
  match parse data with
  | Some (JObj ms) => notificationFields ms zero
  | Some JNull => Some zero
  | _ => None
  end.

(** c.ShouldBindJSON(&requestBody) with requestBody a
    map[string]interface{}: gin decodes the first value of the body with a
    json.Decoder and does not look at what follows it.  An object fills the
    map, null leaves it nil ([JNull]), every other value is an error. *)
Definition ShouldBindJSON (body : string) : option json :=
  match first_value body with
  | Some (JObj ms, _) => valueInterface (JObj ms)
  | Some (JNull, _) => Some JNull
  | _ => None
  end.

(** ** The process *)

(** [fault] is the environment, as for the Node API.  [now] gives
    time.Now().Format(time.RFC3339) at the successive readings of the time.
    [go_events] is what the log broker accepted on the topic of that name,
    [queues] what the queue broker accepted, with the routing key.  [calls]
    lists the connect calls made so far. *)
Record state : Type := {
  fault : string -> option string;
  now : nat -> string;
  ticks : nat;
  objectIDs : nat -> string;
  made : nat;
  go_events : list string;
  queues : list (string * string);
  logs : list string;
  calls : list string;
  consuming : bool;
  serving : bool
}.

Definition log_Printf (line : string) (st : state) : state :=
  {| fault := fault st; now := now st; ticks := ticks st;
     objectIDs := objectIDs st; made := made st; go_events := go_events st;
     queues := queues st; logs := logs st ++ [line]; calls := calls st;
     consuming := consuming st; serving := serving st |}.

Definition time_Now (st : state) : string * state :=
  (now st (ticks st),
   {| fault := fault st; now := now st; ticks := S (ticks st);
      objectIDs := objectIDs st; made := made st; go_events := go_events st;
      queues := queues st; logs := logs st; calls := calls st;
      consuming := consuming st; serving := serving st |}).

Definition NewObjectID (st : state) : string * state :=
  (objectIDs st (made st),
   {| fault := fault st; now := now st; ticks := ticks st;
      objectIDs := objectIDs st; made := S (made st); go_events := go_events st;
      queues := queues st; logs := logs st; calls := calls st;
      consuming := consuming st; serving := serving st |}).

(** kafkaWriter.WriteMessages(ctx, kafka.Message{Value: value}): the error,
    and the state after the call. *)
Definition WriteMessages (value : string) (st : state) : option string * state :=
  match fault st "kafkaWriter.WriteMessages" with
  | Some e => (Some e, st)
  | None =>
      (None,
       {| fault := fault st; now := now st; ticks := ticks st;
          objectIDs := objectIDs st; made := made st;
          go_events := go_events st ++ [value];
          queues := queues st; logs := logs st; calls := calls st;
          consuming := consuming st; serving := serving st |})
  end.

(** rabbitChannel.Publish with the default exchange and a routing key *)
Definition Publish (key body : string) (st : state) : option string * state :=
  match fault st "rabbitChannel.Publish" with
  | Some e => (Some e, st)
  | None =>
      (None,
       {| fault := fault st; now := now st; ticks := ticks st;
          objectIDs := objectIDs st; made := made st; go_events := go_events st;
          queues := queues st ++ [(key, body)]; logs := logs st; calls := calls st;
          consuming := consuming st; serving := serving st |})
  end.

Definition dial (op : string) (st : state) : option string * state :=
  (fault st op,
   {| fault := fault st; now := now st; ticks := ticks st;
      objectIDs := objectIDs st; made := made st; go_events := go_events st;
      queues := queues st; logs := logs st; calls := calls st ++ [op];
      consuming := consuming st; serving := serving st |}).

Definition set_consuming (st : state) : state :=
  {| fault := fault st; now := now st; ticks := ticks st;
     objectIDs := objectIDs st; made := made st; go_events := go_events st;
     queues := queues st; logs := logs st; calls := calls st;
     consuming := true; serving := serving st |}.

Definition set_serving (st : state) : state :=
  {| fault := fault st; now := now st; ticks := ticks st;
     objectIDs := objectIDs st; made := made st; go_events := go_events st;
     queues := queues st; logs := logs st; calls := calls st;
     consuming := consuming st; serving := true |}.

Definition with_fault (f : string -> option string) (st : state) : state :=
  {| fault := f; now := now st; ticks := ticks st;
     objectIDs := objectIDs st; made := made st; go_events := go_events st;
     queues := queues st; logs := logs st; calls := calls st;
     consuming := consuming st; serving := serving st |}.

Section Service.

(** json.Marshal of the maps the service sends.  Nothing in the service
    reads these texts back, so the encoder is a parameter. *)
Variable Marshal : json -> string.

(** ** Message processors (lines 252-319) *)

Definition processKafkaMessage (msg : KafkaMessage) (st : state) : state :=
  let (t, st1) := time_Now st in
  let response := JObj [("original_event", JStr (Event msg));
                        ("processed_by", JStr "go-service");
                        ("timestamp", JStr t);
                        ("status", JStr "processed")] in
  snd (WriteMessages (Marshal response) st1).

Definition processRabbitMessage (msg : RabbitMessage) (st : state) : state :=
  let (t, st1) := time_Now st in
  let response := JObj [("original_action", JStr (Action msg));
                        ("processed_by", JStr "go-service");
                        ("timestamp", JStr t);
                        ("status", JStr "processed")] in
  snd (Publish "go_events_queue" (Marshal response) st1).

Definition processNotification (msg : NotificationMessage) (st : state) : state :=
  let st0 := log_Printf ("Processing notification: " ++ Message msg) st in
  let (id, st1) := NewObjectID st0 in
  let (t, st2) := time_Now st1 in
  let response := JObj [("notification_id", JStr id);
                        ("recipient", JStr (Recipient msg));
                        ("status", JStr "sent");
                        ("processed_by", JStr "go-service");
                        ("timestamp", JStr t)] in
  snd (Publish "go_events_queue" (Marshal response) st2).

(** ** Consumer loops (lines 168-249)

    A loop is run on what its channel delivers while it runs.  For the log
    stream that is the results of the successive ReadMessage calls, an error
    or the value of a message; for a queue, the bodies of the deliveries.
    The text of a decode error is left out of the log line. *)

Fixpoint startKafkaConsumer (reads : list (string + string)) (st : state)
  : state :=
  match reads with
  | [] => st
  | inl err :: reads' =>
      startKafkaConsumer reads'
        (log_Printf ("Error reading Kafka message: " ++ err) st)
  | inr value :: reads' =>
      match Unmarshal_KafkaMessage value with
      | None =>
          startKafkaConsumer reads'
            (log_Printf "Error unmarshaling Kafka message" st)
      | Some kafkaMsg =>
          let st1 :=
            log_Printf ("Received Kafka message: " ++ Event kafkaMsg ++ " - "
                          ++ Timestamp kafkaMsg) st in
          startKafkaConsumer reads' (processKafkaMessage kafkaMsg st1)
      end
  end.

Fixpoint rangeItems (msgs : list string) (st : state) : state :=
  match msgs with
  | [] => st
  | body :: msgs' =>
      match Unmarshal_RabbitMessage body with
      | None =>
          rangeItems msgs' (log_Printf "Error unmarshaling RabbitMQ message" st)
      | Some rabbitMsg =>
          let st1 :=
            log_Printf ("Received RabbitMQ message: " ++ Action rabbitMsg ++ " - "
                          ++ RTimestamp rabbitMsg) st in
          rangeItems msgs' (processRabbitMessage rabbitMsg st1)
      end
  end.

Fixpoint rangeNotifications (msgs : list string) (st : state) : state :=
  match msgs with
  | [] => st
  | body :: msgs' =>
      match Unmarshal_NotificationMessage body with
      | None =>
          rangeNotifications msgs'
            (log_Printf "Error unmarshaling notification message" st)
      | Some notifyMsg =>
          let st1 :=
            log_Printf ("Received notification: " ++ Message notifyMsg ++ " for "
                          ++ Recipient notifyMsg) st in
          rangeNotifications msgs' (processNotification notifyMsg st1)
      end
  end.

(** The two goroutines of startRabbitConsumer, each on its own queue. *)
Definition startRabbitConsumer (msgs : list string) (st : state) : state :=
  match fault st "rabbitChannel.Consume items_queue" with
  | Some e => log_Printf ("Error setting up RabbitMQ consumer: " ++ e) st
  | None => rangeItems msgs st
  end.

Definition startNotificationConsumer (msgs : list string) (st : state) : state :=
  match fault st "rabbitChannel.Consume notifications_queue" with
  | Some e =>
      log_Printf ("Error setting up RabbitMQ notification consumer: " ++ e) st
  | None => rangeNotifications msgs st
  end.

(** ** POST /api/events (lines 433-471) *)

Record response : Type := { status : N; body : list (string * json) }.

Definition sendEvent (req_body : string) (st : state) : response * state :=
  match ShouldBindJSON req_body with
  | None =>
      ({| status := 400; body := [("error", JStr "Invalid request body")] |}, st)
  | Some requestBody =>
      let (t, st1) := time_Now st in
      let event := JObj [("event", JStr "custom_event");
                         ("data", requestBody);
                         ("timestamp", JStr t);
                         ("source", JStr "go-service")] in
      let eventBytes := Marshal event in
      let st2 := snd (WriteMessages eventBytes st1) in
      let st3 := snd (Publish "go_events_queue" eventBytes st2) in
      ({| status := 200;
          body := [("success", JBool true);
                   ("message", JStr "Event sent successfully")] |}, st3)
  end.

(** The three consumer loops, by the channel they read. *)
Inductive channel : Type := item_events | items_queue | notifications_queue.

Definition consume (c : channel) (msgs : list string) (st : state) : state :=
  match c with
  | item_events => startKafkaConsumer (map inr msgs) st
  | items_queue => rangeItems msgs st
  | notifications_queue => rangeNotifications msgs st
  end.

End Service.

(** ** Start-up (lines 91-165, 542-580) *)

Definition connectMongoDB (st : state) : option string * state :=
  match dial "mongo.Connect" st with
  | (Some e, st1) => (Some ("failed to connect to MongoDB: " ++ e), st1)
  | (None, st1) =>
      match dial "client.Ping" st1 with
      | (Some e, st2) => (Some ("failed to ping MongoDB: " ++ e), st2)
      | (None, st2) => (None, log_Printf "Connected to MongoDB successfully" st2)
      end
  end.

(** The reader and the writer are only built here: nothing is dialled
    until the first read or write, and the result is always nil. *)
Definition connectKafka (st : state) : option string * state :=
  (None, log_Printf "Connected to Kafka successfully" st).

Fixpoint declareQueues (names : list string) (st : state) : option string * state :=
  match names with
  | [] => (None, st)
  | queue :: names' =>
      match dial ("ch.QueueDeclare " ++ queue) st with
      | (Some e, st1) => (Some ("failed to declare queue " ++ queue ++ ": " ++ e), st1)
      | (None, st1) => declareQueues names' st1
      end
  end.

Definition connectRabbitMQ (st : state) : option string * state :=
  match dial "amqp.Dial" st with
  | (Some e, st1) => (Some ("failed to connect to RabbitMQ: " ++ e), st1)
  | (None, st1) =>
      match dial "conn.Channel" st1 with
      | (Some e, st2) => (Some ("failed to open RabbitMQ channel: " ++ e), st2)
      | (None, st2) =>
          match declareQueues ["items_queue"; "notifications_queue"; "go_events_queue"] st2 with
          | (Some e, st3) => (Some e, st3)
          | (None, st3) => (None, log_Printf "Connected to RabbitMQ successfully" st3)
          end
      end
  end.

(** How main leaves start-up: log.Fatalf prints its line and ends the
    process; otherwise the consumers run and the server serves. *)
Inductive outcome : Type :=
| Fatal (line : string)
| Running.

Definition main (st : state) : outcome * state :=
  match connectMongoDB st with
  | (Some err, st1) => (Fatal ("Failed to connect to MongoDB: " ++ err), st1)
  | (None, st1) =>
      match connectKafka st1 with
      | (Some err, st2) => (Fatal ("Failed to connect to Kafka: " ++ err), st2)
      | (None, st2) =>
          match connectRabbitMQ st2 with
          | (Some err, st3) => (Fatal ("Failed to connect to RabbitMQ: " ++ err), st3)
          | (None, st3) =>
              let st4 := set_consuming st3 in
              match dial "server.ListenAndServe" st4 with
              | (Some err, st5) => (Fatal ("Failed to start server: " ++ err), st5)
              | (None, st5) => (Running, set_serving st5)
              end
          end
      end
  end.

(** ** Vocabulary for the properties *)

(** A message a loop can decode: json.Unmarshal into the struct of its
    channel returns no error.  This is the test the loops make; the spec's
    well-formed message, which has the fields of its shape, is
    [spec_wellformed] below. *)
Definition wellformed_event (value : string) : bool :=
  match Unmarshal_KafkaMessage value with Some _ => true | None => false end.

Definition wellformed_action (body : string) : bool :=
  match Unmarshal_RabbitMessage body with Some _ => true | None => false end.

Definition wellformed_notification (body : string) : bool :=
  match Unmarshal_NotificationMessage body with Some _ => true | None => false end.

Definition wellformed (c : channel) (msg : string) : bool :=
  match c with
  | item_events => wellformed_event msg
  | items_queue => wellformed_action msg
  | notifications_queue => wellformed_notification msg
  end.


(** The log lines that start with [p]. *)
Definition lines (p : string) (st : state) : nat :=
  List.length (filter (String.prefix p) (logs st)).

(** Messages handed to a handler, and messages skipped, so far: read off
    the log lines the loops write. *)
Definition dispatched (st : state) : nat := lines "Received " st.
Definition skipped (st : state) : nat := lines "Error unmarshaling " st.

(** The connect calls of start-up, in the order main makes them. *)
Definition connect_steps : list string :=
  ["mongo.Connect"; "client.Ping"; "amqp.Dial"; "conn.Channel";
   "ch.QueueDeclare items_queue"; "ch.QueueDeclare notifications_queue";
   "ch.QueueDeclare go_events_queue"].

Definition connect_fails (st : state) : bool :=
  existsb (fun op => match fault st op with Some _ => true | None => false end)
    connect_steps.


(** The calls of [steps] that are made when each is made only if the ones
    before it went well: up to the first that fails, that one included. *)
Fixpoint attempted (f : string -> option string) (steps : list string)
  : list string :=
  match steps with
  | [] => []
  | op :: steps' =>
      op :: match f op with
            | Some _ => []
            | None => attempted f steps'
            end
  end.

(** The json tags of the fields of the struct a loop decodes into, and
    those among them that are strings. *)
Definition tags (c : channel) : list string :=
  match c with
  | item_events => ["event"; "data"; "timestamp"]
  | items_queue => ["action"; "item"; "itemId"; "timestamp"]
  | notifications_queue => ["message"; "recipient"; "timestamp"]
  end.

Definition string_tags (c : channel) : list string :=
  match c with
  | item_events => ["event"; "timestamp"]
  | items_queue => ["action"; "itemId"; "timestamp"]
  | notifications_queue => ["message"; "recipient"; "timestamp"]
  end.

(** A key that names one of the given tags. *)
Definition names_one (ts : list string) (key : string) : bool :=
  existsb (fun t => names t key) ts.

(** What a string field holds after a member with value [v] was stored
    into the zero struct: the string, or nothing for null. *)
Definition string_value (v : json) : string :=
  match v with
  | JStr s => s
  | _ => EmptyString
  end.

(** The values json.Unmarshal stores into a string field without error. *)
Definition string_or_null (v : json) : bool :=
  match v with
  | JStr _ | JNull => true
  | _ => false
  end.

(** What the Node API can hold where the Go service expects a string and
    decodes one: a string of well-formed UTF-8, null, or undefined (the
    property is missing from the request). *)
Definition sendable_string (v : json) : bool :=
  match v with
  | JStr s => utf8 s
  | JNull | JUndefined => true
  | _ => false
  end.





(** The acknowledgements a loop has sent so far on its output: the
    messages on go-events for the log-stream loop, those routed to
    go_events_queue for the two queue loops.  [accepts]: the broker takes
    what the loop sends. *)
Definition acks (c : channel) (st : state) : nat :=
  match c with
  | item_events => List.length (go_events st)
  | _ =>
      List.length
        (filter (fun kv => String.eqb (fst kv) "go_events_queue") (queues st))
  end.

Definition accepts (c : channel) (st : state) : bool :=
  match c with
  | item_events =>
      match fault st "kafkaWriter.WriteMessages" with
      | Some _ => false
      | None => true
      end
  | _ =>
      match fault st "rabbitChannel.Publish" with
      | Some _ => false
      | None => true
      end
  end.

(** A process that has not started, in an environment where every call
    succeeds. *)
Definition idle : state :=
  {| fault := fun _ => None;
     now := fun _ => "2024-01-01T00:00:00Z";
     ticks := 0;
     objectIDs := fun _ => "65a0000000000000000000aa";
     made := 0;
     go_events := [];
     queues := [];
     logs := [];
     calls := [];
     consuming := false;
     serving := false |}.

Definition failing (op error : string) (st : state) : state :=
  with_fault (fun o => if String.eqb o op then Some error else fault st o) st.

End Go.

(* ================================================================== *)
(** * The codec: what JSON.stringify writes, encoding/json reads back *)
(* ================================================================== *)

Module JsonFacts.

(** ** Characters and strings *)

Lemma append_assoc (a b c : string) : (a ++ b) ++ c = a ++ (b ++ c).
Proof. induction a as [|x a IH]; simpl; [reflexivity | rewrite IH; reflexivity]. Qed.

Lemma append_nil (a : string) : a ++ EmptyString = a.
Proof. induction a as [|x a IH]; simpl; [reflexivity | rewrite IH; reflexivity]. Qed.

Lemma low_byte (c : ascii) (t : string) :
  (code c <? 128)%N = true ->
  unquote (quote_char c ++ t) = prepend (str1 c) (unquote t).
Proof.
  destruct c as [[] [] [] [] [] [] [] []]; intros H;
    try discriminate H; clear H;
    match goal with
    | |- context [quote_char ?c] =>
        let q := eval vm_compute in (quote_char c) in
        change (quote_char c) with q
    end;
    cbn [String.append]; reflexivity.
Qed.

Lemma high_byte_quote (c : ascii) :
  (code c <? 128)%N = false -> quote_char c = str1 c.
Proof.
  destruct c as [[] [] [] [] [] [] [] []]; intros H;
    try discriminate H; reflexivity.
Qed.

Lemma high_byte_unquote (c : ascii) (r : string) :
  (code c <? 128)%N = false ->
  unquote (String c r)
  = match utf8_tail c r with
    | 1 =>
        match r with
        | String c1 r1 => prepend (str2 c c1) (unquote r1)
        | _ => None
        end
    | 2 =>
        match r with
        | String c1 (String c2 r2) => prepend (str3 c c1 c2) (unquote r2)
        | _ => None
        end
    | 3 =>
        match r with
        | String c1 (String c2 (String c3 r3)) =>
            prepend (str4 c c1 c2 c3) (unquote r3)
        | _ => None
        end
    | _ => prepend RuneError (unquote r)
    end.
Proof.
  destruct c as [[] [] [] [] [] [] [] []]; intros H;
    try discriminate H; reflexivity.
Qed.

Lemma cont_high (c : ascii) : cont c = true -> (code c <? 128)%N = false.
Proof.
  unfold cont, in_range. intros H. apply andb_prop in H. destruct H as [H _].
  apply N.leb_le in H. apply N.ltb_ge. lia.
Qed.

Lemma second3_high (c c1 : ascii) :
  second3 c c1 = true -> (code c1 <? 128)%N = false.
Proof.
  unfold second3, in_range.
  destruct (code c =? 224)%N; [|destruct (code c =? 237)%N];
    try apply cont_high; intros H; apply andb_prop in H; destruct H as [H _];
    apply N.leb_le in H; apply N.ltb_ge; lia.
Qed.

Lemma second4_high (c c1 : ascii) :
  second4 c c1 = true -> (code c1 <? 128)%N = false.
Proof.
  unfold second4, in_range.
  destruct (code c =? 240)%N; [|destruct (code c =? 244)%N];
    try apply cont_high; intros H; apply andb_prop in H; destruct H as [H _];
    apply N.leb_le in H; apply N.ltb_ge; lia.
Qed.

(** The width of a sequence is decided by its own bytes. *)
Lemma utf8_tail_1 (c c1 : ascii) (r : string) :
  utf8_tail c (String c1 r) = 1 ->
  (code c1 <? 128)%N = false /\ forall x, utf8_tail c (String c1 x) = 1.
Proof.
  unfold utf8_tail.
  destruct (in_range 194 223 c).
  - destruct (cont c1) eqn:E; [|discriminate]. intros _.
    split; [apply cont_high; exact E | reflexivity].
  - destruct r as [|c2 r]; [discriminate|].
    destruct (in_range 224 239 c).
    + destruct (second3 c c1 && cont c2); discriminate.
    + destruct r as [|c3 r]; [discriminate|].
      destruct (in_range 240 244 c && second4 c c1 && cont c2 && cont c3);
        discriminate.
Qed.

Lemma utf8_tail_2 (c c1 c2 : ascii) (r : string) :
  utf8_tail c (String c1 (String c2 r)) = 2 ->
  (code c1 <? 128)%N = false /\ (code c2 <? 128)%N = false
  /\ forall x, utf8_tail c (String c1 (String c2 x)) = 2.
Proof.
  unfold utf8_tail.
  destruct (in_range 194 223 c).
  - destruct (cont c1); discriminate.
  - destruct (in_range 224 239 c).
    + destruct (second3 c c1) eqn:E1; [|discriminate].
      destruct (cont c2) eqn:E2; [|discriminate]. intros _.
      split; [exact (second3_high _ _ E1)|].
      split; [exact (cont_high _ E2) | reflexivity].
    + destruct r as [|c3 r]; [discriminate|].
      destruct (in_range 240 244 c && second4 c c1 && cont c2 && cont c3);
        discriminate.
Qed.

Lemma utf8_tail_3 (c c1 c2 c3 : ascii) (r : string) :
  utf8_tail c (String c1 (String c2 (String c3 r))) = 3 ->
  (code c1 <? 128)%N = false /\ (code c2 <? 128)%N = false
  /\ (code c3 <? 128)%N = false
  /\ forall x, utf8_tail c (String c1 (String c2 (String c3 x))) = 3.
Proof.
  unfold utf8_tail.
  destruct (in_range 194 223 c).
  - destruct (cont c1); discriminate.
  - destruct (in_range 224 239 c).
    + destruct (second3 c c1 && cont c2); discriminate.
    + destruct (in_range 240 244 c); [|discriminate].
      destruct (second4 c c1) eqn:E1; [|discriminate].
      destruct (cont c2) eqn:E2; [|discriminate].
      destruct (cont c3) eqn:E3; [|discriminate]. intros _.
      split; [exact (second4_high _ _ E1)|].
      split; [exact (cont_high _ E2)|].
      split; [exact (cont_high _ E3) | reflexivity].
Qed.

(** Strings: what QuoteJSONString writes, unquote reads back. *)
Lemma unquote_quote_body (s rest : string) :
  utf8 s = true ->
  unquote (quote_body s ++ String dquote rest) = Some (s, rest).
Proof.
  remember (String.length s) as n eqn:Hn.
  assert (Hle : String.length s <= n) by lia. clear Hn.
  revert s Hle. induction n as [|n IH]; intros s Hle Hs.
  - destruct s; [reflexivity | simpl in Hle; lia].
  - destruct s as [|c r]; [reflexivity|].
    cbn [String.length] in Hle. cbn [utf8] in Hs. cbn [quote_body].
    destruct (code c <? 128)%N eqn:Ec.
    + rewrite append_assoc, low_byte by exact Ec.
      rewrite IH by (try lia; exact Hs). reflexivity.
    + rewrite (high_byte_quote c Ec). cbn [str1 String.append].
      rewrite (high_byte_unquote c _ Ec).
      destruct (utf8_tail c r) as [|[|[|[|k]]]] eqn:Et; try discriminate Hs.
      * destruct r as [|c1 r1]; [discriminate|].
        destruct (utf8_tail_1 _ _ _ Et) as [E1 Hx].
        cbn [quote_body]. rewrite (high_byte_quote c1 E1).
        cbn [str1 String.append]. rewrite Hx.
        cbn [String.length] in Hle. rewrite IH by (try lia; exact Hs).
        reflexivity.
      * destruct r as [|c1 [|c2 r2]]; try discriminate.
        destruct (utf8_tail_2 _ _ _ _ Et) as (E1 & E2 & Hx).
        cbn [quote_body]. rewrite (high_byte_quote c1 E1), (high_byte_quote c2 E2).
        cbn [str1 String.append]. rewrite Hx.
        cbn [String.length] in Hle. rewrite IH by (try lia; exact Hs).
        reflexivity.
      * destruct r as [|c1 [|c2 [|c3 r3]]]; try discriminate.
        destruct (utf8_tail_3 _ _ _ _ _ Et) as (E1 & E2 & E3 & Hx).
        cbn [quote_body].
        rewrite (high_byte_quote c1 E1), (high_byte_quote c2 E2),
          (high_byte_quote c3 E3).
        cbn [str1 String.append]. rewrite Hx.
        cbn [String.length] in Hle. rewrite IH by (try lia; exact Hs).
        reflexivity.
Qed.

(** ** Numbers *)

Lemma ends_value_digit (rest : string) :
  ends_value rest = true ->
  match rest with String c _ => is_digit c = false | EmptyString => True end.
Proof.
  destruct rest as [|c r]; [trivial|]. unfold ends_value.
  destruct (is_digit c); [discriminate | reflexivity].
Qed.

Lemma scan_digits_ext (s rest ds r : string) :
  scan_digits s = (ds, r) -> ends_value rest = true ->
  scan_digits (s ++ rest) = (ds, r ++ rest).
Proof.
  intros H Hrest. revert ds r H.
  induction s as [|c s IH]; intros ds r H; cbn [scan_digits String.append] in *.
  - inversion H; subst. cbn [String.append].
    pose proof (ends_value_digit rest Hrest) as Hd.
    destruct rest as [|c r]; [reflexivity|]. cbn [scan_digits]. rewrite Hd.
    reflexivity.
  - destruct (is_digit c).
    + destruct (scan_digits s) as [ds' r'] eqn:E.
      inversion H; subst. rewrite (IH ds' r eq_refl). reflexivity.
    + inversion H; subst. reflexivity.
Qed.

Lemma scan_int_ext (s rest i r : string) :
  scan_int s = Some (i, r) -> ends_value rest = true ->
  scan_int (s ++ rest) = Some (i, r ++ rest).
Proof.
  intros H Hrest. destruct s as [|c s]; [discriminate|].
  cbn [scan_int String.append] in *.
  destruct (Ascii.eqb c "0").
  - inversion H; subst. reflexivity.
  - destruct (is_digit19 c); [|discriminate].
    destruct (scan_digits s) as [ds r'] eqn:E.
    inversion H; subst. rewrite (scan_digits_ext _ _ _ _ E Hrest). reflexivity.
Qed.

Lemma scan_frac_ext (s rest f r : string) :
  scan_frac s = Some (f, r) -> ends_value rest = true ->
  scan_frac (s ++ rest) = Some (f, r ++ rest).
Proof.
  intros H Hrest. destruct s as [|c s].
  - inversion H; subst. cbn [String.append].
    destruct rest as [|c r]; [reflexivity|]. cbn [scan_frac].
    unfold ends_value in Hrest.
    destruct (Ascii.eqb c "."); [|reflexivity].
    rewrite orb_true_r in Hrest. discriminate.
  - cbn [scan_frac String.append] in *.
    destruct (Ascii.eqb c ".").
    + destruct (scan_digits s) as [ds r'] eqn:E.
      rewrite (scan_digits_ext _ _ _ _ E Hrest).
      destruct ds; [discriminate|]. inversion H; subst. reflexivity.
    + inversion H; subst. reflexivity.
Qed.

Lemma scan_exp_ext (s rest e r : string) :
  scan_exp s = Some (e, r) -> ends_value rest = true ->
  scan_exp (s ++ rest) = Some (e, r ++ rest).
Proof.
  intros H Hrest. destruct s as [|c s].
  - inversion H; subst. cbn [String.append].
    destruct rest as [|c r]; [reflexivity|]. cbn [scan_exp].
    unfold ends_value in Hrest.
    destruct (Ascii.eqb c "e"); [rewrite ?orb_true_r in Hrest; discriminate|].
    destruct (Ascii.eqb c "E"); [rewrite ?orb_true_r in Hrest; discriminate|].
    reflexivity.
  - cbn [scan_exp String.append] in *.
    destruct (Ascii.eqb c "e" || Ascii.eqb c "E").
    + destruct s as [|c1 s1].
      * cbn [scan_digits] in H. discriminate.
      * cbn [String.append].
        destruct (Ascii.eqb c1 "+" || Ascii.eqb c1 "-").
        -- destruct (scan_digits s1) as [ds r'] eqn:E.
           rewrite (scan_digits_ext _ _ _ _ E Hrest).
           destruct ds; [discriminate|]. inversion H; subst. reflexivity.
        -- destruct (scan_digits (String c1 s1)) as [ds r'] eqn:E.
           change (String c1 (s1 ++ rest)) with (String c1 s1 ++ rest).
           rewrite (scan_digits_ext _ _ _ _ E Hrest).
           destruct ds; [discriminate|]. inversion H; subst. reflexivity.
    + inversion H; subst. reflexivity.
Qed.

Lemma scan_number_ext (s rest lit r : string) :
  scan_number s = Some (lit, r) -> ends_value rest = true ->
  scan_number (s ++ rest) = Some (lit, r ++ rest).
Proof.
  intros H Hrest. unfold scan_number in *.
  destruct s as [|c s]; [discriminate|]. cbn [String.append].
  assert (Hgo : forall sg s0,
             match scan_int s0 with
             | None => None
             | Some (i, s1) =>
                 match scan_frac s1 with
                 | None => None
                 | Some (f, s2) =>
                     match scan_exp s2 with
                     | None => None
                     | Some (e, s3) => Some (sg ++ i ++ f ++ e, s3)
                     end
                 end
             end = Some (lit, r) ->
             match scan_int (s0 ++ rest) with
             | None => None
             | Some (i, s1) =>
                 match scan_frac s1 with
                 | None => None
                 | Some (f, s2) =>
                     match scan_exp s2 with
                     | None => None
                     | Some (e, s3) => Some (sg ++ i ++ f ++ e, s3)
                     end
                 end
             end = Some (lit, r ++ rest)).
  { intros sg s0 H0.
    destruct (scan_int s0) as [[i s1]|] eqn:Ei; [|discriminate].
    rewrite (scan_int_ext _ _ _ _ Ei Hrest).
    destruct (scan_frac s1) as [[f s2]|] eqn:Ef; [|discriminate].
    rewrite (scan_frac_ext _ _ _ _ Ef Hrest).
    destruct (scan_exp s2) as [[e s3]|] eqn:Ee; [|discriminate].
    rewrite (scan_exp_ext _ _ _ _ Ee Hrest).
    inversion H0; subst. reflexivity. }
  destruct (Ascii.eqb c "-").
  - apply Hgo. exact H.
  - apply (Hgo EmptyString (String c s)). exact H.
Qed.

Lemma number_literal_scan (lit rest : string) :
  number_literal lit = true -> ends_value rest = true ->
  scan_number (lit ++ rest) = Some (lit, rest).
Proof.
  unfold number_literal. intros H Hrest.
  destruct (scan_number lit) as [[l [|c r]]|] eqn:E; try discriminate.
  apply String.eqb_eq in H. subst l.
  exact (scan_number_ext _ _ _ _ E Hrest).
Qed.

Lemma number_literal_head (lit : string) :
  number_literal lit = true ->
  exists c t, lit = String c t /\ (Ascii.eqb c "-" || is_digit c) = true.
Proof.
  unfold number_literal, scan_number. destruct lit as [|c t]; [discriminate|].
  intros H. exists c, t. split; [reflexivity|].
  destruct (Ascii.eqb c "-"); [reflexivity|]. cbn [orb].
  cbn [scan_int] in H.
  destruct (Ascii.eqb c "0") eqn:E0.
  - apply Ascii.eqb_eq in E0. subst. reflexivity.
  - destruct (is_digit19 c) eqn:E19; [|discriminate].
    unfold is_digit19 in E19. unfold is_digit.
    apply andb_prop in E19. destruct E19 as [Ha Hb]. rewrite Hb.
    apply N.leb_le in Ha. rewrite andb_true_r. apply N.leb_le. lia.
Qed.

(** ** Values *)

Lemma skip_space_head (c : ascii) (r : string) :
  isSpace c = false -> skip_space (String c r) = String c r.
Proof. intros H. cbn [skip_space]. rewrite H. reflexivity. Qed.

Lemma number_head_tests (c : ascii) :
  (Ascii.eqb c "-" || is_digit c) = true ->
  isSpace c = false /\ Ascii.eqb c "{" = false /\ Ascii.eqb c "[" = false
  /\ Ascii.eqb c dquote = false /\ Ascii.eqb c "]" = false.
Proof.
  destruct c as [[] [] [] [] [] [] [] []]; intros H;
    vm_compute in H; try discriminate H; repeat split.
Qed.

Lemma serialize_text (v : json) :
  v <> JUndefined -> SerializeJSONProperty v = Some (text_of v).
Proof.
  intros H. destruct v; try reflexivity; [congruence | destruct b; reflexivity].
Qed.


Lemma wire_defined (nest : N) (v : json) : wire nest v = true -> v <> JUndefined.
Proof. intros H E. subst. discriminate. Qed.

Lemma text_JArr (es : list json) :
  text_of (JArr es) = "[" ++ join "," (map text_of es) ++ "]".
Proof. reflexivity. Qed.

Lemma text_JObj (nest : N) (ms : list (string * json)) :
  forallb (fun kv => utf8 (fst kv) && wire nest (snd kv)) ms = true ->
  text_of (JObj ms) = "{" ++ join "," (map member_text ms) ++ "}".
Proof.
  intros H. unfold text_of. cbn [SerializeJSONProperty].
  do 3 f_equal.
  induction ms as [|[k x] ms IH]; [reflexivity|].
  cbn [forallb fst snd] in H. apply andb_prop in H. destruct H as [Hkx Hms].
  apply andb_prop in Hkx. destruct Hkx as [_ Hx].
  rewrite (serialize_text x (wire_defined _ _ Hx)).
  cbn [map]. rewrite (IH Hms). reflexivity.
Qed.

(** The first character of the text of a value starts a value. *)
Lemma text_head (nest : N) (v : json) :
  wire nest v = true ->
  exists c t, text_of v = String c t /\ isSpace c = false
              /\ Ascii.eqb c "]" = false.
Proof.
  destruct v as [| |[]|lit|s|es|ms]; intros H; try discriminate H;
    try (eexists; eexists; split; [reflexivity | split; reflexivity]).
  - cbn [wire] in H. apply andb_prop in H. destruct H as [Hl _].
    unfold text_of. cbn [SerializeJSONProperty]. rewrite Hl.
    destruct (number_literal_head lit Hl) as (c & t & -> & Hc).
    destruct (number_head_tests c Hc) as (H1 & _ & _ & _ & H5).
    exists c, t. repeat split; assumption.
Qed.

Section Values.

Variable G : nat.
Hypothesis IH :
  forall g, g < G ->
  forall v nest rest,
    size v <= g -> wire nest v = true ->
    (forall lit, v = JNum lit -> ends_value rest = true) ->
    parse_value g nest (text_of v ++ rest) = Some (v, rest).

Lemma parse_elements_text (es : list json) :
  forall g nest rest,
    g < G -> es <> [] ->
    fold_right (fun x n => S (size x + n)) 0 es <= g ->
    forallb (wire nest) es = true ->
    parse_elements g nest (join "," (map text_of es) ++ String "]" rest)
    = Some (es, rest).
Proof.
  induction es as [|e es IHes]; intros g nest rest Hg Hne Hsize Hwire;
    [congruence|].
  cbn [fold_right] in Hsize. cbn [forallb] in Hwire.
  apply andb_prop in Hwire. destruct Hwire as [He Hes].
  destruct g as [|g]; [lia|]. cbn [parse_elements].
  destruct es as [|e' es'].
  - cbn [map join].
    rewrite (IH g ltac:(lia) e nest (String "]" rest) ltac:(lia) He
               (fun _ _ => eq_refl)).
    reflexivity.
  - change (join "," (map text_of (e :: e' :: es')))
      with (text_of e ++ "," ++ join "," (map text_of (e' :: es'))).
    rewrite !append_assoc.
    cbn [String.append].
    rewrite (IH g ltac:(lia) e nest
               (String "," (join "," (map text_of (e' :: es')) ++ String "]" rest))
               ltac:(lia) He (fun _ _ => eq_refl)).
    cbn [skip_space].
    change (isSpace ",") with false. cbn iota.
    change (Ascii.eqb "," ",") with true. cbn iota.
    rewrite (IHes g nest rest ltac:(lia) ltac:(discriminate)
               ltac:(cbn [fold_right] in *; lia) Hes).
    reflexivity.
Qed.

Lemma member_text_app (k : string) (v : json) (x : string) :
  member_text (k, v) ++ x
  = String dquote (quote_body k ++ String dquote (String ":" (text_of v ++ x))).
Proof.
  unfold member_text, QuoteJSONString. cbn [fst snd String.append].
  rewrite !append_assoc. reflexivity.
Qed.

Lemma members_head (ms : list (string * json)) (x : string) :
  ms <> [] ->
  skip_space (join "," (map member_text ms) ++ x)
  = join "," (map member_text ms) ++ x.
Proof.
  destruct ms as [|[k v] ms]; [congruence|]. intros _.
  destruct ms as [|m ms].
  - cbn [map join]. rewrite member_text_app. reflexivity.
  - change (join "," (map member_text ((k, v) :: m :: ms)))
      with (member_text (k, v) ++ "," ++ join "," (map member_text (m :: ms))).
    rewrite append_assoc, member_text_app. reflexivity.
Qed.

Lemma parse_members_text (ms : list (string * json)) :
  forall g nest rest,
    g < G -> ms <> [] ->
    fold_right (fun kv n => S (size (snd kv) + n)) 0 ms <= g ->
    forallb (fun kv => utf8 (fst kv) && wire nest (snd kv)) ms = true ->
    parse_members g nest (join "," (map member_text ms) ++ String "}" rest)
    = Some (ms, rest).
Proof.
  induction ms as [|[k v] ms IHms]; intros g nest rest Hg Hne Hsize Hwire;
    [congruence|].
  cbn [fold_right snd] in Hsize. cbn [forallb fst snd] in Hwire.
  apply andb_prop in Hwire. destruct Hwire as [Hkv Hms].
  apply andb_prop in Hkv. destruct Hkv as [Hk Hv].
  destruct g as [|g]; [lia|]. cbn [parse_members].
  destruct ms as [|m ms'].
  - cbn [map join]. rewrite member_text_app.
    change (Ascii.eqb dquote dquote) with true. cbn iota.
    rewrite (unquote_quote_body k _ Hk).
    cbn [skip_space]. change (isSpace ":") with false. cbn iota.
    change (Ascii.eqb ":" ":") with true. cbn iota.
    rewrite (IH g ltac:(lia) v nest (String "}" rest) ltac:(lia) Hv
               (fun _ _ => eq_refl)).
    reflexivity.
  - change (join "," (map member_text ((k, v) :: m :: ms')))
      with (member_text (k, v) ++ "," ++ join "," (map member_text (m :: ms'))).
    rewrite append_assoc, member_text_app.
    change (Ascii.eqb dquote dquote) with true. cbn iota.
    rewrite (unquote_quote_body k _ Hk).
    cbn [skip_space]. change (isSpace ":") with false. cbn iota.
    change (Ascii.eqb ":" ":") with true. cbn iota.
    rewrite append_assoc. cbn [String.append].
    rewrite (IH g ltac:(lia) v nest
               (String "," (join "," (map member_text (m :: ms')) ++ String "}" rest))
               ltac:(lia) Hv (fun _ _ => eq_refl)).
    cbn [skip_space]. change (isSpace ",") with false. cbn iota.
    change (Ascii.eqb "," ",") with true. cbn iota.
    rewrite (members_head (m :: ms') _ ltac:(discriminate)).
    rewrite (IHms g nest rest ltac:(lia) ltac:(discriminate)
               ltac:(cbn [fold_right snd] in *; lia) Hms).
    reflexivity.
Qed.

End Values.

(** What JSON.stringify writes for a value, the decoder reads back as that
    value, given enough gas, and leaves the text that follows.  Only after a
    number does that text matter: it must not continue the number. *)
Lemma parse_text (gas : nat) :
  forall v nest rest,
    size v <= gas -> wire nest v = true ->
    (forall lit, v = JNum lit -> ends_value rest = true) ->
    parse_value gas nest (text_of v ++ rest) = Some (v, rest).
Proof.
  induction gas as [gas IH] using lt_wf_ind.
  intros v nest rest Hsize Hwire Hrest.
  destruct gas as [|g]; [destruct v; cbn [size] in Hsize; lia|].
  destruct v as [| |b|lit|s|es|ms]; cbn [wire] in Hwire.
  - discriminate.
  - reflexivity.
  - destruct b; reflexivity.
  - apply andb_prop in Hwire. destruct Hwire as [Hl _].
    unfold text_of. cbn [SerializeJSONProperty]. rewrite Hl.
    pose proof (number_literal_scan lit rest Hl (Hrest lit eq_refl)) as Hscan.
    destruct (number_literal_head lit Hl) as (c & t & -> & Hc).
    destruct (number_head_tests c Hc) as (H1 & H2 & H3 & H4 & _).
    cbn [String.append] in *. cbn [parse_value].
    rewrite (skip_space_head _ _ H1), H2, H3, H4, Hc, Hscan. reflexivity.
  - unfold text_of. cbn [SerializeJSONProperty]. unfold QuoteJSONString.
    cbn [String.append]. rewrite append_assoc. cbn [String.append parse_value].
    cbn [skip_space]. change (isSpace dquote) with false. cbn iota.
    change (Ascii.eqb dquote "{") with false.
    change (Ascii.eqb dquote "[") with false.
    change (Ascii.eqb dquote dquote) with true. cbn iota.
    rewrite (unquote_quote_body s rest Hwire). reflexivity.
  - apply andb_prop in Hwire. destruct Hwire as [Hn Hes].
    rewrite text_JArr. cbn [String.append parse_value].
    cbn [skip_space]. change (isSpace "[") with false. cbn iota.
    change (Ascii.eqb "[" "{") with false.
    change (Ascii.eqb "[" "[") with true. cbn iota. rewrite Hn.
    destruct es as [|e es].
    + reflexivity.
    + rewrite append_assoc. cbn [String.append].
      cbn [forallb] in Hes. apply andb_prop in Hes. destruct Hes as [He Hes].
      destruct (text_head _ _ He) as (c & t & Ht & Hc1 & Hc2).
      assert (Hhead : exists t', join "," (map text_of (e :: es)) ++ String "]" rest
                                 = String c t').
      { destruct es as [|e' es'].
        - cbn [map join]. rewrite Ht. eexists. reflexivity.
        - change (join "," (map text_of (e :: e' :: es')))
            with (text_of e ++ "," ++ join "," (map text_of (e' :: es'))).
          rewrite Ht. eexists. reflexivity. }
      destruct Hhead as (t' & Hhead).
      rewrite Hhead at 1. rewrite (skip_space_head _ _ Hc1), Hc2.
      cbn [size] in Hsize.
      rewrite (parse_elements_text (S g) IH (e :: es) g (nest + 1) rest
                 ltac:(lia) ltac:(discriminate) ltac:(lia)).
      * reflexivity.
      * cbn [forallb]. rewrite He, Hes. reflexivity.
  - apply andb_prop in Hwire. destruct Hwire as [Hn Hms].
    apply andb_prop in Hn. destruct Hn as [Hn _].
    rewrite (text_JObj _ _ Hms). cbn [String.append parse_value].
    cbn [skip_space]. change (isSpace "{") with false. cbn iota.
    change (Ascii.eqb "{" "{") with true. cbn iota. rewrite Hn.
    destruct ms as [|m ms].
    + reflexivity.
    + rewrite append_assoc. cbn [String.append].
      rewrite (members_head (m :: ms) _ ltac:(discriminate)).
      assert (Hhead : exists t', join "," (map member_text (m :: ms)) ++ String "}" rest
                                 = String dquote t').
      { destruct m as [k v]. destruct ms as [|m' ms'].
        - cbn [map join]. rewrite member_text_app. eexists. reflexivity.
        - change (join "," (map member_text ((k, v) :: m' :: ms')))
            with (member_text (k, v) ++ "," ++ join "," (map member_text (m' :: ms'))).
          rewrite append_assoc, member_text_app. eexists. reflexivity. }
      destruct Hhead as (t' & Hhead).
      rewrite Hhead at 1.
      change (Ascii.eqb dquote "}") with false. cbn iota.
      cbn [size] in Hsize.
      rewrite (parse_members_text (S g) IH (m :: ms) g (nest + 1) rest
                 ltac:(lia) ltac:(discriminate) ltac:(lia) Hms).
      reflexivity.
Qed.

(** ** Induction on values *)

Lemma json_induction (P : json -> Prop) :
  P JUndefined -> P JNull -> (forall b, P (JBool b)) ->
  (forall lit, P (JNum lit)) -> (forall s, P (JStr s)) ->
  (forall es, Forall P es -> P (JArr es)) ->
  (forall ms, Forall (fun kv => P (snd kv)) ms -> P (JObj ms)) ->
  forall v, P v.
Proof.
  intros Hu Hn Hb Hnum Hs Ha Ho.
  fix self 1. intros [| |b|lit|s|es|ms].
  - exact Hu.
  - exact Hn.
  - apply Hb.
  - apply Hnum.
  - apply Hs.
  - apply Ha. induction es as [|e es IHes]; constructor; [apply self | exact IHes].
  - apply Ho. induction ms as [|[k x] ms IHms]; constructor;
      [apply self | exact IHms].
Qed.

(** ** Enough gas *)

Lemma length_append (a b : string) :
  String.length (a ++ b) = String.length a + String.length b.
Proof. induction a as [|c a IH]; simpl; [reflexivity | rewrite IH; reflexivity]. Qed.

Lemma join_length (ts : list string) :
  fold_right (fun t n => String.length t + n) 0 ts
  <= String.length (join "," ts).
Proof.
  induction ts as [|t ts IH]; [simpl; lia|].
  destruct ts as [|t' ts'].
  - simpl. rewrite Nat.add_0_r. lia.
  - change (join "," (t :: t' :: ts')) with (t ++ "," ++ join "," (t' :: ts')).
    rewrite !length_append. cbn [fold_right] in *. lia.
Qed.

Lemma size_text (v : json) :
  forall nest, wire nest v = true -> size v + 1 <= 2 * String.length (text_of v).
Proof.
  induction v as [| |b|lit|s|es IH|ms IH] using json_induction;
    intros nest Hwire; cbn [wire] in Hwire.
  - discriminate.
  - simpl. lia.
  - destruct b; simpl; lia.
  - apply andb_prop in Hwire. destruct Hwire as [Hl _].
    unfold text_of. cbn [SerializeJSONProperty size]. rewrite Hl.
    destruct (number_literal_head lit Hl) as (c & t & -> & _). simpl. lia.
  - unfold text_of. cbn [SerializeJSONProperty size]. unfold QuoteJSONString.
    simpl. lia.
  - apply andb_prop in Hwire. destruct Hwire as [_ Hes].
    rewrite text_JArr. rewrite !length_append. cbn [size].
    pose proof (join_length (map text_of es)) as Hj.
    assert (Hsum : fold_right (fun x n => S (size x + n)) 0 es
                   <= 2 * fold_right (fun t n => String.length t + n) 0
                          (map text_of es)).
    { clear Hj. induction es as [|e es IHes]; [simpl; lia|].
      inversion IH as [|? ? He IH']; subst.
      cbn [forallb] in Hes. apply andb_prop in Hes. destruct Hes as [Hwe Hes].
      specialize (He _ Hwe). specialize (IHes IH' Hes).
      cbn [fold_right map]. lia. }
    simpl String.length. lia.
  - apply andb_prop in Hwire. destruct Hwire as [_ Hms].
    rewrite (text_JObj _ _ Hms). rewrite !length_append. cbn [size].
    pose proof (join_length (map member_text ms)) as Hj.
    assert (Hsum : fold_right (fun kv n => S (size (snd kv) + n)) 0 ms
                   <= 2 * fold_right (fun t n => String.length t + n) 0
                          (map member_text ms)).
    { clear Hj. induction ms as [|[k x] ms IHms]; [simpl; lia|].
      inversion IH as [|? ? Hx IH']; subst.
      cbn [forallb fst snd] in Hms. apply andb_prop in Hms.
      destruct Hms as [Hkx Hms]. apply andb_prop in Hkx. destruct Hkx as [_ Hwx].
      cbn [snd] in Hx. specialize (Hx _ Hwx). specialize (IHms IH' Hms).
      cbn [fold_right map snd]. unfold member_text at 1. cbn [fst snd].
      rewrite !length_append. lia. }
    simpl String.length. lia.
Qed.

(** The whole text of a wire value is read back as that value. *)
Lemma parse_stringify (v : json) :
  wire 0 v = true -> parse (text_of v) = Some v.
Proof.
  intros Hwire. unfold parse, first_value, decode_gas.
  pose proof (size_text v 0 Hwire) as Hsz.
  pose proof (parse_text (2 * String.length (text_of v) + 2) v 0 EmptyString
                ltac:(lia) Hwire (fun _ _ => eq_refl)) as H.
  rewrite append_nil in H. rewrite H. reflexivity.
Qed.

(** ** Into Go values *)

Lemma distinct_fresh (k : string) (a b : list string) :
  distinct (a ++ k :: b) = true -> existsb (String.eqb k) a = false.
Proof.
  induction a as [|x a IH]; cbn [app distinct existsb]; intros H.
  - reflexivity.
  - apply andb_prop in H. destruct H as [Hx Ha].
    rewrite (IH Ha), orb_false_r.
    rewrite existsb_app in Hx. cbn [existsb] in Hx.
    destruct (String.eqb x k) eqn:E.
    + rewrite orb_true_r in Hx. discriminate.
    + rewrite String.eqb_sym. exact E.
Qed.

Lemma obj_set_fresh (k : string) (v : json) (o : list (string * json)) :
  existsb (String.eqb k) (map fst o) = false -> obj_set k v o = (o ++ [(k, v)])%list.
Proof.
  induction o as [|[k' v'] o IH]; cbn [map fst existsb obj_set app]; intros H.
  - reflexivity.
  - apply orb_false_elim in H. destruct H as [Hk Ho].
    rewrite Hk, (IH Ho). reflexivity.
Qed.

Lemma wire_valueInterface (v : json) :
  forall nest, wire nest v = true -> valueInterface v = Some v.
Proof.
  induction v as [| |b|lit|s|es IH|ms IH] using json_induction;
    intros nest Hwire; cbn [wire] in Hwire; try reflexivity.
  - discriminate.
  - apply andb_prop in Hwire. destruct Hwire as [_ Hp].
    cbn [valueInterface]. rewrite Hp. reflexivity.
  - apply andb_prop in Hwire. destruct Hwire as [_ Hes].
    cbn [valueInterface].
    match goal with
    | |- match ?F es with _ => _ end = _ =>
        assert (HF : F es = Some es); [|rewrite HF; reflexivity]
    end.
    induction es as [|e es IHes]; [reflexivity|].
    inversion IH as [|? ? He IH']; subst.
    cbn [forallb] in Hes. apply andb_prop in Hes. destruct Hes as [Hwe Hes].
    rewrite (He _ Hwe), (IHes IH' Hes). reflexivity.
  - apply andb_prop in Hwire. destruct Hwire as [Hd Hms].
    apply andb_prop in Hd. destruct Hd as [_ Hd].
    cbn [valueInterface].
    match goal with
    | |- match ?F ms [] with _ => _ end = _ =>
        assert (HF : forall acc,
                   distinct (map fst (acc ++ ms)) = true ->
                   F ms acc = Some (acc ++ ms)%list);
          [|rewrite (HF [] Hd); reflexivity]
    end.
    clear Hd. induction ms as [|[k x] ms IHms]; intros acc Hd.
    + rewrite app_nil_r. reflexivity.
    + inversion IH as [|? ? Hx IH']; subst.
      cbn [forallb fst snd] in Hms. apply andb_prop in Hms.
      destruct Hms as [Hkx Hms]. apply andb_prop in Hkx. destruct Hkx as [_ Hwx].
      cbn [snd] in Hx. rewrite (Hx _ Hwx).
      rewrite map_app in Hd. cbn [map fst] in Hd.
      rewrite (obj_set_fresh k x acc (distinct_fresh _ _ _ Hd)).
      rewrite (IHms IH' Hms).
      * rewrite <- app_assoc. reflexivity.
      * rewrite !map_app. cbn [map fst]. rewrite <- app_assoc. exact Hd.
Qed.

End JsonFacts.

(* ================================================================== *)
(** * Properties of the Node API *)
(* ================================================================== *)

Module NodeFacts.
Import Node.

Ltac js_fields :=
  cbn [fst snd fault clock ticks objectIds made items rabbitChannel topics
       queues console listening otherUpdate with_ticks with_made with_items
       with_rabbitChannel with_topics with_queues with_console
       with_listening with_fault] in *.

Ltac js_unfold :=
  cbv [publish publishItemEvent try_catch bind ret throw
       producer_send sendToQueue call modify new_Date_toISOString
       new_ObjectId get_rabbitChannel console_log console_error
       Buffer_from member] in *;
  js_fields.

(** An object always has a JSON text. *)
Lemma stringify_object (o : list (string * json)) :
  exists text, JSON_stringify (JObj o) = Some text.
Proof. simpl. eexists. reflexivity. Qed.

Lemma event_data_object (e : DomainEvent) :
  exists o, event_data e = JObj o.
Proof. destruct e; simpl; eexists; reflexivity. Qed.

(** What [publishItemEvent] leaves behind, case by case. *)
Lemma publishItemEvent_normal (event : string) (data : json) (w : world) :
  fst (publishItemEvent event data w) = Normal tt.
Proof.
  js_unfold.
  destruct (fault w "producer.send"); simpl; [reflexivity|].
  destruct (rabbitChannel w); simpl; [|reflexivity].
  destruct (String.eqb event "item_deleted"); simpl.
  - destruct data; simpl;
      try reflexivity;
      destruct (fault w "rabbitChannel.sendToQueue"); reflexivity.
  - destruct (fault w "rabbitChannel.sendToQueue"); reflexivity.
Qed.

Lemma publishItemEvent_store (event : string) (data : json) (w : world) :
  items (snd (publishItemEvent event data w)) = items w.
Proof.
  js_unfold.
  destruct (fault w "producer.send"); simpl; [reflexivity|].
  destruct (rabbitChannel w); simpl; [|reflexivity].
  destruct (String.eqb event "item_deleted"); simpl.
  - destruct data; simpl;
      try reflexivity;
      destruct (fault w "rabbitChannel.sendToQueue"); reflexivity.
  - destruct (fault w "rabbitChannel.sendToQueue"); reflexivity.
Qed.

(** Running [publishItemEvent] before returning [a] returns [a]. *)
Lemma after_publish {A : Type} (event : string) (data : json) (a : A) (w : world) :
  fst ((publishItemEvent event data ;;; ret a) w) = Normal a
  /\ snd ((publishItemEvent event data ;;; ret a) w)
     = snd (publishItemEvent event data w).
Proof.
  unfold bind, ret.
  pose proof (publishItemEvent_normal event data w) as H.
  destruct (publishItemEvent event data w) as [[u|e] w']; simpl in *.
  - split; reflexivity.
  - discriminate.
Qed.

(** ** Computations that do not see the brokers *)

Lemma blind_ret {A : Type} (a : A) : blind (ret a).
Proof. intros f ch w. reflexivity. Qed.

Lemma blind_throw {A : Type} (e : string) : blind (@throw A e).
Proof. intros f ch w. reflexivity. Qed.

Lemma blind_bind {A B : Type} (c : JS A) (k : A -> JS B) :
  blind c -> (forall a, blind (k a)) -> blind (bind c k).
Proof.
  intros Hc Hk f ch w. unfold bind. rewrite Hc.
  destruct (c w) as [[a|e] w']; simpl; [apply Hk | reflexivity].
Qed.

Lemma blind_call (op : string) : broker_op op = false -> blind (call op).
Proof.
  intros Hop f ch w. unfold call. simpl. rewrite Hop.
  destruct (fault w op); reflexivity.
Qed.

Lemma blind_date : blind new_Date_toISOString.
Proof. intros f ch w. reflexivity. Qed.

Lemma blind_id : blind new_ObjectId.
Proof. intros f ch w. reflexivity. Qed.

Lemma blind_items (g : list (string * list (string * json)) ->
                       list (string * list (string * json))) :
  blind (modify (fun w => with_items (g (items w)) w)).
Proof. intros f ch w. reflexivity. Qed.

Lemma blind_if {A : Type} (b : bool) (c d : JS A) :
  blind c -> blind d -> blind (if b then c else d).
Proof. destruct b; trivial. Qed.

Section Store.

Variable castPath : SchemaType -> json -> option json.
Variable isValidObjectId : string -> bool.

Lemma blind_new_Item (schema : list SchemaPath) (o : list (string * json)) :
  blind (new_Item castPath schema o).
Proof.
  induction schema as [|p schema IH]; simpl.
  - apply blind_ret.
  - destruct (obj_get (path p) o).
    + destruct (castPath (type p) j).
      * apply blind_bind; [exact IH | intros; apply blind_ret].
      * apply blind_throw.
    + destruct (default_now p); [|exact IH].
      apply blind_bind; [apply blind_date | intros].
      apply blind_bind; [exact IH | intros; apply blind_ret].
Qed.

Lemma blind_document_id (body : list (string * json)) :
  blind (document_id castPath body).
Proof.
  unfold document_id. apply blind_bind; [apply blind_id | intros fresh].
  destruct (obj_get "_id" body) as [v|]; [|apply blind_ret].
  destruct (castPath SObjectId v) as [j|]; [destruct j|];
    try apply blind_throw; apply blind_ret.
Qed.

Lemma blind_insertOne (id : string) (doc : list (string * json)) :
  blind (insertOne id doc).
Proof.
  intros f ch w. unfold insertOne. simpl.
  destruct (find_item id (items w)); reflexivity.
Qed.

Lemma blind_Item_save (req_body : json) : blind (Item_save castPath req_body).
Proof.
  unfold Item_save.
  apply blind_bind; [apply blind_document_id | intros id].
  apply blind_bind; [apply blind_new_Item | intros fields].
  apply blind_if; [|apply blind_throw].
  apply blind_bind; [apply blind_call; reflexivity | intros _].
  apply blind_insertOne.
Qed.

Lemma blind_apply_defaults (schema : list SchemaPath) :
  forall doc, blind (apply_defaults schema doc).
Proof.
  induction schema as [|p schema IH]; intros doc; simpl.
  - apply blind_ret.
  - destruct (default_now p && negb (obj_has (path p) doc)); [|apply IH].
    apply blind_bind; [apply blind_date | intros; apply IH].
Qed.

Lemma blind_init (found : option (list (string * json))) : blind (init found).
Proof.
  destruct found as [doc|]; [|apply blind_ret].
  apply blind_bind; [apply blind_apply_defaults | intros; apply blind_ret].
Qed.

Lemma blind_cast_update (update : list (string * json)) :
  blind (cast_update castPath update).
Proof.
  induction update as [|[k v] update IH]; simpl.
  - apply blind_ret.
  - destruct (path_type k); [|exact IH].
    destruct (castPath s v); [|apply blind_throw].
    apply blind_bind; [exact IH | intros; apply blind_ret].
Qed.

Lemma blind_updateOne (id : string) (set : list (string * json))
  (unset : list string) :
  blind (updateOne id set unset).
Proof.
  intros f ch w. unfold updateOne. simpl.
  destruct (find_item id (items w)); reflexivity.
Qed.

Lemma blind_updateOther (id : string) (update : list (string * json)) :
  blind (updateOther id update).
Proof.
  intros f ch w. unfold updateOther. simpl.
  destruct (otherUpdate w update (find_item id (items w))) as [[doc|]|e];
    reflexivity.
Qed.

Lemma blind_findByIdAndUpdate (id : string) (update : list (string * json)) :
  blind (findByIdAndUpdate castPath isValidObjectId id update).
Proof.
  unfold findByIdAndUpdate.
  apply blind_if; [|apply blind_throw].
  destruct (unset_of update) as [unset|].
  - apply blind_bind; [apply blind_cast_update | intros set].
    apply blind_if; [|apply blind_throw].
    apply blind_bind; [apply blind_call; reflexivity | intros _].
    apply blind_bind; [apply blind_updateOne | intros; apply blind_init].
  - apply blind_bind; [apply blind_updateOther | intros; apply blind_init].
Qed.

Lemma blind_deleteOne (id : string) : blind (deleteOne id).
Proof.
  intros f ch w. unfold deleteOne. simpl.
  destruct (find_item id (items w)); reflexivity.
Qed.

Lemma blind_findByIdAndDelete (id : string) :
  blind (findByIdAndDelete isValidObjectId id).
Proof.
  unfold findByIdAndDelete.
  apply blind_if; [|apply blind_throw].
  apply blind_bind; [apply blind_call; reflexivity | intros _].
  apply blind_bind; [apply blind_deleteOne | intros; apply blind_init].
Qed.

End Store.

(** ** Computations that publish nothing *)

Lemma silent_ret {A : Type} (a : A) : silent (ret a).
Proof. intros w. split; reflexivity. Qed.

Lemma silent_throw {A : Type} (e : string) : silent (@throw A e).
Proof. intros w. split; reflexivity. Qed.

Lemma silent_bind {A B : Type} (c : JS A) (k : A -> JS B) :
  silent c -> (forall a, silent (k a)) -> silent (bind c k).
Proof.
  intros Hc Hk w. unfold bind.
  destruct (Hc w) as [Ht Hq].
  destruct (c w) as [[a|e] w']; simpl in *.
  - destruct (Hk a w') as [Ht' Hq']. split; congruence.
  - split; assumption.
Qed.

Lemma silent_call (op : string) : silent (call op).
Proof. intros w. unfold call. destruct (fault w op); split; reflexivity. Qed.

Lemma silent_date : silent new_Date_toISOString.
Proof. intros w. split; reflexivity. Qed.

Lemma silent_id : silent new_ObjectId.
Proof. intros w. split; reflexivity. Qed.

Lemma silent_if {A : Type} (b : bool) (c d : JS A) :
  silent c -> silent d -> silent (if b then c else d).
Proof. destruct b; trivial. Qed.

Section StoreSilent.

Variable castPath : SchemaType -> json -> option json.
Variable isValidObjectId : string -> bool.

Lemma silent_new_Item (schema : list SchemaPath) (o : list (string * json)) :
  silent (new_Item castPath schema o).
Proof.
  induction schema as [|p schema IH]; simpl.
  - apply silent_ret.
  - destruct (obj_get (path p) o).
    + destruct (castPath (type p) j).
      * apply silent_bind; [exact IH | intros; apply silent_ret].
      * apply silent_throw.
    + destruct (default_now p); [|exact IH].
      apply silent_bind; [apply silent_date | intros].
      apply silent_bind; [exact IH | intros; apply silent_ret].
Qed.

Lemma silent_document_id (body : list (string * json)) :
  silent (document_id castPath body).
Proof.
  unfold document_id. apply silent_bind; [apply silent_id | intros fresh].
  destruct (obj_get "_id" body) as [v|]; [|apply silent_ret].
  destruct (castPath SObjectId v) as [j|]; [destruct j|];
    try apply silent_throw; apply silent_ret.
Qed.

Lemma silent_insertOne (id : string) (doc : list (string * json)) :
  silent (insertOne id doc).
Proof.
  intros w. unfold insertOne.
  destruct (find_item id (items w)); split; reflexivity.
Qed.

Lemma silent_Item_save (req_body : json) : silent (Item_save castPath req_body).
Proof.
  unfold Item_save.
  apply silent_bind; [apply silent_document_id | intros id].
  apply silent_bind; [apply silent_new_Item | intros fields].
  apply silent_if; [|apply silent_throw].
  apply silent_bind; [apply silent_call | intros _].
  apply silent_insertOne.
Qed.

Lemma silent_apply_defaults (schema : list SchemaPath) :
  forall doc, silent (apply_defaults schema doc).
Proof.
  induction schema as [|p schema IH]; intros doc; simpl.
  - apply silent_ret.
  - destruct (default_now p && negb (obj_has (path p) doc)); [|apply IH].
    apply silent_bind; [apply silent_date | intros; apply IH].
Qed.

Lemma silent_init (found : option (list (string * json))) : silent (init found).
Proof.
  destruct found as [doc|]; [|apply silent_ret].
  apply silent_bind; [apply silent_apply_defaults | intros; apply silent_ret].
Qed.

Lemma silent_cast_update (update : list (string * json)) :
  silent (cast_update castPath update).
Proof.
  induction update as [|[k v] update IH]; simpl.
  - apply silent_ret.
  - destruct (path_type k); [|exact IH].
    destruct (castPath s v); [|apply silent_throw].
    apply silent_bind; [exact IH | intros; apply silent_ret].
Qed.

Lemma silent_updateOne (id : string) (set : list (string * json))
  (unset : list string) :
  silent (updateOne id set unset).
Proof.
  intros w. unfold updateOne.
  destruct (find_item id (items w)); split; reflexivity.
Qed.

Lemma silent_updateOther (id : string) (update : list (string * json)) :
  silent (updateOther id update).
Proof.
  intros w. unfold updateOther.
  destruct (otherUpdate w update (find_item id (items w))) as [[doc|]|e];
    split; reflexivity.
Qed.

Lemma silent_findByIdAndUpdate (id : string) (update : list (string * json)) :
  silent (findByIdAndUpdate castPath isValidObjectId id update).
Proof.
  unfold findByIdAndUpdate.
  apply silent_if; [|apply silent_throw].
  destruct (unset_of update) as [unset|].
  - apply silent_bind; [apply silent_cast_update | intros set].
    apply silent_if; [|apply silent_throw].
    apply silent_bind; [apply silent_call | intros _].
    apply silent_bind; [apply silent_updateOne | intros; apply silent_init].
  - apply silent_bind; [apply silent_updateOther | intros; apply silent_init].
Qed.

Lemma silent_put_mutation (id : string) (req_body : json) :
  silent (put_mutation castPath isValidObjectId id req_body).
Proof.
  unfold put_mutation.
  apply silent_bind; [apply silent_date | intros now].
  apply silent_findByIdAndUpdate.
Qed.

Lemma blind_put_mutation (id : string) (req_body : json) :
  blind (put_mutation castPath isValidObjectId id req_body).
Proof.
  unfold put_mutation.
  apply blind_bind; [apply blind_date | intros now].
  apply blind_findByIdAndUpdate.
Qed.

Lemma silent_deleteOne (id : string) : silent (deleteOne id).
Proof.
  intros w. unfold deleteOne.
  destruct (find_item id (items w)); split; reflexivity.
Qed.

Lemma silent_findByIdAndDelete (id : string) :
  silent (findByIdAndDelete isValidObjectId id).
Proof.
  unfold findByIdAndDelete.
  apply silent_if; [|apply silent_throw].
  apply silent_bind; [apply silent_call | intros _].
  apply silent_bind; [apply silent_deleteOne | intros; apply silent_init].
Qed.

(** The PUT handler is its record-store call followed by the rest. *)
Lemma put_items_mutation (id : string) (req_body : json) (w : world) :
  put_items castPath isValidObjectId id req_body w
  = try_catch
      (updatedItem <- put_mutation castPath isValidObjectId id req_body ;;
       match updatedItem with
       | None => ret (failure 404 "Item not found")
       | Some doc =>
           publishItemEvent "item_updated" (JObj doc) ;;;
           ret {| status := 200;
                  body := obj_literal [("success", JBool true);
                                       ("data", JObj doc)] |}
       end)
      (fun error => ret (failure 400 error)) w.
Proof. reflexivity. Qed.

End StoreSilent.

(** ** The effect of publishing an event *)

Lemma QueueAction_text (e : DomainEvent) (w : world) :
  exists text,
    JSON_stringify (JObj (QueueAction e (clock w (S (ticks w))))) = Some text.
Proof. apply stringify_object. Qed.

(** The messages of the two brokers after [publish e]: the log stream gets
    the event unless producer.send fails; the queue gets the QueueAction when
    that went well, the channel is there and sendToQueue does not fail. *)
Lemma publish_effect (e : DomainEvent) (w : world) (text : string) :
  JSON_stringify (JObj (QueueAction e (clock w (S (ticks w))))) = Some text ->
  topics (snd (publish e w))
  = match fault w "producer.send" with
    | Some _ => topics w
    | None =>
        (topics w ++ [("item-events",
                       kafkaValue (event_name e) (event_data e)
                         (clock w (ticks w)))])%list
    end
  /\ queues (snd (publish e w))
     = match fault w "producer.send", rabbitChannel w,
             fault w "rabbitChannel.sendToQueue" with
       | None, true, None => (queues w ++ [("items_queue", text)])%list
       | _, _, _ => queues w
       end.
Proof.
  intros Htext. unfold QueueAction in Htext.
  assert (Hid : forall ev item ts,
             String.eqb ev "item_deleted" = false ->
             rabbitMessage ev (JObj item) JUndefined ts
             = rabbitMessage ev (JObj item) (get_prop (JObj item) "id") ts).
  { intros ev item ts Hev. unfold rabbitMessage. rewrite Hev. reflexivity. }
  js_unfold.
  destruct (fault w "producer.send"); js_fields; [split; reflexivity|].
  destruct (rabbitChannel w); js_fields; [|split; reflexivity].
  destruct e as [item|item|id]; cbn [event_name event_data] in *.
  - change (String.eqb "item_created" "item_deleted") with false.
    js_fields. rewrite Hid by reflexivity. rewrite Htext. js_fields.
    destruct (fault w "rabbitChannel.sendToQueue"); split; reflexivity.
  - change (String.eqb "item_updated" "item_deleted") with false.
    js_fields. rewrite Hid by reflexivity. rewrite Htext. js_fields.
    destruct (fault w "rabbitChannel.sendToQueue"); split; reflexivity.
  - change (String.eqb "item_deleted" "item_deleted") with true.
    js_fields. rewrite Htext. js_fields.
    destruct (fault w "rabbitChannel.sendToQueue"); split; reflexivity.
Qed.

(** ** The publisher *)

(** C1, as the code has it.  [publish] makes its two emissions one after the
    other inside one try block.  When the queue emission fails (or there is
    no channel), the event is on the log stream and stays there.  When the
    log emission fails, the queue emission is not attempted: both brokers are
    left as they were.  In every case [publish] ends normally. *)
Theorem emissions_in_sequence (e : DomainEvent) (w : world) :
  fst (publish e w) = Normal tt
  /\ (forall err, fault w "producer.send" = Some err ->
        topics (snd (publish e w)) = topics w
        /\ queues (snd (publish e w)) = queues w)
  /\ (fault w "producer.send" = None ->
        topics (snd (publish e w))
        = (topics w ++ [("item-events",
                         kafkaValue (event_name e) (event_data e)
                           (clock w (ticks w)))])%list
        /\ (rabbitChannel w = false -> queues (snd (publish e w)) = queues w)
        /\ (forall err, fault w "rabbitChannel.sendToQueue" = Some err ->
              queues (snd (publish e w)) = queues w)
        /\ (rabbitChannel w = true ->
            fault w "rabbitChannel.sendToQueue" = None ->
            exists text,
              JSON_stringify (JObj (QueueAction e (clock w (S (ticks w)))))
              = Some text
              /\ queues (snd (publish e w))
                 = (queues w ++ [("items_queue", text)])%list)).
Proof.
  destruct (QueueAction_text e w) as [text Htext].
  destruct (publish_effect e w text Htext) as [Ht Hq].
  split; [exact (publishItemEvent_normal (event_name e) (event_data e) w)|].
  split.
  - intros err Herr. rewrite Herr in Ht, Hq. split; assumption.
  - intros Hlog. rewrite Hlog in Ht, Hq. split; [exact Ht|].
    split; [|split].
    + intros Hch. rewrite Hch in Hq. exact Hq.
    + intros err Herr. rewrite Herr in Hq. destruct (rabbitChannel w); exact Hq.
    + intros Hch Hsend. rewrite Hch, Hsend in Hq. exists text. split; assumption.
Qed.

Lemma emissions_in_sequence_witness :
  let w := failing "rabbitChannel.sendToQueue" "channel closed" quiet in
  topics (snd (publish (created widget) w))
  = [("item-events",
      kafkaValue "item_created" (JObj widget) "2024-01-01T00:00:00.000Z")]
  /\ queues (snd (publish (created widget) w)) = [].
Proof.
  intros w.
  destruct (emissions_in_sequence (created widget) w) as (_ & _ & H).
  destruct (H eq_refl) as (Ht & _ & Hq & _).
  split; [exact Ht | exact (Hq "channel closed" eq_refl)].
Defined.

(** C1, as the spec has it, fails: with the log broker down and the queue
    broker up, the event reaches neither the log stream nor the queue. *)
Lemma queue_emission_skipped :
  let w := failing "producer.send" "broker down" quiet in
  fault w "producer.send" = Some "broker down"
  /\ rabbitChannel w = true
  /\ fault w "rabbitChannel.sendToQueue" = None
  /\ queues (snd (publish (created widget) w)) = []
  /\ console (snd (publish (created widget) w))
     = ["Error publishing item_created event: broker down"].
Proof. vm_compute. repeat split. Qed.

(** C3.  What [publish] puts on items_queue.  The queue gets one text, when
    the log emission went well, there is a channel and sendToQueue does not
    fail, and nothing otherwise.  The text is the JSON text of an object
    with three members: for a created or updated event action (the kind),
    item (the record) and timestamp, and no itemId; for a deleted event
    action, itemId (the id) and timestamp, and no item.  When the payload
    and the time stamp cross the wire unchanged, these are the members the
    text is read back with. *)
Theorem queue_action_shape (e : DomainEvent) (w : world) :
  let timestamp := clock w (S (ticks w)) in
  let members :=
    match e with
    | created item =>
        [("action", JStr "created"); ("item", JObj item);
         ("timestamp", JStr timestamp)]
    | updated item =>
        [("action", JStr "updated"); ("item", JObj item);
         ("timestamp", JStr timestamp)]
    | deleted id =>
        [("action", JStr "deleted"); ("itemId", JStr id);
         ("timestamp", JStr timestamp)]
    end in
  exists text,
    JSON_stringify (JObj members) = Some text
    /\ queues (snd (publish e w))
       = match fault w "producer.send", rabbitChannel w,
               fault w "rabbitChannel.sendToQueue" with
         | None, true, None => (queues w ++ [("items_queue", text)])%list
         | _, _, _ => queues w
         end
    /\ (valid_event e timestamp = true -> parse text = Some (JObj members)).
Proof.
  intros timestamp members.
  destruct (QueueAction_text e w) as [text Htext].
  destruct (publish_effect e w text Htext) as [_ Hq].
  assert (Hmembers : JObj (QueueAction e timestamp) = JObj members)
    by (destruct e; reflexivity).
  fold timestamp in Htext. rewrite Hmembers in Htext.
  exists text. split; [exact Htext|]. split; [exact Hq|].
  unfold valid_event. intros Hvalid.
  apply andb_prop in Hvalid. destruct Hvalid as [Hd Ht].
  assert (Hwire : wire 0 (JObj members) = true).
  { subst members. destruct e as [item|item|id]; cbn [event_data] in Hd.
    - cbn [wire forallb fst snd map] in *. change (0 + 1)%N with 1%N.
      rewrite Hd, Ht. reflexivity.
    - cbn [wire forallb fst snd map] in *. change (0 + 1)%N with 1%N.
      rewrite Hd, Ht. reflexivity.
    - change (obj_literal [("id", JStr id)]) with [("id", JStr id)] in Hd.
      cbn [wire forallb fst snd map] in *.
      destruct (utf8 id).
      + rewrite Ht. reflexivity.
      + rewrite !andb_false_r in Hd. cbn in Hd.
        rewrite ?andb_false_r in Hd. discriminate Hd. }
  unfold JSON_stringify in Htext.
  rewrite (JsonFacts.serialize_text (JObj members)) in Htext by discriminate.
  inversion Htext; subst text.
  exact (JsonFacts.parse_stringify (JObj members) Hwire).
Qed.

Lemma queue_action_shape_witness :
  exists text,
    queues (snd (publish (deleted "65a000000000000000000001") quiet))
    = [("items_queue", text)]
    /\ parse text
       = Some (JObj [("action", JStr "deleted");
                     ("itemId", JStr "65a000000000000000000001");
                     ("timestamp", JStr "2024-01-01T00:00:00.000Z")]).
Proof.
  destruct (queue_action_shape (deleted "65a000000000000000000001") quiet)
    as (text & _ & Hq & Hparse).
  exists text. split; [exact Hq | exact (Hparse eq_refl)].
Defined.

(** ** The handlers *)

Section Handlers.

Variable castPath : SchemaType -> json -> option json.
Variable isValidObjectId : string -> bool.

(** What follows the record-store call in a handler gives the same response
    and leaves the same records, whatever the brokers do. *)
Lemma rest_blind (event : string) (data : json) (r : response)
  (f : string -> option string) (channel : bool) (w : world) :
  fst ((publishItemEvent event data ;;; ret r) (with_brokers f channel w))
  = fst ((publishItemEvent event data ;;; ret r) w)
  /\ items (snd ((publishItemEvent event data ;;; ret r) (with_brokers f channel w)))
     = items (snd ((publishItemEvent event data ;;; ret r) w)).
Proof.
  destruct (after_publish event data r w) as [H1 H2].
  destruct (after_publish event data r (with_brokers f channel w)) as [H3 H4].
  rewrite H1, H2, H3, H4, !publishItemEvent_store. split; reflexivity.
Qed.

Lemma handler_blind {A : Type} (mutation : JS A) (rest : A -> JS response)
  (k : string -> response) :
  blind mutation ->
  (forall a f channel w,
      fst (rest a (with_brokers f channel w)) = fst (rest a w)
      /\ items (snd (rest a (with_brokers f channel w))) = items (snd (rest a w))) ->
  forall f channel w,
    fst (try_catch (bind mutation rest) (fun e => ret (k e)) (with_brokers f channel w))
    = fst (try_catch (bind mutation rest) (fun e => ret (k e)) w)
    /\ items (snd (try_catch (bind mutation rest) (fun e => ret (k e))
                     (with_brokers f channel w)))
       = items (snd (try_catch (bind mutation rest) (fun e => ret (k e)) w)).
Proof.
  intros Hm Hrest f ch w. unfold try_catch, bind. rewrite Hm.
  destruct (mutation w) as [[a|e] w1]; cbn [fst snd].
  - destruct (Hrest a f ch w1) as [H1 H2].
    destruct (rest a (with_brokers f ch w1)) as [[r|e] w2];
      destruct (rest a w1) as [[r'|e'] w2']; cbn [fst snd] in *;
      try discriminate; inversion H1; subst; split; auto.
  - split; reflexivity.
Qed.

(** C2.  [publishItemEvent] never throws, and the response of a mutating
    request, like the records it leaves, is the same whatever the brokers
    do: whether producer.send or sendToQueue fail, and whether there is a
    channel. *)
Theorem emission_errors_stay_inside (req : Request)
  (f : string -> option string) (channel : bool) (w : world) :
  (forall event data, fst (publishItemEvent event data w) = Normal tt)
  /\ fst (Node.handle castPath isValidObjectId req (with_brokers f channel w)) = fst (Node.handle castPath isValidObjectId req w)
  /\ items (snd (Node.handle castPath isValidObjectId req (with_brokers f channel w)))
     = items (snd (Node.handle castPath isValidObjectId req w)).
Proof.
  split; [intros; apply publishItemEvent_normal|].
  destruct req as [req_body|id req_body|id]; unfold Node.handle.
  - apply handler_blind; [apply blind_Item_save|].
    intros a f' ch' w'. apply rest_blind.
  - rewrite !put_items_mutation.
    apply handler_blind; [apply blind_put_mutation|].
    intros [doc|] f' ch' w'; [apply rest_blind | split; reflexivity].
  - apply handler_blind; [apply blind_findByIdAndDelete|].
    intros [doc|] f' ch' w'; [apply rest_blind | split; reflexivity].
Qed.

(** C8.  When the record-store call of a mutating request fails, by
    throwing or by finding no document, the response is a 4xx or 5xx and
    neither broker has received anything. *)
Theorem failed_mutation_publishes_nothing (req : Request) (w : world) :
  mutation_failed castPath isValidObjectId req w = true ->
  exists r,
    fst (Node.handle castPath isValidObjectId req w) = Normal r
    /\ (400 <= status r)%N
    /\ obj_get "success" (body r) = Some (JBool false)
    /\ topics (snd (Node.handle castPath isValidObjectId req w)) = topics w
    /\ queues (snd (Node.handle castPath isValidObjectId req w)) = queues w.
Proof.
  destruct req as [req_body|id req_body|id]; unfold Node.handle;
    cbn [mutation_failed]; intros Hfail.
  - pose proof (silent_Item_save castPath req_body w) as Hs.
    unfold post_items, try_catch, bind.
    destruct (Item_save castPath req_body w) as [[saved|e] w1];
      cbn [fst snd] in *; [discriminate|].
    exists (failure 400 e). repeat split; try apply Hs. discriminate.
  - pose proof (silent_put_mutation castPath isValidObjectId id req_body w) as Hs.
    rewrite put_items_mutation. unfold try_catch, bind.
    destruct (put_mutation castPath isValidObjectId id req_body w)
      as [[[doc|]|e] w1]; cbn [fst snd no_record] in *; [discriminate| |].
    + exists (failure 404 "Item not found").
      repeat split; try apply Hs. discriminate.
    + exists (failure 400 e). repeat split; try apply Hs. discriminate.
  - pose proof (silent_findByIdAndDelete isValidObjectId id w) as Hs.
    unfold delete_items, try_catch, bind.
    destruct (findByIdAndDelete isValidObjectId id w)
      as [[[doc|]|e] w1]; cbn [fst snd no_record] in *; [discriminate| |].
    + exists (failure 404 "Item not found").
      repeat split; try apply Hs. discriminate.
    + exists (failure 500 e). repeat split; try apply Hs. discriminate.
Qed.

End Handlers.

Lemma failed_mutation_publishes_nothing_witness :
  exists r,
    fst (Node.handle (fun _ v => Some v) (fun _ => true)
           (POST (JObj [("price", JNum "9.99")])) quiet) = Normal r
    /\ (400 <= status r)%N
    /\ obj_get "success" (body r) = Some (JBool false)
    /\ topics (snd (Node.handle (fun _ v => Some v) (fun _ => true)
                      (POST (JObj [("price", JNum "9.99")])) quiet)) = topics quiet
    /\ queues (snd (Node.handle (fun _ v => Some v) (fun _ => true)
                      (POST (JObj [("price", JNum "9.99")])) quiet)) = queues quiet.
Proof.
  apply (failed_mutation_publishes_nothing (fun _ v => Some v) (fun _ => true)
           (POST (JObj [("price", JNum "9.99")])) quiet).
  reflexivity.
Defined.




(** ** Start-up *)

(** Whatever fails while the drivers connect, [listen] ends normally with
    the server listening. *)
Lemma listen_serves (PORT : string) (w : world) :
  fst (listen PORT w) = Normal tt /\ listening (snd (listen PORT w)) = true.
Proof.
  unfold listen, initializeServices, connectRabbitMQ. js_unfold.
  repeat
    match goal with
    | |- context [fault w ?op] => destruct (fault w op); js_fields
    end;
    split; reflexivity.
Qed.

(** ** Objects as maps *)

Lemma obj_get_set (k k' : string) (v : json) (o : list (string * json)) :
  obj_get k (obj_set k' v o)
  = if String.eqb k k' then Some v else obj_get k o.
Proof.
  induction o as [|[k1 v1] o IH]; simpl.
  - destruct (String.eqb k k'); reflexivity.
  - destruct (String.eqb k' k1) eqn:E1; simpl.
    + apply String.eqb_eq in E1. subst k1.
      destruct (String.eqb k k'); reflexivity.
    + destruct (String.eqb k k1) eqn:E2.
      * apply String.eqb_eq in E2. subst k1.
        rewrite String.eqb_sym, E1. reflexivity.
      * exact IH.
Qed.

Lemma obj_get_assign (k : string) (src target : list (string * json)) :
  obj_get k (obj_assign target src)
  = match obj_last k src with
    | Some v => Some v
    | None => obj_get k target
    end.
Proof.
  unfold obj_assign. revert target.
  induction src as [|[k1 v1] src IH]; intros target; simpl.
  - reflexivity.
  - rewrite IH. destruct (obj_last k src); [reflexivity|].
    rewrite obj_get_set. destruct (String.eqb k k1); reflexivity.
Qed.

Lemma obj_literal_snoc (l : list (string * json)) (k : string) (v : json) :
  obj_literal (l ++ [(k, v)]) = obj_set k v (obj_literal l).
Proof. unfold obj_literal, obj_assign. rewrite fold_left_app. reflexivity. Qed.

Lemma keys_obj_set (k : string) (v : json) (o : list (string * json)) :
  map fst (obj_set k v o)
  = if obj_has k o then map fst o else (map fst o ++ [k])%list.
Proof.
  unfold obj_has. induction o as [|[k1 v1] o IH]; simpl.
  - reflexivity.
  - destruct (String.eqb k k1) eqn:E; simpl.
    + apply String.eqb_eq in E. subst. reflexivity.
    + rewrite IH. destruct (obj_get k o); reflexivity.
Qed.

Lemma obj_get_absent (k : string) (o : list (string * json)) :
  ~ In k (map fst o) -> obj_get k o = None.
Proof.
  induction o as [|[k1 v1] o IH]; simpl; intros H.
  - reflexivity.
  - destruct (String.eqb k k1) eqn:E.
    + apply String.eqb_eq in E. subst. exfalso. apply H. left. reflexivity.
    + apply IH. intros Hin. apply H. right. exact Hin.
Qed.

Lemma obj_get_present (k : string) (o : list (string * json)) :
  obj_get k o = None -> ~ In k (map fst o).
Proof.
  induction o as [|[k1 v1] o IH]; simpl; intros H.
  - intros [].
  - destruct (String.eqb k k1) eqn:E; [discriminate|].
    intros [Heq|Hin].
    + subst. rewrite String.eqb_refl in E. discriminate.
    + exact (IH H Hin).
Qed.

Lemma unique_obj_set (k : string) (v : json) (o : list (string * json)) :
  NoDup (map fst o) -> NoDup (map fst (obj_set k v o)).
Proof.
  intros Hu. rewrite keys_obj_set. unfold obj_has.
  destruct (obj_get k o) eqn:E; [exact Hu|].
  apply NoDup_app; [exact Hu | repeat constructor; intros [] |].
  intros x Hx [Hk|[]]. subst x.
  exact (obj_get_present _ _ E Hx).
Qed.

Lemma unique_obj_assign (src target : list (string * json)) :
  NoDup (map fst target) -> NoDup (map fst (obj_assign target src)).
Proof.
  unfold obj_assign. revert target.
  induction src as [|[k v] src IH]; intros target Hu; simpl.
  - exact Hu.
  - apply IH. apply unique_obj_set. exact Hu.
Qed.

Lemma unique_obj_literal (l : list (string * json)) :
  NoDup (map fst (obj_literal l)).
Proof. apply unique_obj_assign. constructor. Qed.

Lemma obj_last_unique (k : string) (o : list (string * json)) :
  NoDup (map fst o) -> obj_last k o = obj_get k o.
Proof.
  induction o as [|[k1 v1] o IH]; simpl; intros Hu.
  - reflexivity.
  - inversion Hu as [|x l Hnotin Hu']; subst.
    rewrite (IH Hu').
    destruct (String.eqb k k1) eqn:E.
    + apply String.eqb_eq in E. subst.
      rewrite (obj_get_absent _ _ Hnotin). reflexivity.
    + destruct (obj_get k o); reflexivity.
Qed.

(** ** Updates *)

Lemma find_replace_item (id : string) (d d0 : list (string * json))
  (l : list (string * list (string * json))) :
  find_item id l = Some d0 -> find_item id (replace_item id d l) = Some d.
Proof.
  unfold find_item.
  induction l as [|[k d1] l IH]; simpl; [discriminate|].
  destruct (String.eqb k id) eqn:E; simpl; rewrite E; [reflexivity|].
  exact IH.
Qed.

Section Update.

Variable castPath : SchemaType -> json -> option json.
Variable isValidObjectId : string -> bool.

(** A cast update that succeeds changes nothing in the world, and sets
    exactly the schema paths the update names, to their cast values. *)
Lemma cast_update_normal (update set : list (string * json)) (w w' : world) :
  cast_update castPath update w = (Normal set, w') ->
  w' = w
  /\ (forall k v ty,
        obj_last k update = Some v -> path_type k = Some ty ->
        exists v', castPath ty v = Some v' /\ obj_last k set = Some v')
  /\ (forall k, obj_last k update = None -> obj_last k set = None)
  /\ (forall k, path_type k = None -> obj_last k set = None).
Proof.
  revert set.
  induction update as [|[k1 v1] update IH]; intros set; simpl.
  - unfold ret. intros H. inversion H; subst. repeat split; try discriminate.
  - destruct (path_type k1) as [ty1|] eqn:Ety.
    + destruct (castPath ty1 v1) as [v1'|] eqn:Ecast; [|discriminate].
      unfold bind, ret.
      destruct (cast_update castPath update w) as [[set'|e] w1] eqn:Erec;
        [|discriminate].
      intros H. inversion H; subst. clear H.
      destruct (IH set' eq_refl) as (Hw & Hset & Hnone & Hdrop).
      split; [exact Hw|]. split; [|split].
      * intros k v ty Hlast Hty. simpl.
        destruct (obj_last k update) as [x|] eqn:El.
        -- inversion Hlast; subst.
           destruct (Hset k v ty El Hty) as (v' & Hc & Hl).
           exists v'. rewrite Hl. split; [exact Hc | reflexivity].
        -- rewrite (Hnone k El).
           destruct (String.eqb k k1) eqn:E; [|discriminate].
           apply String.eqb_eq in E. subst k1.
           inversion Hlast; subst.
           rewrite Ety in Hty. inversion Hty; subst.
           exists v1'. split; [exact Ecast | reflexivity].
      * intros k Hlast. simpl.
        destruct (obj_last k update) as [x|] eqn:El; [discriminate|].
        rewrite (Hnone k El).
        destruct (String.eqb k k1); [discriminate | reflexivity].
      * intros k Hty. simpl. rewrite (Hdrop k Hty).
        destruct (String.eqb k k1) eqn:E; [|reflexivity].
        apply String.eqb_eq in E. subst k1. congruence.
    + intros H. destruct (IH set H) as (Hw & Hset & Hnone & Hdrop).
      split; [exact Hw|]. split; [|split].
      * intros k v ty Hlast Hty.
        destruct (obj_last k update) as [x|] eqn:El.
        -- inversion Hlast; subst. exact (Hset k v ty El Hty).
        -- destruct (String.eqb k k1) eqn:E; [|discriminate].
           apply String.eqb_eq in E. subst k1. congruence.
      * intros k Hlast.
        destruct (obj_last k update) as [x|] eqn:El; [discriminate|].
        exact (Hnone k El).
      * exact Hdrop.
Qed.

(** What a PUT of plain fields that finds its document does to it, and what
    it returns: the stored document, with a default for a path it lacks. *)
Lemma bind_date {A : Type} (k : string -> JS A) (w : world) :
  bind new_Date_toISOString k w
  = k (clock w (ticks w)) (with_ticks (S (ticks w)) w).
Proof. reflexivity. Qed.

Lemma obj_get_app (k : string) (a b : list (string * json)) :
  obj_has k a = true -> obj_get k (a ++ b) = obj_get k a.
Proof.
  unfold obj_has. induction a as [|[k1 v1] a IH]; simpl; [discriminate|].
  destruct (String.eqb k k1); [reflexivity | exact IH].
Qed.

Lemma apply_defaults_normal (schema : list SchemaPath) :
  forall doc w,
    exists extra,
      fst (apply_defaults schema doc w) = Normal (doc ++ extra)%list
      /\ items (snd (apply_defaults schema doc w)) = items w.
Proof.
  induction schema as [|p schema IH]; intros doc w; simpl.
  - exists []. rewrite app_nil_r. split; reflexivity.
  - destruct (default_now p && negb (obj_has (path p) doc)); [|apply IH].
    rewrite bind_date.
    destruct (IH (doc ++ [(path p, JStr (clock w (ticks w)))])%list
                (with_ticks (S (ticks w)) w)) as (extra & H1 & H2).
    exists ((path p, JStr (clock w (ticks w))) :: extra).
    rewrite <- app_assoc in H1. split; assumption.
Qed.

Lemma remove_fields_nil (doc : list (string * json)) :
  remove_fields [] doc = doc.
Proof.
  unfold remove_fields. induction doc as [|kv doc IH]; simpl;
    [reflexivity | f_equal; exact IH].
Qed.

Lemma plain_update (req_body : json) (now : string) :
  plain_fields (request_fields req_body) = true ->
  unset_of (obj_literal (own_props req_body ++ [("updatedAt", JStr now)]))
  = Some [].
Proof.
  intros H. rewrite obj_literal_snoc. fold (request_fields req_body).
  unfold unset_of.
  assert (E : filter (fun kv => negb (plain_field kv))
                (obj_set "updatedAt" (JStr now) (request_fields req_body))
              = []); [|rewrite E; reflexivity].
  unfold plain_fields in H.
  induction (request_fields req_body) as [|[k v] o IH]; [reflexivity|].
  cbn [forallb] in H. apply andb_prop in H. destruct H as [Hk Ho].
  cbn [obj_set]. destruct (String.eqb "updatedAt" k).
  - cbn [filter].
    change (plain_field ("updatedAt", JStr now)) with true. cbn [negb].
    clear IH. induction o as [|[k' v'] o IH]; [reflexivity|].
    cbn [forallb] in Ho. apply andb_prop in Ho. destruct Ho as [Hk' Ho].
    cbn [filter]. rewrite Hk'. exact (IH Ho).
  - cbn [filter]. rewrite Hk. exact (IH Ho).
Qed.

Lemma findByIdAndUpdate_found (id : string)
  (update returned : list (string * json)) (w w' : world) :
  unset_of update = Some [] ->
  findByIdAndUpdate castPath isValidObjectId id update w
  = (Normal (Some returned), w') ->
  exists set doc0 doc',
    cast_update castPath update w = (Normal set, w)
    /\ find_item id (items w) = Some doc0
    /\ doc' = obj_assign doc0 set
    /\ items w' = replace_item id doc' (items w)
    /\ (forall k, obj_has k doc' = true -> obj_get k returned = obj_get k doc').
Proof.
  intros Hplain. unfold findByIdAndUpdate. rewrite Hplain.
  destruct (isValidObjectId id); [|discriminate].
  unfold bind at 1.
  destruct (cast_update castPath update w) as [[set|e] w1] eqn:Ecast;
    [|discriminate].
  destruct (cast_update_normal _ _ _ _ Ecast) as (Hw & _). subst w1.
  destruct (validate_update itemSchema set); [|discriminate].
  unfold bind at 1. unfold call.
  destruct (fault w "Item.findByIdAndUpdate"); [discriminate|].
  unfold bind at 1. unfold updateOne.
  destruct (find_item id (items w)) as [doc0|] eqn:Efind; [|discriminate].
  rewrite remove_fields_nil.
  set (doc' := obj_assign doc0 set).
  set (w1 := with_items (replace_item id doc' (items w)) w).
  cbn [init]. unfold bind at 1.
  destruct (apply_defaults_normal itemSchema doc' w1) as (extra & H1 & H2).
  destruct (apply_defaults itemSchema doc' w1) as [[d|e] w2];
    cbn [fst snd] in *; [|discriminate].
  unfold ret. intros H. inversion H; subst. inversion H1; subst.
  exists set, doc0, doc'. split; [reflexivity|]. split; [reflexivity|].
  split; [reflexivity|]. split; [exact H2|].
  intros k Hk. apply obj_get_app. exact Hk.
Qed.

(** C10, as the code has it.  A PUT with a body of plain fields (no key is
    an update operator, a dotted path or _id, and no object stands under a
    name the schema does not have) that answers 200 found its document.  In the stored document updatedAt is the time of the update
    (as the Date type casts it); every path of the schema the body supplies
    has the cast of the supplied value; what the body supplies under a name
    the schema does not have changes nothing; and every field the body does
    not supply, createdAt included, has the value it had.  The data of the
    response has every field of the stored document. *)
Theorem put_sets_the_supplied_fields (id : string) (req_body : json)
  (w : world) (r : response) :
  plain_fields (request_fields req_body) = true ->
  fst (put_items castPath isValidObjectId id req_body w) = Normal r ->
  status r = 200%N ->
  exists doc0 doc' data,
    find_item id (items w) = Some doc0
    /\ find_item id (items (snd (put_items castPath isValidObjectId id req_body w)))
       = Some doc'
    /\ body r = obj_literal [("success", JBool true); ("data", JObj data)]
    /\ (forall k, obj_has k doc' = true -> obj_get k data = obj_get k doc')
    /\ (exists t,
          castPath SDate (JStr (clock w (ticks w))) = Some t
          /\ obj_get "updatedAt" doc' = Some t)
    /\ (forall k v ty,
          k <> "updatedAt" ->
          obj_get k (request_fields req_body) = Some v ->
          path_type k = Some ty ->
          exists v', castPath ty v = Some v' /\ obj_get k doc' = Some v')
    /\ (forall k,
          k <> "updatedAt" ->
          path_type k = None ->
          obj_get k doc' = obj_get k doc0)
    /\ (forall k,
          k <> "updatedAt" ->
          obj_get k (request_fields req_body) = None ->
          obj_get k doc' = obj_get k doc0).
Proof.
  intros Hplain Hr Hstatus.
  rewrite put_items_mutation in Hr. rewrite put_items_mutation.
  unfold try_catch in *. unfold bind at 1 in Hr. unfold bind at 1.
  unfold put_mutation in *. rewrite bind_date in Hr. rewrite bind_date.
  set (now := clock w (ticks w)) in *.
  set (w1 := with_ticks (S (ticks w)) w) in *.
  set (update := obj_literal (own_props req_body ++ [("updatedAt", JStr now)])) in *.
  destruct (findByIdAndUpdate castPath isValidObjectId id update w1)
    as [[[data|]|e] w2] eqn:Eupd; cbn [fst snd] in *.
  2: { unfold ret, failure in Hr. inversion Hr; subst. discriminate. }
  2: { unfold ret, failure in Hr. inversion Hr; subst. discriminate. }
  destruct (findByIdAndUpdate_found _ _ _ _ _ (plain_update req_body now Hplain) Eupd)
    as (set & doc0 & doc' & Hcast & Hfind & Hdoc & Hitems & Hdata).
  destruct (cast_update_normal _ _ _ _ Hcast) as (_ & Hset & Hnone & Hdrop).
  destruct (after_publish "item_updated" (JObj data)
              {| status := 200;
                 body := obj_literal [("success", JBool true);
                                      ("data", JObj data)] |} w2)
    as [Hfst Hsnd].
  match type of Hfst with
  | fst (?c w2) = _ =>
      destruct (c w2) as [[r'|e'] w3] eqn:Epub; cbn [fst snd] in *;
      [|discriminate]
  end.
  inversion Hfst; subst r'. inversion Hr; subst r. clear Hr Hfst.
  assert (Hu : forall k,
             obj_last k update
             = if String.eqb k "updatedAt" then Some (JStr now)
               else obj_get k (request_fields req_body)).
  { intros k. unfold update. rewrite obj_literal_snoc.
    rewrite obj_last_unique by (apply unique_obj_set, unique_obj_literal).
    apply obj_get_set. }
  assert (Hget : forall k,
             obj_get k doc'
             = match obj_last k set with
               | Some v => Some v
               | None => obj_get k doc0
               end).
  { intros k. rewrite Hdoc. apply obj_get_assign. }
  exists doc0, doc', data. split; [exact Hfind|].
  split; [|split; [reflexivity|]].
  - rewrite Hsnd, publishItemEvent_store, Hitems.
    exact (find_replace_item id doc' doc0 _ Hfind).
  - split; [exact Hdata|]. split; [|split; [|split]].
    + destruct (Hset "updatedAt" (JStr now) SDate) as (t & Hc & Hl).
      * rewrite Hu. reflexivity.
      * reflexivity.
      * exists t. split; [exact Hc|]. rewrite Hget, Hl. reflexivity.
    + intros k v ty Hk Hv Hty.
      destruct (Hset k v ty) as (v' & Hc & Hl).
      * rewrite Hu. apply String.eqb_neq in Hk. rewrite Hk. exact Hv.
      * exact Hty.
      * exists v'. split; [exact Hc|]. rewrite Hget, Hl. reflexivity.
    + intros k Hk Hty. rewrite Hget, (Hdrop k Hty). reflexivity.
    + intros k Hk Hv. rewrite Hget, Hnone; [reflexivity|].
      rewrite Hu. apply String.eqb_neq in Hk. rewrite Hk. exact Hv.
Qed.

End Update.

Lemma put_sets_the_supplied_fields_witness :
  exists doc0 doc',
    find_item "65a000000000000000000001" (items stocked) = Some doc0
    /\ find_item "65a000000000000000000001"
         (items (snd (put_items (fun _ v => Some v) (fun _ => true)
                        "65a000000000000000000001"
                        (JObj [("price", JNum "12.5"); ("colour", JStr "red")])
                        stocked)))
       = Some doc'
    /\ obj_get "price" doc' = Some (JNum "12.5")
    /\ obj_get "colour" doc' = None
    /\ obj_get "createdAt" doc' = obj_get "createdAt" doc0.
Proof.
  destruct (put_sets_the_supplied_fields (fun _ v => Some v) (fun _ => true)
              "65a000000000000000000001"
              (JObj [("price", JNum "12.5"); ("colour", JStr "red")]) stocked
              {| status := 200;
                 body := obj_literal
                   [("success", JBool true);
                    ("data",
                     JObj [("_id", JStr "65a000000000000000000001");
                           ("name", JStr "Widget"); ("price", JNum "12.5");
                           ("category", JStr "Tools");
                           ("createdAt", JStr "2023-12-31T00:00:00.000Z");
                           ("updatedAt", JStr "2024-01-01T00:00:00.000Z");
                           ("__v", JNum "0")])] |}
              eq_refl eq_refl eq_refl)
    as (doc0 & doc' & data & H0 & H1 & _ & _ & _ & Hset & Hdrop & Hkeep).
  exists doc0, doc'. split; [exact H0|]. split; [exact H1|]. split; [|split].
  - destruct (Hset "price" (JNum "12.5") SNumber) as (v' & Hc & Hv);
      [discriminate | reflexivity | reflexivity|].
    inversion Hc; subst. exact Hv.
  - rewrite (Hdrop "colour"); [|discriminate | reflexivity].
    vm_compute in H0. inversion H0. reflexivity.
  - apply Hkeep; [discriminate | reflexivity].
Defined.

(** C10, as the spec has it, fails.  The body is spread into the update
    document, so a key of the body that is an update operator is applied as
    one.  The body of this PUT has no createdAt; the request is answered
    with 200 and createdAt is gone from the stored record. *)
Lemma put_unsets_createdAt :
  let id := "65a000000000000000000001" in
  let req_body := JObj [("$unset", JObj [("createdAt", JNum "1")])] in
  let run := put_items (fun _ v => Some v) (fun _ => true) id req_body stocked in
  obj_has "createdAt" (request_fields req_body) = false
  /\ match fst run with
     | Normal r => status r = 200%N
     | Throw _ => False
     end
  /\ match find_item id (items stocked) with
     | Some doc0 =>
         obj_get "createdAt" doc0 = Some (JStr "2023-12-31T00:00:00.000Z")
     | None => False
     end
  /\ match find_item id (items (snd run)) with
     | Some doc' =>
         obj_has "createdAt" doc' = false
         /\ obj_get "updatedAt" doc' = Some (JStr "2024-01-01T00:00:00.000Z")
         /\ obj_get "name" doc' = Some (JStr "Widget")
     | None => False
     end.
Proof. vm_compute. repeat split. Qed.

(** ** More on the publisher and on start-up *)

(** Every call of [publish] writes one line to the console: the error line
    when an emission threw, the success line otherwise, also when the queue
    emission was left out for want of a channel. *)
Theorem publish_logs_one_line (e : DomainEvent) (w : world) :
  console (snd (publish e w)) = (console w ++ [publish_line e w])%list.
Proof.
  destruct (QueueAction_text e w) as [text Htext]. unfold QueueAction in Htext.
  assert (Hid : forall ev item ts,
             String.eqb ev "item_deleted" = false ->
             rabbitMessage ev (JObj item) JUndefined ts
             = rabbitMessage ev (JObj item) (get_prop (JObj item) "id") ts).
  { intros ev item ts Hev. unfold rabbitMessage. rewrite Hev. reflexivity. }
  unfold publish_line. js_unfold.
  destruct (fault w "producer.send"); js_fields; [reflexivity|].
  destruct (rabbitChannel w); js_fields; [|reflexivity].
  destruct e as [item|item|id]; cbn [event_name event_data] in *.
  - change (String.eqb "item_created" "item_deleted") with false.
    js_fields. rewrite Hid by reflexivity. rewrite Htext. js_fields.
    destruct (fault w "rabbitChannel.sendToQueue"); reflexivity.
  - change (String.eqb "item_updated" "item_deleted") with false.
    js_fields. rewrite Hid by reflexivity. rewrite Htext. js_fields.
    destruct (fault w "rabbitChannel.sendToQueue"); reflexivity.
  - change (String.eqb "item_deleted" "item_deleted") with true.
    js_fields. rewrite Htext. js_fields.
    destruct (fault w "rabbitChannel.sendToQueue"); reflexivity.
Qed.

(** connectRabbitMQ never throws.  The channel global is assigned as soon as
    the channel is created: it is set when amqp.connect and createChannel
    went well, even if a queue declaration fails afterwards, and it is left
    as it was when one of the two failed. *)
Theorem channel_is_set_before_queues (w : world) :
  fst (connectRabbitMQ w) = Normal tt
  /\ rabbitChannel (snd (connectRabbitMQ w))
     = match fault w "amqp.connect", fault w "connection.createChannel" with
       | None, None => true
       | _, _ => rabbitChannel w
       end.
Proof.
  unfold connectRabbitMQ. js_unfold.
  repeat
    match goal with
    | |- context [fault w ?op] => destruct (fault w op); js_fields
    end;
    split; reflexivity.
Qed.




(** gracefulShutdown ends normally with the exit code: 0 when every
    connection it closes (the channel only when there is one) closes, 1 as
    soon as one does not.  The last console line tells which. *)
Theorem shutdown_exit_code (signal : string) (w : world) :
  fst (gracefulShutdown signal w)
  = Normal (if forallb (fun op => match fault w op with
                                  | Some _ => false
                                  | None => true
                                  end) (closing w)
            then 0%N else 1%N)
  /\ exists line,
       console (snd (gracefulShutdown signal w))
       = (console w
            ++ [(signal ++ " received, shutting down gracefully")%string; line])%list
       /\ (line = "All connections closed successfully"
           <-> fst (gracefulShutdown signal w) = Normal 0%N).
Proof.
  unfold gracefulShutdown, closing. js_unfold.
  destruct (rabbitChannel w) eqn:Hch; cbn [app forallb];
    repeat
      match goal with
      | |- context [match fault w ?op with _ => _ end] =>
          destruct (fault w op) eqn:?; js_fields; cbn [andb]
      | |- context [rabbitChannel w] => rewrite Hch; js_fields
      end;
    try congruence;
    (split; [reflexivity|]); eexists;
    rewrite <- ?app_assoc; cbn [app];
    (split; [reflexivity|]); split; intros H; try reflexivity;
    try discriminate H; inversion H.
Qed.

(** ** What the record store leaves alone *)

Section Frame.

Variable B : Type.
Variable proj : world -> B.
Hypothesis proj_ticks : forall n w, proj (with_ticks n w) = proj w.
Hypothesis proj_made : forall n w, proj (with_made n w) = proj w.
Hypothesis proj_items : forall l w, proj (with_items l w) = proj w.

Variable castPath : SchemaType -> json -> option json.
Variable isValidObjectId : string -> bool.

















End Frame.

Section Success.

Variable castPath : SchemaType -> json -> option json.
Variable isValidObjectId : string -> bool.






End Success.


End NodeFacts.



(* ================================================================== *)
(** * Properties of the Go service *)
(* ================================================================== *)

Module GoFacts.
Import Go.

Ltac go_fields :=
  cbn [fst snd fault now ticks objectIDs made go_events queues logs calls
       consuming serving log_Printf time_Now NewObjectID dial set_consuming
       set_serving with_fault] in *.

(** ** What the decoder accepts *)

Ltac decide_names :=
  repeat
    match goal with
    | |- context [names ?a ?b] =>
        let v := eval vm_compute in (names a b) in
        change (names a b) with v; cbn iota
    end.

Lemma names_other (t t' k : string) :
  names t k = true -> foldName t' <> foldName t -> names t' k = false.
Proof.
  unfold names. intros H Hne. apply String.eqb_eq in H. rewrite H.
  apply String.eqb_neq. intros E. apply Hne. symmetry. exact E.
Qed.

Lemma store_string_mistyped (v : json) (old : string) :
  string_or_null v = false -> store_string v old = None.
Proof. destruct v; intros H; try discriminate H; reflexivity. Qed.







Section Loops.

Variable Marshal : json -> string.

Lemma startKafkaConsumer_app (l1 l2 : list (string + string)) (st : state) :
  startKafkaConsumer Marshal (l1 ++ l2) st
  = startKafkaConsumer Marshal l2 (startKafkaConsumer Marshal l1 st).
Proof.
  revert st. induction l1 as [|[err|value] l1 IH]; intros st; simpl.
  - reflexivity.
  - apply IH.
  - destruct (Unmarshal_KafkaMessage value); apply IH.
Qed.

Lemma rangeItems_app (l1 l2 : list string) (st : state) :
  rangeItems Marshal (l1 ++ l2) st
  = rangeItems Marshal l2 (rangeItems Marshal l1 st).
Proof.
  revert st. induction l1 as [|body l1 IH]; intros st; simpl.
  - reflexivity.
  - destruct (Unmarshal_RabbitMessage body); apply IH.
Qed.

Lemma rangeNotifications_app (l1 l2 : list string) (st : state) :
  rangeNotifications Marshal (l1 ++ l2) st
  = rangeNotifications Marshal l2 (rangeNotifications Marshal l1 st).
Proof.
  revert st. induction l1 as [|body l1 IH]; intros st; simpl.
  - reflexivity.
  - destruct (Unmarshal_NotificationMessage body); apply IH.
Qed.

Lemma lines_log (p line : string) (st : state) :
  lines p (log_Printf line st)
  = if String.prefix p line then S (lines p st) else lines p st.
Proof.
  unfold lines. cbn [logs log_Printf].
  rewrite filter_app, length_app. simpl.
  destruct (String.prefix p line); simpl; lia.
Qed.

Lemma lines_WriteMessages (p value : string) (st : state) :
  lines p (snd (WriteMessages value st)) = lines p st.
Proof.
  unfold WriteMessages.
  destruct (fault st "kafkaWriter.WriteMessages"); reflexivity.
Qed.

Lemma lines_Publish (p key value : string) (st : state) :
  lines p (snd (Publish key value st)) = lines p st.
Proof.
  unfold Publish.
  destruct (fault st "rabbitChannel.Publish"); reflexivity.
Qed.

Lemma lines_processKafkaMessage (p : string) (m : KafkaMessage) (st : state) :
  lines p (processKafkaMessage Marshal m st) = lines p st.
Proof.
  unfold processKafkaMessage, time_Now. rewrite lines_WriteMessages.
  reflexivity.
Qed.

Lemma lines_processRabbitMessage (p : string) (m : RabbitMessage) (st : state) :
  lines p (processRabbitMessage Marshal m st) = lines p st.
Proof.
  unfold processRabbitMessage, time_Now. rewrite lines_Publish.
  reflexivity.
Qed.

Lemma lines_processNotification (m : NotificationMessage) (st : state) :
  dispatched (processNotification Marshal m st) = dispatched st
  /\ skipped (processNotification Marshal m st) = skipped st.
Proof.
  unfold dispatched, skipped, processNotification, NewObjectID, time_Now.
  rewrite !lines_Publish.
  split.
  - change (lines "Received "
              (log_Printf ("Processing notification: " ++ Message m) st)
            = lines "Received " st).
    rewrite lines_log. reflexivity.
  - change (lines "Error unmarshaling "
              (log_Printf ("Processing notification: " ++ Message m) st)
            = lines "Error unmarshaling " st).
    rewrite lines_log. reflexivity.
Qed.

(** One message through a loop: a well-formed one adds one dispatch and no
    skip, a malformed one adds one skip and no dispatch. *)
Lemma kafka_step (value : string) (st : state) :
  dispatched (startKafkaConsumer Marshal [inr value] st)
  = (if wellformed_event value then S (dispatched st) else dispatched st)
  /\ skipped (startKafkaConsumer Marshal [inr value] st)
     = (if wellformed_event value then skipped st else S (skipped st)).
Proof.
  unfold wellformed_event, dispatched, skipped. cbn [startKafkaConsumer].
  destruct (Unmarshal_KafkaMessage value) as [m|].
  - rewrite !lines_processKafkaMessage, !lines_log. split; reflexivity.
  - rewrite !lines_log. split; reflexivity.
Qed.

Lemma items_step (body : string) (st : state) :
  dispatched (rangeItems Marshal [body] st)
  = (if wellformed_action body then S (dispatched st) else dispatched st)
  /\ skipped (rangeItems Marshal [body] st)
     = (if wellformed_action body then skipped st else S (skipped st)).
Proof.
  unfold wellformed_action, dispatched, skipped. cbn [rangeItems].
  destruct (Unmarshal_RabbitMessage body) as [m|].
  - rewrite !lines_processRabbitMessage, !lines_log. split; reflexivity.
  - rewrite !lines_log. split; reflexivity.
Qed.

Lemma notifications_step (body : string) (st : state) :
  dispatched (rangeNotifications Marshal [body] st)
  = (if wellformed_notification body then S (dispatched st) else dispatched st)
  /\ skipped (rangeNotifications Marshal [body] st)
     = (if wellformed_notification body then skipped st else S (skipped st)).
Proof.
  unfold wellformed_notification. cbn [rangeNotifications].
  destruct (Unmarshal_NotificationMessage body) as [m|].
  - destruct (lines_processNotification m
                (log_Printf ("Received notification: " ++ Message m ++ " for "
                               ++ Recipient m) st)) as [Hd Hs].
    rewrite Hd, Hs. unfold dispatched, skipped.
    rewrite !lines_log. split; reflexivity.
  - unfold dispatched, skipped. rewrite !lines_log. split; reflexivity.
Qed.

Lemma consume_app (c : channel) (l1 l2 : list string) (st : state) :
  consume Marshal c (l1 ++ l2) st
  = consume Marshal c l2 (consume Marshal c l1 st).
Proof.
  destruct c; cbn [consume].
  - rewrite map_app. apply startKafkaConsumer_app.
  - apply rangeItems_app.
  - apply rangeNotifications_app.
Qed.

Lemma consume_step (c : channel) (msg : string) (st : state) :
  dispatched (consume Marshal c [msg] st)
  = (if wellformed c msg then S (dispatched st) else dispatched st)
  /\ skipped (consume Marshal c [msg] st)
     = (if wellformed c msg then skipped st else S (skipped st)).
Proof.
  destruct c; cbn [consume wellformed map].
  - apply kafka_step.
  - apply items_step.
  - apply notifications_step.
Qed.




(** ** Every delivery, in any order *)

Lemma consume_nil (c : channel) (st : state) : consume Marshal c [] st = st.
Proof. destruct c; reflexivity. Qed.




(** ** Acknowledgements *)

Lemma ack_step (c : channel) (msg : string) (st : state) :
  fault (consume Marshal c [msg] st) = fault st
  /\ acks c (consume Marshal c [msg] st)
     = acks c st + (if wellformed c msg && accepts c st then 1 else 0)
  /\ match c with
     | item_events => queues (consume Marshal c [msg] st) = queues st
     | _ => go_events (consume Marshal c [msg] st) = go_events st
     end.
Proof.
  destruct c; cbn [consume map wellformed accepts acks startKafkaConsumer
                   rangeItems rangeNotifications];
    unfold wellformed_event, wellformed_action, wellformed_notification.
  - destruct (Unmarshal_KafkaMessage msg) as [m|]; cbn [andb].
    + unfold processKafkaMessage, time_Now, WriteMessages. go_fields.
      destruct (fault st "kafkaWriter.WriteMessages"); go_fields;
        rewrite ?length_app; cbn [List.length]; repeat split; lia.
    + go_fields. repeat split; lia.
  - destruct (Unmarshal_RabbitMessage msg) as [m|]; cbn [andb].
    + unfold processRabbitMessage, time_Now, Publish. go_fields.
      destruct (fault st "rabbitChannel.Publish"); go_fields;
        rewrite ?filter_app, ?length_app; cbn [filter fst List.length];
        repeat split; try reflexivity; lia.
    + go_fields. repeat split; lia.
  - destruct (Unmarshal_NotificationMessage msg) as [m|]; cbn [andb].
    + unfold processNotification, NewObjectID, time_Now, Publish. go_fields.
      destruct (fault st "rabbitChannel.Publish"); go_fields;
        rewrite ?filter_app, ?length_app; cbn [filter fst List.length];
        repeat split; try reflexivity; lia.
    + go_fields. repeat split; lia.
Qed.

(** A loop sends one acknowledgement for each message it dispatches, on its
    own output and on no other, when the broker takes it.  When the broker
    refuses, the error is dropped: nothing is sent and the loop goes on. *)
Theorem one_ack_per_dispatch (c : channel) (msgs : list string) (st : state) :
  acks c (consume Marshal c msgs st)
  = acks c st
    + (if accepts c st then List.length (filter (wellformed c) msgs) else 0)
  /\ match c with
     | item_events => queues (consume Marshal c msgs st) = queues st
     | _ => go_events (consume Marshal c msgs st) = go_events st
     end.
Proof.
  assert (H : fault (consume Marshal c msgs st) = fault st
              /\ acks c (consume Marshal c msgs st)
                 = acks c st
                   + (if accepts c st
                      then List.length (filter (wellformed c) msgs) else 0)
              /\ match c with
                 | item_events => queues (consume Marshal c msgs st) = queues st
                 | _ => go_events (consume Marshal c msgs st) = go_events st
                 end); [|destruct H as (_ & H1 & H2); split; assumption].
  revert st. induction msgs as [|msg msgs IH]; intros st.
  - rewrite consume_nil. destruct c; destruct (accepts _ st);
      repeat split; cbn [filter List.length]; lia.
  - rewrite (consume_app c [msg] msgs st : consume Marshal c (msg :: msgs) st = _).
    destruct (ack_step c msg st) as (Hf1 & Ha1 & Ho1).
    destruct (IH (consume Marshal c [msg] st)) as (Hf & Ha & Ho).
    assert (Hacc : accepts c (consume Marshal c [msg] st) = accepts c st).
    { destruct c; cbn [accepts]; rewrite Hf1; reflexivity. }
    rewrite Hacc in Ha. split; [congruence|]. split.
    + rewrite Ha, Ha1. cbn [filter].
      destruct (wellformed c msg), (accepts c st); cbn [andb List.length]; lia.
    + destruct c; congruence.
Qed.

(** ** Custom events *)

(** POST /api/events with a body that binds: the same bytes go to the
    go-events topic and to go_events_queue, and each of the two emissions
    is made whatever becomes of the other. *)
Theorem custom_event_emissions (req_body : string) (requestBody : json)
  (st : state) :
  ShouldBindJSON req_body = Some requestBody ->
  go_events (snd (sendEvent Marshal req_body st))
  = match fault st "kafkaWriter.WriteMessages" with
    | Some _ => go_events st
    | None =>
        (go_events st
           ++ [Marshal (JObj [("event", JStr "custom_event");
                              ("data", requestBody);
                              ("timestamp", JStr (now st (ticks st)));
                              ("source", JStr "go-service")])])%list
    end
  /\ queues (snd (sendEvent Marshal req_body st))
     = match fault st "rabbitChannel.Publish" with
       | Some _ => queues st
       | None =>
           (queues st
              ++ [("go_events_queue",
                   Marshal (JObj [("event", JStr "custom_event");
                                  ("data", requestBody);
                                  ("timestamp", JStr (now st (ticks st)));
                                  ("source", JStr "go-service")]))])%list
       end.
Proof.
  intros Hbind. unfold sendEvent. rewrite Hbind.
  unfold time_Now, WriteMessages, Publish. go_fields.
  destruct (fault st "kafkaWriter.WriteMessages"); go_fields;
    destruct (fault st "rabbitChannel.Publish"); go_fields;
    split; reflexivity.
Qed.

(** C9, as the code has it.  POST /api/events answers 200 with success
    true exactly when the body starts with a JSON object (or null) that
    decodes into the map, and 400 otherwise, leaving the state alone.  What
    the two brokers do with the event changes nothing in the response. *)
Theorem sendEvent_ignores_the_brokers (req_body : string)
  (f : string -> option string) (st : state) :
  fst (sendEvent Marshal req_body st)
  = match ShouldBindJSON req_body with
    | Some _ =>
        {| status := 200;
           body := [("success", JBool true);
                    ("message", JStr "Event sent successfully")] |}
    | None =>
        {| status := 400; body := [("error", JStr "Invalid request body")] |}
    end
  /\ fst (sendEvent Marshal req_body (with_fault f st))
     = fst (sendEvent Marshal req_body st)
  /\ (ShouldBindJSON req_body = None ->
      snd (sendEvent Marshal req_body st) = st).
Proof.
  unfold sendEvent.
  destruct (ShouldBindJSON req_body) as [requestBody|];
    repeat split; try reflexivity; discriminate.
Qed.

End Loops.



Lemma sendEvent_ignores_the_brokers_witness :
  snd (sendEvent (fun _ => EmptyString) "[1]" idle) = idle.
Proof.
  destruct (sendEvent_ignores_the_brokers (fun _ => EmptyString) "[1]"
              (fun _ => None) idle) as (_ & _ & H).
  exact (H eq_refl).
Defined.

(** C9, as the spec has it, fails: a body that is JSON but not an object is
    answered with 400. *)
Lemma json_array_is_rejected :
  Valid "[1]" = true
  /\ status (fst (sendEvent (fun _ => EmptyString) "[1]" idle)) = 400%N.
Proof. vm_compute. split; reflexivity. Qed.

(** ** Start-up *)

Lemma main_fatal (st : state) :
  connect_fails st = true ->
  exists line,
    fst (main st) = Fatal line
    /\ consuming (snd (main st)) = consuming st
    /\ serving (snd (main st)) = serving st
    /\ exists attempts,
         calls (snd (main st)) = (calls st ++ attempts)%list /\ NoDup attempts.
Proof.
  unfold connect_fails, connect_steps. cbn [existsb].
  unfold main, connectMongoDB, connectKafka, connectRabbitMQ.
  cbn [declareQueues String.append]. go_fields.
  repeat
    match goal with
    | |- context [fault st ?op] =>
        destruct (fault st op) eqn:?; go_fields; cbn [orb]
    end;
    intros H; try discriminate H;
    eexists; (split; [reflexivity|]); (split; [reflexivity|]);
    (split; [reflexivity|]);
    rewrite <- ?app_assoc; cbn [app]; eexists; (split; [reflexivity|]);
    repeat constructor; cbn; intuition discriminate.
Qed.

Lemma custom_event_emissions_witness :
  go_events (snd (sendEvent (fun _ => "bytes") "{}"
                    (failing "rabbitChannel.Publish" "channel closed" idle)))
  = ["bytes"]
  /\ queues (snd (sendEvent (fun _ => "bytes") "{}"
                    (failing "rabbitChannel.Publish" "channel closed" idle)))
     = [].
Proof.
  apply (custom_event_emissions (fun _ => "bytes") "{}" (JObj [])
           (failing "rabbitChannel.Publish" "channel closed" idle)).
  reflexivity.
Defined.

(** main makes its connect calls in a fixed order and stops at the first
    that fails; it reaches the running state exactly when none fails and the
    server starts. *)
Theorem main_calls_in_order (st : state) :
  calls (snd (main st))
  = (calls st
       ++ attempted (fault st) (connect_steps ++ ["server.ListenAndServe"]))%list
  /\ (fst (main st) = Running
      <-> forallb (fun op => match fault st op with
                             | Some _ => false
                             | None => true
                             end)
            (connect_steps ++ ["server.ListenAndServe"]) = true).
Proof.
  unfold connect_steps. cbn [app attempted forallb].
  unfold main, connectMongoDB, connectKafka, connectRabbitMQ.
  cbn [declareQueues String.append]. go_fields.
  repeat
    match goal with
    | |- context [fault st ?op] =>
        destruct (fault st op) eqn:?; go_fields; cbn [andb]
    end;
    rewrite <- ?app_assoc; cbn [app];
    (split; [reflexivity|]); split; intros H; try reflexivity; discriminate H.
Qed.

Lemma main_running (st : state) :
  connect_fails st = false ->
  fault st "server.ListenAndServe" = None ->
  fst (main st) = Running
  /\ consuming (snd (main st)) = true
  /\ serving (snd (main st)) = true.
Proof.
  unfold connect_fails, connect_steps. cbn [existsb].
  unfold main, connectMongoDB, connectKafka, connectRabbitMQ.
  cbn [declareQueues String.append]. go_fields.
  repeat
    match goal with
    | |- context [fault st ?op] =>
        destruct (fault st op) eqn:?; go_fields; cbn [orb]
    end;
    intros H H'; try discriminate H; try discriminate H';
    repeat split.
Qed.

(** ** Struct fields and the keys that name them *)

Lemma kafkaFields_unknown (ms : list (string * json)) (m : KafkaMessage) :
  forallb (fun kv => negb (names_one (tags item_events) (fst kv))) ms = true ->
  kafkaFields ms m = Some m.
Proof.
  induction ms as [|[k v] ms IH]; intros H; [reflexivity|].
  cbn [forallb fst] in H. apply andb_prop in H. destruct H as [Hk Hms].
  unfold names_one, tags in Hk. cbn [existsb] in Hk. cbn [kafkaFields].
  destruct (names "event" k), (names "data" k), (names "timestamp" k);
    try discriminate Hk.
  exact (IH Hms).
Qed.

Lemma rabbitFields_unknown (ms : list (string * json)) (m : RabbitMessage) :
  forallb (fun kv => negb (names_one (tags items_queue) (fst kv))) ms = true ->
  rabbitFields ms m = Some m.
Proof.
  induction ms as [|[k v] ms IH]; intros H; [reflexivity|].
  cbn [forallb fst] in H. apply andb_prop in H. destruct H as [Hk Hms].
  unfold names_one, tags in Hk. cbn [existsb] in Hk. cbn [rabbitFields].
  destruct (names "action" k), (names "item" k), (names "itemId" k),
    (names "timestamp" k); try discriminate Hk.
  exact (IH Hms).
Qed.

Lemma notificationFields_unknown (ms : list (string * json))
  (m : NotificationMessage) :
  forallb (fun kv => negb (names_one (tags notifications_queue) (fst kv))) ms
  = true ->
  notificationFields ms m = Some m.
Proof.
  induction ms as [|[k v] ms IH]; intros H; [reflexivity|].
  cbn [forallb fst] in H. apply andb_prop in H. destruct H as [Hk Hms].
  unfold names_one, tags in Hk. cbn [existsb] in Hk. cbn [notificationFields].
  destruct (names "message" k), (names "recipient" k), (names "timestamp" k);
    try discriminate Hk.
  exact (IH Hms).
Qed.

(** The loops check no field after decoding.  A JSON object none of whose
    keys names a field of the struct (whatever the case of the letters)
    decodes without error to the zero value of the struct, so the loop hands
    it to its handler. *)
Theorem unknown_keys_decode_to_zero (c : channel) (text : string)
  (ms : list (string * json)) :
  parse text = Some (JObj ms) ->
  forallb (fun kv => negb (names_one (tags c) (fst kv))) ms = true ->
  wellformed c text = true
  /\ match c with
     | item_events =>
         Unmarshal_KafkaMessage text
         = Some {| Event := EmptyString; Data := JNull;
                   Timestamp := EmptyString |}
     | items_queue =>
         Unmarshal_RabbitMessage text
         = Some {| Action := EmptyString; Item := JNull; ItemID := EmptyString;
                   RTimestamp := EmptyString |}
     | notifications_queue =>
         Unmarshal_NotificationMessage text
         = Some {| Message := EmptyString; Recipient := EmptyString;
                   NTimestamp := EmptyString |}
     end.
Proof.
  intros Hparse Hkeys.
  destruct c; cbn [wellformed];
    unfold wellformed_event, wellformed_action, wellformed_notification,
      Unmarshal_KafkaMessage, Unmarshal_RabbitMessage,
      Unmarshal_NotificationMessage;
    rewrite Hparse.
  - rewrite (kafkaFields_unknown ms _ Hkeys). split; reflexivity.
  - rewrite (rabbitFields_unknown ms _ Hkeys). split; reflexivity.
  - rewrite (notificationFields_unknown ms _ Hkeys). split; reflexivity.
Qed.

Lemma unknown_keys_decode_to_zero_witness :
  wellformed items_queue (text_of (JObj [("Event", JNum "1")])) = true
  /\ Unmarshal_RabbitMessage (text_of (JObj [("Event", JNum "1")]))
     = Some {| Action := EmptyString; Item := JNull; ItemID := EmptyString;
               RTimestamp := EmptyString |}.
Proof.
  apply (unknown_keys_decode_to_zero items_queue
           (text_of (JObj [("Event", JNum "1")])) [("Event", JNum "1")]).
  - vm_compute. reflexivity.
  - vm_compute. reflexivity.
Defined.

Lemma kafkaFields_mistyped (k : string) (v : json) (ms : list (string * json)) :
  In (k, v) ms -> names_one (string_tags item_events) k = true ->
  string_or_null v = false ->
  forall m, kafkaFields ms m = None.
Proof.
  intros Hin Hk Hv. induction ms as [|[k' v'] ms IH]; intros m; [destruct Hin|].
  cbn [kafkaFields]. destruct Hin as [E|Hin].
  - inversion E; subst k' v'. clear IH E.
    unfold names_one, string_tags in Hk. cbn [existsb] in Hk.
    destruct (names "event" k) eqn:E1.
    + rewrite (store_string_mistyped v _ Hv). reflexivity.
    + destruct (names "timestamp" k) eqn:E3; [|discriminate Hk].
      rewrite (names_other "timestamp" "data" k E3)
        by (intros X; vm_compute in X; discriminate X).
      rewrite (store_string_mistyped v _ Hv). reflexivity.
  - destruct (names "event" k');
      [destruct (store_string v' (Event m)); [apply (IH Hin)|reflexivity]|].
    destruct (names "data" k');
      [destruct (valueInterface v'); [apply (IH Hin)|reflexivity]|].
    destruct (names "timestamp" k');
      [destruct (store_string v' (Timestamp m)); [apply (IH Hin)|reflexivity]|].
    apply (IH Hin).
Qed.

Lemma rabbitFields_mistyped (k : string) (v : json) (ms : list (string * json)) :
  In (k, v) ms -> names_one (string_tags items_queue) k = true ->
  string_or_null v = false ->
  forall m, rabbitFields ms m = None.
Proof.
  intros Hin Hk Hv. induction ms as [|[k' v'] ms IH]; intros m; [destruct Hin|].
  cbn [rabbitFields]. destruct Hin as [E|Hin].
  - inversion E; subst k' v'. clear IH E.
    unfold names_one, string_tags in Hk. cbn [existsb] in Hk.
    destruct (names "action" k) eqn:E1.
    + rewrite (store_string_mistyped v _ Hv). reflexivity.
    + destruct (names "itemId" k) eqn:E3.
      * rewrite (names_other "itemId" "item" k E3)
          by (intros X; vm_compute in X; discriminate X).
        rewrite (store_string_mistyped v _ Hv). reflexivity.
      * destruct (names "timestamp" k) eqn:E4; [|discriminate Hk].
        rewrite (names_other "timestamp" "item" k E4)
          by (intros X; vm_compute in X; discriminate X).
        rewrite (store_string_mistyped v _ Hv). reflexivity.
  - destruct (names "action" k');
      [destruct (store_string v' (Action m)); [apply (IH Hin)|reflexivity]|].
    destruct (names "item" k');
      [destruct (valueInterface v'); [apply (IH Hin)|reflexivity]|].
    destruct (names "itemId" k');
      [destruct (store_string v' (ItemID m)); [apply (IH Hin)|reflexivity]|].
    destruct (names "timestamp" k');
      [destruct (store_string v' (RTimestamp m)); [apply (IH Hin)|reflexivity]|].
    apply (IH Hin).
Qed.

Lemma notificationFields_mistyped (k : string) (v : json)
  (ms : list (string * json)) :
  In (k, v) ms -> names_one (string_tags notifications_queue) k = true ->
  string_or_null v = false ->
  forall m, notificationFields ms m = None.
Proof.
  intros Hin Hk Hv. induction ms as [|[k' v'] ms IH]; intros m; [destruct Hin|].
  cbn [notificationFields]. destruct Hin as [E|Hin].
  - inversion E; subst k' v'. clear IH E.
    unfold names_one, string_tags in Hk. cbn [existsb] in Hk.
    destruct (names "message" k) eqn:E1.
    + rewrite (store_string_mistyped v _ Hv). reflexivity.
    + destruct (names "recipient" k) eqn:E2.
      * rewrite (store_string_mistyped v _ Hv). reflexivity.
      * destruct (names "timestamp" k) eqn:E3; [|discriminate Hk].
        rewrite (store_string_mistyped v _ Hv). reflexivity.
  - destruct (names "message" k');
      [destruct (store_string v' (Message m)); [apply (IH Hin)|reflexivity]|].
    destruct (names "recipient" k');
      [destruct (store_string v' (Recipient m)); [apply (IH Hin)|reflexivity]|].
    destruct (names "timestamp" k');
      [destruct (store_string v' (NTimestamp m)); [apply (IH Hin)|reflexivity]|].
    apply (IH Hin).
Qed.

(** One member of the wrong type spoils the whole message.  When a JSON
    object has a member whose key names a string field of the struct and
    whose value is neither a string nor null, json.Unmarshal fails wherever
    the member stands and whatever the other members are, and the loop
    skips the message. *)
Theorem mistyped_string_field_is_rejected (c : channel) (text : string)
  (ms : list (string * json)) (k : string) (v : json) :
  parse text = Some (JObj ms) ->
  In (k, v) ms ->
  names_one (string_tags c) k = true ->
  string_or_null v = false ->
  wellformed c text = false.
Proof.
  intros Hparse Hin Hk Hv.
  destruct c; cbn [wellformed];
    unfold wellformed_event, wellformed_action, wellformed_notification,
      Unmarshal_KafkaMessage, Unmarshal_RabbitMessage,
      Unmarshal_NotificationMessage;
    rewrite Hparse.
  - rewrite (kafkaFields_mistyped k v ms Hin Hk Hv). reflexivity.
  - rewrite (rabbitFields_mistyped k v ms Hin Hk Hv). reflexivity.
  - rewrite (notificationFields_mistyped k v ms Hin Hk Hv). reflexivity.
Qed.

Lemma mistyped_string_field_is_rejected_witness :
  wellformed item_events
    (text_of (JObj [("event", JStr "item_created"); ("TimeStamp", JNum "17")]))
  = false.
Proof.
  apply (mistyped_string_field_is_rejected item_events
           (text_of (JObj [("event", JStr "item_created");
                           ("TimeStamp", JNum "17")]))
           [("event", JStr "item_created"); ("TimeStamp", JNum "17")]
           "TimeStamp" (JNum "17")).
  - vm_compute. reflexivity.
  - right. left. reflexivity.
  - vm_compute. reflexivity.
  - reflexivity.
Defined.

(** ** The body of a custom event *)

(** POST /api/events decodes the first JSON value of the body and does not
    look at what follows it: an object that crosses the wire unchanged is
    bound as it is, and the request is answered with 200, whatever text comes
    after it. *)
Theorem sendEvent_reads_one_value (Marshal : json -> string)
  (ms : list (string * json)) (rest : string) (st : state) :
  wire 0 (JObj ms) = true ->
  ShouldBindJSON (text_of (JObj ms) ++ rest) = Some (JObj ms)
  /\ status (fst (sendEvent Marshal (text_of (JObj ms) ++ rest) st)) = 200%N.
Proof.
  intros Hwire.
  assert (Hbind : ShouldBindJSON (text_of (JObj ms) ++ rest) = Some (JObj ms)).
  { unfold ShouldBindJSON, first_value, decode_gas.
    pose proof (JsonFacts.size_text (JObj ms) 0 Hwire) as Hsz.
    assert (Hgas : size (JObj ms)
                   <= 2 * String.length (text_of (JObj ms) ++ rest) + 2).
    { rewrite JsonFacts.length_append. lia. }
    rewrite (JsonFacts.parse_text _ (JObj ms) 0%N rest Hgas Hwire
               ltac:(discriminate)).
    exact (JsonFacts.wire_valueInterface (JObj ms) 0%N Hwire). }
  split; [exact Hbind|].
  unfold sendEvent. rewrite Hbind. reflexivity.
Qed.

Lemma sendEvent_reads_one_value_witness :
  ShouldBindJSON (text_of (JObj [("kind", JStr "ping")]) ++ "123e5 extra")
  = Some (JObj [("kind", JStr "ping")])
  /\ status (fst (sendEvent (fun _ => EmptyString)
                    (text_of (JObj [("kind", JStr "ping")]) ++ "123e5 extra")
                    idle)) = 200%N.
Proof.
  apply (sendEvent_reads_one_value (fun _ => EmptyString)
           [("kind", JStr "ping")] "123e5 extra" idle).
  vm_compute. reflexivity.
Defined.

Lemma notification_mistyped (text : string) (ms : list (string * json))
  (v : json) :
  parse text = Some (JObj ms) ->
  In ("message", v) ms ->
  string_or_null v = false ->
  wellformed notifications_queue text = false.
Proof.
  intros Hparse Hin Hv. cbn [wellformed].
  unfold wellformed_notification, Unmarshal_NotificationMessage.
  rewrite Hparse.
  rewrite (notificationFields_mistyped "message" v ms Hin eq_refl Hv).
  reflexivity.
Qed.

End GoFacts.

(* ================================================================== *)
(** * Across the two services *)
(* ================================================================== *)

Module Relay.
Import JsonFacts.

(** ** The codec of the domain-event channel *)

Lemma kafka_roundtrip (event : string) (data : json) (timestamp : string) :
  utf8 event = true -> wire 1 data = true -> utf8 timestamp = true ->
  exists text,
    Node.kafkaValue event data timestamp = Some text
    /\ Go.Unmarshal_KafkaMessage text
       = Some {| Go.Event := event; Go.Data := data; Go.Timestamp := timestamp |}.
Proof.
  intros He Hd Ht.
  set (top := JObj [("event", JStr event); ("data", data);
                    ("timestamp", JStr timestamp)]).
  assert (Hwire : wire 0 top = true).
  { unfold top. cbn [wire forallb fst snd map].
    change (0 + 1)%N with 1%N. rewrite He, Hd, Ht. reflexivity. }
  exists (text_of top). split.
  - change (Node.kafkaValue event data timestamp) with (SerializeJSONProperty top).
    apply serialize_text. discriminate.
  - unfold Go.Unmarshal_KafkaMessage. rewrite (parse_stringify top Hwire).
    unfold top. cbn [Go.kafkaFields].
    repeat
      match goal with
      | |- context [names ?a ?b] =>
          let v := eval vm_compute in (names a b) in
          change (names a b) with v; cbn iota
      end.
    cbn [store_string Go.Event Go.Data Go.Timestamp].
    rewrite (wire_valueInterface data 1 Hd). reflexivity.
Qed.

(** C4, as the code has it.  For every event whose payload and time stamp
    cross the wire unchanged ([valid_event]: no undefined, numbers that are
    finite float64 literals, well-formed UTF-8, distinct keys, nesting
    within the scanner's limit), decoding the bytes the publisher writes
    for it gives the event back: its name, its payload and its time
    stamp. *)
Theorem decode_encode (e : Node.DomainEvent) (emittedAt : string) :
  Node.valid_event e emittedAt = true ->
  exists text,
    Node.encode e emittedAt = Some text
    /\ Go.Unmarshal_KafkaMessage text
       = Some {| Go.Event := Node.event_name e;
                 Go.Data := Node.event_data e;
                 Go.Timestamp := emittedAt |}.
Proof.
  unfold Node.valid_event, Node.encode. intros H.
  apply andb_prop in H. destruct H as [Hd Ht].
  apply kafka_roundtrip; [destruct e; reflexivity | exact Hd | exact Ht].
Qed.

Lemma decode_encode_witness :
  exists text,
    Node.encode (Node.created Node.widget) "2024-01-01T00:00:00.000Z" = Some text
    /\ Go.Unmarshal_KafkaMessage text
       = Some {| Go.Event := "item_created";
                 Go.Data := JObj Node.widget;
                 Go.Timestamp := "2024-01-01T00:00:00.000Z" |}.
Proof.
  apply (decode_encode (Node.created Node.widget) "2024-01-01T00:00:00.000Z").
  reflexivity.
Defined.

(** C4, as the spec has it, fails.  A record may hold a number that is not
    finite: the API accepts it (a price of 1e999 is parsed as Infinity and
    stored), and JSON.stringify writes null in its place.  The event is
    encoded and decoded without error, and the payload that is read back
    has null where the event has the number. *)
Lemma nonfinite_number_is_not_read_back :
  let item := [("name", JStr "w"); ("price", JNum "Infinity")] in
  let emittedAt := "2024-01-01T00:00:00.000Z" in
  match Node.encode (Node.created item) emittedAt with
  | Some text =>
      match Go.Unmarshal_KafkaMessage text with
      | Some m =>
          Go.Event m = "item_created"
          /\ Go.Timestamp m = emittedAt
          /\ get_prop (Node.event_data (Node.created item)) "price"
             = JNum "Infinity"
          /\ get_prop (Go.Data m) "price" = JNull
      | None => False
      end
  | None => False
  end
  /\ match fst (Node.handle (fun _ v => Some v) (fun _ => true)
                  (Node.POST (JObj item)) Node.quiet) with
     | Node.Normal r =>
         Node.status r = 201%N
         /\ get_prop (get_prop (JObj (Node.body r)) "data") "price"
            = JNum "Infinity"
     | Node.Throw _ => False
     end.
Proof. vm_compute. repeat split. Qed.

(** ** The codec of the two queues *)

(** Decoding the QueueAction the publisher writes for a valid event gives
    the action (the event name without its prefix), the time stamp, and the
    payload in its place: the record in Item for a create or an update, with
    ItemID left empty; the id in ItemID for a delete, with Item left nil. *)
Theorem queue_action_decodes (e : Node.DomainEvent) (timestamp : string) :
  Node.valid_event e timestamp = true ->
  exists text,
    JSON_stringify (JObj (Node.QueueAction e timestamp)) = Some text
    /\ Go.Unmarshal_RabbitMessage text
       = Some match e with
              | Node.created item =>
                  {| Go.Action := "created"; Go.Item := JObj item;
                     Go.ItemID := EmptyString; Go.RTimestamp := timestamp |}
              | Node.updated item =>
                  {| Go.Action := "updated"; Go.Item := JObj item;
                     Go.ItemID := EmptyString; Go.RTimestamp := timestamp |}
              | Node.deleted id =>
                  {| Go.Action := "deleted"; Go.Item := JNull;
                     Go.ItemID := id; Go.RTimestamp := timestamp |}
              end.
Proof.
  unfold Node.valid_event. intros H.
  apply andb_prop in H. destruct H as [Hd Ht].
  destruct e as [item|item|id]; cbn [Node.event_data] in Hd.
  - set (top := JObj [("action", JStr "created"); ("item", JObj item);
                      ("timestamp", JStr timestamp)]).
    assert (Hwire : wire 0 top = true).
    { unfold top. cbn [wire forallb fst snd map] in *.
      change (0 + 1)%N with 1%N. rewrite Hd, Ht. reflexivity. }
    exists (text_of top). split; [reflexivity|].
    unfold Go.Unmarshal_RabbitMessage. rewrite (parse_stringify top Hwire).
    unfold top. cbn [Go.rabbitFields]. GoFacts.decide_names.
    cbn [store_string Go.Action Go.Item Go.ItemID Go.RTimestamp].
    rewrite (wire_valueInterface (JObj item) 1 Hd). reflexivity.
  - set (top := JObj [("action", JStr "updated"); ("item", JObj item);
                      ("timestamp", JStr timestamp)]).
    assert (Hwire : wire 0 top = true).
    { unfold top. cbn [wire forallb fst snd map] in *.
      change (0 + 1)%N with 1%N. rewrite Hd, Ht. reflexivity. }
    exists (text_of top). split; [reflexivity|].
    unfold Go.Unmarshal_RabbitMessage. rewrite (parse_stringify top Hwire).
    unfold top. cbn [Go.rabbitFields]. GoFacts.decide_names.
    cbn [store_string Go.Action Go.Item Go.ItemID Go.RTimestamp].
    rewrite (wire_valueInterface (JObj item) 1 Hd). reflexivity.
  - set (top := JObj [("action", JStr "deleted"); ("itemId", JStr id);
                      ("timestamp", JStr timestamp)]).
    assert (Hid : utf8 id = true).
    { change (obj_literal [("id", JStr id)]) with [("id", JStr id)] in Hd.
      cbn [wire forallb fst snd map] in Hd.
      destruct (utf8 id); [reflexivity|].
      rewrite !andb_false_r in Hd. cbn in Hd.
      rewrite ?andb_false_r in Hd. discriminate Hd. }
    assert (Hwire : wire 0 top = true).
    { unfold top. cbn [wire forallb fst snd map].
      rewrite Hid, Ht. reflexivity. }
    exists (text_of top). split; [reflexivity|].
    unfold Go.Unmarshal_RabbitMessage. rewrite (parse_stringify top Hwire).
    unfold top. cbn [Go.rabbitFields]. GoFacts.decide_names.
    reflexivity.
Qed.

Lemma queue_action_decodes_witness :
  exists text,
    JSON_stringify
      (JObj (Node.QueueAction (Node.deleted "65a000000000000000000001")
               "2024-01-01T00:00:00.000Z")) = Some text
    /\ Go.Unmarshal_RabbitMessage text
       = Some {| Go.Action := "deleted"; Go.Item := JNull;
                 Go.ItemID := "65a000000000000000000001";
                 Go.RTimestamp := "2024-01-01T00:00:00.000Z" |}.
Proof.
  apply (queue_action_decodes (Node.deleted "65a000000000000000000001")
           "2024-01-01T00:00:00.000Z").
  reflexivity.
Defined.

(** The members of a notification that JSON.stringify writes. *)
Lemma notification_text (message recipient : json) (timestamp : string) :
  JSON_stringify (JObj (Node.NotificationRequest message recipient timestamp))
  = Some (text_of
            (JObj ((match message with
                    | JUndefined => []
                    | _ => [("message", message)]
                    end)
                   ++ (match recipient with
                       | JUndefined => []
                       | _ => [("recipient", recipient)]
                       end)
                   ++ [("timestamp", JStr timestamp)])%list)).
Proof. destruct message, recipient; reflexivity. Qed.

(** A notification whose message and recipient are strings is decoded by
    the Go service with these strings and the time stamp.  One that is
    missing from the request, or null, is no error: the field is the empty
    string. *)
Theorem notification_decodes (message recipient : json) (timestamp : string) :
  Go.sendable_string message = true ->
  Go.sendable_string recipient = true ->
  utf8 timestamp = true ->
  exists text,
    JSON_stringify (JObj (Node.NotificationRequest message recipient timestamp))
    = Some text
    /\ Go.Unmarshal_NotificationMessage text
       = Some {| Go.Message := Go.string_value message;
                 Go.Recipient := Go.string_value recipient;
                 Go.NTimestamp := timestamp |}.
Proof.
  intros Hm Hr Ht. rewrite notification_text. eexists. split; [reflexivity|].
  unfold Go.Unmarshal_NotificationMessage.
  destruct message; try discriminate Hm;
    destruct recipient; try discriminate Hr;
    cbn [Go.sendable_string app] in *;
    (rewrite parse_stringify;
     [ cbn [Go.notificationFields]; GoFacts.decide_names; reflexivity
     | cbn [wire forallb fst snd map]; change (0 + 1)%N with 1%N;
       repeat match goal with
              | H : utf8 _ = true |- _ => rewrite H; clear H
              end;
       reflexivity ]).
Qed.

Lemma notification_decodes_witness :
  exists text,
    JSON_stringify
      (JObj (Node.NotificationRequest (JStr "hi") JUndefined
               "2024-01-01T00:00:00.000Z")) = Some text
    /\ Go.Unmarshal_NotificationMessage text
       = Some {| Go.Message := "hi"; Go.Recipient := EmptyString;
                 Go.NTimestamp := "2024-01-01T00:00:00.000Z" |}.
Proof.
  apply (notification_decodes (JStr "hi") JUndefined "2024-01-01T00:00:00.000Z");
    reflexivity.
Defined.

(** POST /api/notify does not check its body, the Go service does.  A
    message that is a boolean, a number, an array or an object, and that
    crosses the wire unchanged, is written to the queue like any other, and
    the Go service cannot decode the notification: its loop skips it.  A
    number that is not finite is written null, which the Go service takes:
    the notification is decoded, with an empty message. *)
Theorem notification_of_another_type_is_skipped (message recipient : json)
  (timestamp : string) :
  Go.sendable_string recipient = true ->
  utf8 timestamp = true ->
  exists text,
    JSON_stringify (JObj (Node.NotificationRequest message recipient timestamp))
    = Some text
    /\ (wire 1 message = true ->
        Go.string_or_null message = false ->
        Go.wellformed Go.notifications_queue text = false)
    /\ (forall lit,
          message = JNum lit ->
          number_literal lit = false ->
          Go.Unmarshal_NotificationMessage text
          = Some {| Go.Message := EmptyString;
                    Go.Recipient := Go.string_value recipient;
                    Go.NTimestamp := timestamp |}).
Proof.
  intros Hr Ht. rewrite notification_text. eexists. split; [reflexivity|].
  split.
  - intros Hw Hm.
    assert (Hdef : message <> JUndefined) by (intros E; subst; discriminate Hw).
    match goal with
    | |- Go.wellformed _ (text_of (JObj ?members)) = false =>
        apply (GoFacts.notification_mistyped (text_of (JObj members)) members
                 message)
    end.
    + apply parse_stringify.
      destruct message; try congruence; try discriminate Hm;
        destruct recipient; try discriminate Hr;
        cbn [Go.sendable_string app] in *;
        cbn [wire forallb fst snd map] in *; change (0 + 1)%N with 1%N;
        repeat match goal with
               | H : _ = true |- _ => rewrite H; clear H
               end;
        reflexivity.
    + destruct message; try congruence; left; reflexivity.
    + exact Hm.
  - intros lit -> Hlit. cbn [app].
    match goal with
    | |- context [text_of (JObj (("message", JNum lit) :: ?tail))] =>
        assert (Hnull : text_of (JObj (("message", JNum lit) :: tail))
                        = text_of (JObj (("message", JNull) :: tail)))
          by (unfold text_of; cbn [SerializeJSONProperty]; rewrite Hlit;
              reflexivity);
        rewrite Hnull
    end.
    unfold Go.Unmarshal_NotificationMessage.
    destruct recipient; try discriminate Hr;
      cbn [Go.sendable_string app Go.string_value] in *;
      (rewrite parse_stringify;
       [ cbn [Go.notificationFields]; GoFacts.decide_names; reflexivity
       | cbn [wire forallb fst snd map]; change (0 + 1)%N with 1%N;
         repeat match goal with
                | H : utf8 _ = true |- _ => rewrite H; clear H
                end;
         reflexivity ]).
Qed.

Lemma notification_of_another_type_is_skipped_witness :
  exists text,
    JSON_stringify
      (JObj (Node.NotificationRequest (JNum "5") (JStr "a@b.com")
               "2024-01-01T00:00:00.000Z")) = Some text
    /\ Go.wellformed Go.notifications_queue text = false.
Proof.
  destruct (notification_of_another_type_is_skipped (JNum "5") (JStr "a@b.com")
              "2024-01-01T00:00:00.000Z" eq_refl eq_refl)
    as (text & Htext & Hskip & _).
  exists text. split; [exact Htext | exact (Hskip eq_refl eq_refl)].
Defined.

(** ** From the API to the consumer *)

(** When producer.send takes the message, what [publish] puts on
    item-events for a valid event is a value the log-stream loop of the Go
    service decodes: the loop hands it to its handler and skips nothing. *)
Theorem published_event_is_dispatched (Marshal : json -> string)
  (e : Node.DomainEvent) (w : Node.world) (st : Go.state) :
  Node.valid_event e (Node.clock w (Node.ticks w)) = true ->
  Node.fault w "producer.send" = None ->
  exists value,
    Node.topics (snd (Node.publish e w))
    = (Node.topics w ++ [("item-events", Some value)])%list
    /\ Go.dispatched (Go.consume Marshal Go.item_events [value] st)
       = S (Go.dispatched st)
    /\ Go.skipped (Go.consume Marshal Go.item_events [value] st)
       = Go.skipped st.
Proof.
  unfold Node.valid_event. intros Hvalid Hsend.
  apply andb_prop in Hvalid. destruct Hvalid as [Hd Ht].
  destruct (NodeFacts.QueueAction_text e w) as [text Htext].
  destruct (NodeFacts.publish_effect e w text Htext) as [Htopics _].
  rewrite Hsend in Htopics.
  assert (He : utf8 (Node.event_name e) = true) by (destruct e; reflexivity).
  destruct (kafka_roundtrip _ _ _ He Hd Ht) as (value & Hvalue & Hdecode).
  rewrite Hvalue in Htopics.
  exists value. split; [exact Htopics|].
  destruct (GoFacts.consume_step Marshal Go.item_events value st) as [Hdis Hskip].
  cbn [Go.wellformed] in Hdis, Hskip. unfold Go.wellformed_event in Hdis, Hskip.
  rewrite Hdecode in Hdis, Hskip. split; assumption.
Qed.

Lemma published_event_is_dispatched_witness :
  exists value,
    Node.topics (snd (Node.publish (Node.created Node.widget) Node.quiet))
    = (Node.topics Node.quiet ++ [("item-events", Some value)])%list
    /\ Go.dispatched (Go.consume (fun _ => EmptyString) Go.item_events [value]
                        Go.idle)
       = S (Go.dispatched Go.idle)
    /\ Go.skipped (Go.consume (fun _ => EmptyString) Go.item_events [value]
                     Go.idle)
       = Go.skipped Go.idle.
Proof.
  apply (published_event_is_dispatched (fun _ => EmptyString)
           (Node.created Node.widget) Node.quiet Go.idle); reflexivity.
Defined.

(** ** Start-up *)

(** C5, as the code has it.  In the Go service a failure of one of the
    connect calls of the record store and of the queue broker is fatal: main
    ends in log.Fatalf before the consumers and the server are started,
    having made each call at most once.  Its log-broker step connects to
    nothing and returns nil.  The Node API listens first and connects
    afterwards; whatever fails then, it goes on listening. *)
Theorem connect_failures_at_startup (st : Go.state) (PORT : string)
  (w : Node.world) :
  (Go.connect_fails st = true ->
   exists line,
     fst (Go.main st) = Go.Fatal line
     /\ Go.consuming (snd (Go.main st)) = Go.consuming st
     /\ Go.serving (snd (Go.main st)) = Go.serving st
     /\ exists attempts,
          Go.calls (snd (Go.main st)) = (Go.calls st ++ attempts)%list
          /\ NoDup attempts)
  /\ fst (Go.connectKafka st) = None
  /\ fst (Node.listen PORT w) = Node.Normal tt
  /\ Node.listening (snd (Node.listen PORT w)) = true.
Proof.
  split; [apply GoFacts.main_fatal|].
  split; [reflexivity|].
  apply NodeFacts.listen_serves.
Qed.

Lemma connect_failures_at_startup_witness :
  exists line,
    fst (Go.main (Go.failing "amqp.Dial" "connection refused" Go.idle))
    = Go.Fatal line.
Proof.
  destruct (connect_failures_at_startup
              (Go.failing "amqp.Dial" "connection refused" Go.idle)
              "3000" Node.quiet) as [H _].
  destruct (H eq_refl) as (line & Hline & _).
  exists line. exact Hline.
Defined.

(** C5, as the spec has it, fails: with every driver call of the Node API
    refused, the process is listening and has only logged the error. *)
Lemma node_listens_without_brokers :
  let w := Node.with_fault (fun _ => Some "ECONNREFUSED") Node.quiet in
  fst (Node.listen "3000" w) = Node.Normal tt
  /\ Node.listening (snd (Node.listen "3000" w)) = true
  /\ Node.rabbitChannel (snd (Node.listen "3000"
                                (Node.with_rabbitChannel false w))) = false
  /\ Node.console (snd (Node.listen "3000" w))
     = ["Node API server running on port 3000";
        "Error initializing services: ECONNREFUSED"].
Proof. vm_compute. repeat split. Qed.

End Relay.
